(** * qr-api: a shallow embedding of the QR rendering service

    The development follows the three TypeScript sources of the worker:
    - [validators.ts]   : [parseColor] (module [Validators]);
    - [qr-generator.ts] : [colorToHex], [convertCharset], the geometry that
      [generateQRCodeSVG] and [generatePNG] each compute, and both
      renderers (module [QrGenerator]);
    - [index.ts]        : the GET/POST parameter merge of
      [handleQRCodeRequest] (module [Index]).

    JavaScript values are embedded as follows.
    - A string is the list of its UTF-16 code units ([list N]); [lit] turns a
      literal into such a list.
    - The numbers of the renderer are integers (they come out of [parseInt]
      and of the QR library), far below 2^53, so they are [Z];
      [Math.floor (a / b)] is [Z.div], which is floor division, and has no
      integer value when [b] is zero ([floorDiv] is then [None], and so is
      the renderer that computed it).
    - A [Uint8Array] is a [list Z] of bytes; a store outside the array is
      dropped and a stored value is reduced modulo 256.
    - A plain object used as a dictionary is a [gmap] of its own properties,
      read through the properties inherited from [Object.prototype]. *)

From Stdlib Require Import ZArith List String Ascii Lia.
From Stdlib Require Import DecimalString HexadecimalString.
From stdpp Require Import base option list list_numbers sorting.
From stdpp Require Import gmap strings numbers.

Local Open Scope Z_scope.

Abbreviation jsstring := (list N).

(* ================================================================== *)
(** * JavaScript primitives used by the sources                         *)
(* ================================================================== *)

Module Js.

(** A literal, as the list of its code units. *)
Definition lit (s : string) : jsstring :=
  N_of_ascii <$> list_ascii_of_string s.

(** The double quote, which the templates of the SVG writer contain. *)
Definition dquote : jsstring := [34%N].

(** The line break inside the SVG template literal. *)
Definition newline : jsstring := [10%N].

(** [s.length] *)
Definition length (s : jsstring) : Z := Z.of_nat (List.length s).

(** [!s] for a string: only the empty string is falsy. *)
Definition is_empty (s : jsstring) : bool :=
  match s with [] => true | _ => false end.

Fixpoint startsWith (prefix s : jsstring) : bool :=
  match prefix, s with
  | [], _ => true
  | _ :: _, [] => false
  | p :: prefix', c :: s' => (p =? c)%N && startsWith prefix' s'
  end.

(** [s.includes(needle)] *)
Fixpoint includes (needle s : jsstring) : bool :=
  startsWith needle s ||
  match s with
  | [] => false
  | _ :: s' => includes needle s'
  end.

(** [s.split(sep)] for a separator of one code unit. *)
Fixpoint split (sep : N) (s : jsstring) : list jsstring :=
  match s with
  | [] => [[]]
  | c :: s' =>
      if (c =? sep)%N then [] :: split sep s'
      else match split sep s' with
           | part :: parts => (c :: part) :: parts
           | [] => [[c]]
           end
  end.

(** [s.substr(start, len)] for non-negative arguments. *)
Definition substr (start len : nat) (s : jsstring) : jsstring :=
  take len (drop start s).

(** [s[i]] for an index inside the string: the string of that one code
    unit. *)
Definition charAt (i : nat) (s : jsstring) : jsstring := substr i 1 s.

(** [s.padStart(target, pad)] for a filler of one code unit. *)
Definition padStart (target : nat) (pad : N) (s : jsstring) : jsstring :=
  replicate (target - List.length s) pad ++ s.

(** White space and line terminators skipped by [parseInt]. *)
Definition isWhiteSpace (c : N) : bool :=
  ((9 <=? c) && (c <=? 13) || (c =? 32) || (c =? 160) || (c =? 5760)
   || (8192 <=? c) && (c <=? 8202) || (c =? 8232) || (c =? 8233)
   || (c =? 8239) || (c =? 8287) || (c =? 12288) || (c =? 65279))%N.

Fixpoint skipWhiteSpace (s : jsstring) : jsstring :=
  match s with
  | c :: s' => if isWhiteSpace c then skipWhiteSpace s' else s
  | [] => []
  end.

(** The value of a digit or letter, whatever the radix. *)
Definition digitValue (c : N) : option Z :=
  if ((48 <=? c) && (c <=? 57))%N then Some (Z.of_N c - 48)
  else if ((97 <=? c) && (c <=? 122))%N then Some (Z.of_N c - 87)
  else if ((65 <=? c) && (c <=? 90))%N then Some (Z.of_N c - 55)
  else None.

(** The digits of the longest prefix of [s] written in [radix], folded
    into [acc]; [seen] tells whether a digit was read. *)
Fixpoint parseDigits (radix : Z) (s : jsstring) (seen : bool) (acc : Z)
  : option Z :=
  match s with
  | c :: s' =>
      match digitValue c with
      | Some d =>
          if d <? radix then parseDigits radix s' true (acc * radix + d)
          else if seen then Some acc else None
      | None => if seen then Some acc else None
      end
  | [] => if seen then Some acc else None
  end.

(** [parseInt(s, radix)] for radix 10 or 16; [None] is [NaN].  An integer
    beyond 2^53 is kept exact here where JavaScript rounds it; the callers
    only compare the result with bounds far below. *)
Definition parseInt (s : jsstring) (radix : Z) : option Z :=
  let s1 := skipWhiteSpace s in
  let '(sign, s2) :=
    match s1 with
    | 45%N :: t => (-1, t)
    | 43%N :: t => (1, t)
    | _ => (1, s1)
    end in
  let s3 :=
    if radix =? 16 then
      match s2 with
      | 48%N :: 120%N :: t => t
      | 48%N :: 88%N :: t => t
      | _ => s2
      end
    else s2 in
  n ← parseDigits radix s3 false 0;
  Some (sign * n).

(** [n.toString(10)], as a template literal prints an integer. *)
Definition toString (n : Z) : jsstring :=
  lit (DecimalString.NilZero.string_of_int (Z.to_int n)).

(** [n.toString(16)] for an integer. *)
Definition toString16 (n : Z) : jsstring :=
  lit (HexadecimalString.NilZero.string_of_int (Z.to_hex_int n)).

(** [Math.floor(a / b)] on integers: no integer when [b] is zero
    (JavaScript gives an infinity or [NaN]). *)
Definition floorDiv (a b : Z) : option Z :=
  if b =? 0 then None else Some (a / b).

(** A counted loop [for (let i = 0; i < n; i++) body], threading the
    state [s] through the iterations. *)
Definition for_upto {S : Type} (n : Z) (body : Z → S → S) (s : S) : S :=
  foldl (λ acc i, body i acc) s (seqZ 0 n).

End Js.

(* ================================================================== *)
(** * validators.ts                                                     *)
(* ================================================================== *)

Module Validators.
Import Js.

Record Color := mkColor { r : Z; g : Z; b : Z }.

Record Size := mkSize { width : Z; height : Z }.

(** [ParsedQRParams]; the charsets, the level and the format are the
    strings the validator let through. *)
Record ParsedQRParams := mkParams {
  data : jsstring;
  size : Size;
  charsetSource : jsstring;
  charsetTarget : jsstring;
  ecc : jsstring;
  color : Color;
  bgcolor : Color;
  margin : Z;
  qzone : Z;
  format : jsstring
}.

(** [class QRParamError extends Error], with its default status. *)
Record QRParamError := mkError { message : string; statusCode : Z }.

Definition paramError (msg : string) : QRParamError :=
  {| message := msg; statusCode := 400 |}.

(** The outcome of a function that may throw a [QRParamError]. *)
Inductive result (A : Type) : Type :=
| Return (a : A)
| Throw (e : QRParamError).
Arguments Return {A} a.
Arguments Throw {A} e.

#[global] Instance result_bind : MBind result :=
  λ A B f m, match m with Return a => f a | Throw e => Throw e end.

(** The callback of [parts.map] in the decimal branch. *)
Definition parsePart (part : jsstring) : result Z :=
  match parseInt part 10 with
  | None => Throw (paramError "RGB values must be between 0 and 255")
  | Some num =>
      if (num <? 0) || (num >? 255)
      then Throw (paramError "RGB values must be between 0 and 255")
      else Return num
  end.

(** [colorStr.replace(/^#/, '')] *)
Definition stripHash (colorStr : jsstring) : jsstring :=
  match colorStr with
  | 35%N :: t => t
  | _ => colorStr
  end.

Definition parseColor (colorStr : jsstring) : result Color :=
  if is_empty colorStr then
    Throw (paramError "Color parameter is required")
  else if includes (lit "-") colorStr then
    (* decimal format: 255-0-0 *)
    match split 45 colorStr with
    | [p0; p1; p2] =>
        r ← parsePart p0;
        g ← parsePart p1;
        b ← parsePart p2;
        Return {| r := r; g := g; b := b |}
    | _ =>
        Throw (paramError "Invalid color format. Use RGB format like 255-0-0")
    end
  else
    (* hex format: ff0000, f00, FF0000 *)
    let hex := stripHash colorStr in
    if length hex =? 3 then
      (* short format: f00 -> ff0000 *)
      match parseInt (charAt 0 hex ++ charAt 0 hex) 16,
            parseInt (charAt 1 hex ++ charAt 1 hex) 16,
            parseInt (charAt 2 hex ++ charAt 2 hex) 16 with
      | Some r, Some g, Some b => Return {| r := r; g := g; b := b |}
      | _, _, _ => Throw (paramError "Invalid hex color format")
      end
    else if length hex =? 6 then
      (* long format: ff0000 *)
      match parseInt (substr 0 2 hex) 16, parseInt (substr 2 2 hex) 16,
            parseInt (substr 4 2 hex) 16 with
      | Some r, Some g, Some b => Return {| r := r; g := g; b := b |}
      | _, _, _ => Throw (paramError "Invalid hex color format")
      end
    else
      Throw (paramError
        "Invalid color format. Use RGB decimal (255-0-0) or hex (ff0000, f00)").

End Validators.

(* ================================================================== *)
(** * qr-generator.ts                                                   *)
(* ================================================================== *)

Module QrGenerator.
Import Js Validators.

(** The symbol built by the [qrcode-generator] library, of which the
    renderers use two methods only. *)
Record QRCode := mkQR {
  getModuleCount : Z;
  isDark : Z → Z → bool
}.

Definition toHex (n : Z) : jsstring := padStart 2 48 (toString16 n).

Definition colorToHex (color : Color) : jsstring :=
  toHex (r color) ++ toHex (g color) ++ toHex (b color).

Definition UTF8 : jsstring := lit "UTF-8".
Definition ISO88591 : jsstring := lit "ISO-8859-1".

(** [text.replace(/[^\u0000-\u00FF]/g, '?')]: without the [u] flag the
    class is matched against single code units. *)
Definition replaceNonLatin1 (text : jsstring) : jsstring :=
  (λ c, if (c <=? 255)%N then c else 63%N) <$> text.

Definition convertCharset (text from to : jsstring) : jsstring :=
  if bool_decide (from = to) then text
  else if bool_decide (from = UTF8) && bool_decide (to = ISO88591)
  then replaceNonLatin1 text
  else if bool_decide (from = ISO88591) && bool_decide (to = UTF8)
  then text
  else text.

(** The local constants both renderers compute before drawing;
    [actualSize] is called [actualWidth] in [generateQRCodeSVG]. *)
Record Geometry := mkGeometry {
  moduleCount : Z;
  marginPx : Z;
  totalModules : Z;
  available : Z;
  moduleSize : Z;
  contentSize : Z;
  leftover : Z;
  actualSize : Z;
  offset : Z
}.

(** Lines 85-93, the preamble of [generateQRCodeSVG].  [params.margin]
    is an integer, so [Math.floor] leaves it as it is. *)
Definition svgGeometry (qr : QRCode) (params : ParsedQRParams)
  : option Geometry :=
  let size := width (size params) in
  let moduleCount := getModuleCount qr in
  let marginPx := Z.max 0 (margin params) in
  let totalModules := moduleCount + 2 * qzone params in
  let available := Z.max 0 (size - 2 * marginPx) in
  q ← floorDiv available totalModules;
  let moduleSize := Z.max 1 q in
  let contentSize := moduleSize * totalModules in
  let leftover := Z.max 0 (available - contentSize) in
  let actualWidth := size in
  let offset := marginPx + leftover / 2 + qzone params * moduleSize in
  Some (mkGeometry moduleCount marginPx totalModules available moduleSize
          contentSize leftover actualWidth offset).

(** Lines 116-125, the preamble of [generatePNG]. *)
Definition pngGeometry (qr : QRCode) (params : ParsedQRParams)
  : option Geometry :=
  let moduleCount := getModuleCount qr in
  let size := width (size params) in
  let marginPx := Z.max 0 (margin params) in
  let totalModules := moduleCount + 2 * qzone params in
  let available := Z.max 0 (size - 2 * marginPx) in
  q ← floorDiv available totalModules;
  let moduleSize := Z.max 1 q in
  let contentSize := moduleSize * totalModules in
  let leftover := Z.max 0 (available - contentSize) in
  let actualSize := size in
  let offset := marginPx + leftover / 2 + qzone params * moduleSize in
  Some (mkGeometry moduleCount marginPx totalModules available moduleSize
          contentSize leftover actualSize offset).

(** ** The SVG writer *)

(** An attribute [ name="value"] of a tag. *)
Definition attr (name : string) (value : jsstring) : jsstring :=
  lit " " ++ lit name ++ lit "=" ++ dquote ++ value ++ dquote.

(** Lines 95-97: the prolog and the root element ([svgOpen]), then the
    background rectangle, of side [actualWidth] and filled with [light]. *)
Definition svgBackground (actualWidth : Z) (light : jsstring) : jsstring :=
  lit "<rect" ++ attr "width" (toString actualWidth)
    ++ attr "height" (toString actualWidth)
    ++ attr "fill" (lit "#" ++ light) ++ lit "/>".

Definition svgOpen (actualWidth : Z) : jsstring :=
  lit "<?xml" ++ attr "version" (lit "1.0") ++ attr "encoding" (lit "UTF-8")
    ++ lit "?>" ++ newline
    ++ lit "<svg" ++ attr "xmlns" (lit "http://www.w3.org/2000/svg")
    ++ attr "width" (toString actualWidth)
    ++ attr "height" (toString actualWidth)
    ++ attr "viewBox"
         (lit "0 0 " ++ toString actualWidth ++ lit " "
            ++ toString actualWidth)
    ++ lit ">" ++ newline.

Definition svgHeader (actualWidth : Z) (light : jsstring) : jsstring :=
  svgOpen actualWidth ++ svgBackground actualWidth light.

(** Line 105: the rectangle of one dark module. *)
Definition svgRect (x y moduleSize : Z) (dark : jsstring) : jsstring :=
  lit "<rect" ++ attr "x" (toString x) ++ attr "y" (toString y)
    ++ attr "width" (toString moduleSize)
    ++ attr "height" (toString moduleSize)
    ++ attr "fill" (lit "#" ++ dark) ++ lit "/>".

(** The body of the inner loop, lines 102-106. *)
Definition svgModule (qr : QRCode) (geo : Geometry) (dark : jsstring)
    (row col : Z) (svg : jsstring) : jsstring :=
  if isDark qr row col then
    let x := offset geo + col * moduleSize geo in
    let y := offset geo + row * moduleSize geo in
    svg ++ svgRect x y (moduleSize geo) dark
  else svg.

Definition generateQRCodeSVG (qr : QRCode) (params : ParsedQRParams)
  : option jsstring :=
  let dark := colorToHex (color params) in
  let light := colorToHex (bgcolor params) in
  geo ← svgGeometry qr params;
  let svg := svgHeader (actualSize geo) light in
  let svg :=
    for_upto (moduleCount geo) (λ row svg,
      for_upto (moduleCount geo) (λ col svg,
        svgModule qr geo dark row col svg) svg) svg in
  Some (svg ++ lit "</svg>").

(** ** The PNG bitmap *)

(** The [Uint8Array] of the bitmap, with the trace of the indices the
    program stored to (most recent first).  The trace is not program
    state: it records where each store went, in range or not. *)
Record Bitmap := mkBitmap {
  imageData : list Z;
  stores : list Z
}.

(** [new Uint8Array(n)]: [n] zero bytes. *)
Definition newUint8Array (n : Z) : Bitmap :=
  {| imageData := replicate (Z.to_nat n) 0; stores := [] |}.

(** [imageData[index] = value]: the value is reduced modulo 256 and a
    store outside the array is dropped. *)
Definition store (index value : Z) (bm : Bitmap) : Bitmap :=
  {| imageData :=
       if decide (0 ≤ index)
       then <[Z.to_nat index := value `mod` 256]> (imageData bm)
       else imageData bm;
     stores := index :: stores bm |}.

(** The four stores of one pixel, lines 131-134 and 149-152. *)
Definition storePixel (index : Z) (c : Color) (bm : Bitmap) : Bitmap :=
  let bm := store index (r c) bm in
  let bm := store (index + 1) (g c) bm in
  let bm := store (index + 2) (b c) bm in
  store (index + 3) 255 bm.

(** [for (let i = 0; i < n; i += 4) body]: the iterations are
    [i = 0, 4, 8, ...] below [n], that is [ceil (n / 4)] of them. *)
Definition for_by4 {S : Type} (n : Z) (body : Z → S → S) (s : S) : S :=
  for_upto ((n + 3) / 4) (λ k, body (4 * k)) s.

(** Lines 130-135. *)
Definition fillBackground (bg : Color) (bm : Bitmap) : Bitmap :=
  for_by4 (Z.of_nat (List.length (imageData bm)))
    (λ i bm, storePixel i bg bm) bm.

(** Lines 145-153: one pixel of a module, clipped on the right and at
    the bottom only. *)
Definition plot (geo : Geometry) (fg : Color) (startX startY y x : Z)
    (bm : Bitmap) : Bitmap :=
  let pixelX := startX + x in
  let pixelY := startY + y in
  if (pixelX <? actualSize geo) && (pixelY <? actualSize geo) then
    let index := (pixelY * actualSize geo + pixelX) * 4 in
    storePixel index fg bm
  else bm.

(** Lines 140-156: the square of the module at [(row, col)]. *)
Definition drawModule (qr : QRCode) (geo : Geometry) (fg : Color)
    (row col : Z) (bm : Bitmap) : Bitmap :=
  if isDark qr row col then
    let startX := offset geo + col * moduleSize geo in
    let startY := offset geo + row * moduleSize geo in
    for_upto (moduleSize geo) (λ y bm,
      for_upto (moduleSize geo) (λ x bm,
        plot geo fg startX startY y x bm) bm) bm
  else bm.

(** Lines 138-158. *)
Definition drawModules (qr : QRCode) (geo : Geometry) (fg : Color)
    (bm : Bitmap) : Bitmap :=
  for_upto (moduleCount geo) (λ row bm,
    for_upto (moduleCount geo) (λ col bm,
      drawModule qr geo fg row col bm) bm) bm.

(** [generatePNG] up to the call of the PNG encoder, which receives
    [imageData] and [actualSize] and is not part of the sources. *)
Definition generatePNG (qr : QRCode) (params : ParsedQRParams)
  : option Bitmap :=
  geo ← pngGeometry qr params;
  let imageData :=
    newUint8Array (actualSize geo * actualSize geo * 4) in
  let imageData := fillBackground (bgcolor params) imageData in
  Some (drawModules qr geo (color params) imageData).

End QrGenerator.

(* ================================================================== *)
(** * index.ts: the parameter merge of [handleQRCodeRequest]            *)
(* ================================================================== *)

Module Index.
Import Js.

(** A value of the parsed JSON body, as far as the handler tells them
    apart: [typeof value === 'string'] or not. *)
Inductive JsonValue :=
| JString (s : jsstring)
| JOther.

(** What the handler reads of a request.  [formData] and [json] are the
    entries the platform hands out for the body, [None] when the call
    rejects. *)
Record Request := mkRequest {
  searchParams : list (jsstring * jsstring);
  method : jsstring;
  contentType : option jsstring;
  formData : option (list (jsstring * jsstring));
  json : option (list (jsstring * JsonValue))
}.

(** The property names every plain object inherits. *)
Definition objectPrototype : list jsstring :=
  lit <$> ["constructor"; "__defineGetter__"; "__defineSetter__";
           "hasOwnProperty"; "__lookupGetter__"; "__lookupSetter__";
           "isPrototypeOf"; "propertyIsEnumerable"; "toString"; "valueOf";
           "__proto__"; "toLocaleString"]%string.

(** What [params[key]] evaluates to. *)
Inductive JsValue :=
| VString (s : jsstring)
| VInherited
| VUndefined.

(** [params[key]]: an own property, else an inherited one. *)
Definition get (params : gmap (list N) (list N)) (key : jsstring) : JsValue :=
  match params !! key with
  | Some v => VString v
  | None =>
      if bool_decide (key ∈ objectPrototype) then VInherited else VUndefined
  end.

(** [params[key] = value]: the setter of [__proto__] ignores a string. *)
Definition set (params : gmap (list N) (list N)) (key value : jsstring)
  : gmap (list N) (list N) :=
  if bool_decide (key = lit "__proto__") then params
  else <[key := value]> params.

Definition truthy (v : JsValue) : bool :=
  match v with
  | VString s => negb (is_empty s)
  | VInherited => true
  | VUndefined => false
  end.

(** Lines 42-44. *)
Definition mergeGet (entries : list (jsstring * jsstring))
    (params : gmap (list N) (list N)) : gmap (list N) (list N) :=
  foldl (λ params kv, set params kv.1 kv.2) params entries.

(** Lines 52-57. *)
Definition mergeForm (entries : list (jsstring * jsstring))
    (params : gmap (list N) (list N)) : gmap (list N) (list N) :=
  foldl (λ params kv,
           if negb (truthy (get params kv.1)) then set params kv.1 kv.2
           else params) params entries.

(** Lines 60-65. *)
Definition mergeJson (entries : list (jsstring * JsonValue))
    (params : gmap (list N) (list N)) : gmap (list N) (list N) :=
  foldl (λ params kv,
           match kv.2 with
           | JString value =>
               if negb (truthy (get params kv.1)) then set params kv.1 value
               else params
           | JOther => params
           end) params entries.

(** Lines 39-67: the mapping handed to [validateAndParseParams]. *)
Definition mergeParams (request : Request)
  : option (gmap (list N) (list N)) :=
  let params := mergeGet (searchParams request) ∅ in
  if bool_decide (method request = lit "POST") then
    match contentType request with
    | Some ct =>
        if includes (lit "application/x-www-form-urlencoded") ct then
          entries ← formData request;
          Some (mergeForm entries params)
        else if includes (lit "application/json") ct then
          entries ← json request;
          Some (mergeJson entries params)
        else Some params
    | None => Some params
    end
  else Some params.

End Index.

(* ================================================================== *)
(** * The vocabulary of the specification                               *)
(* ================================================================== *)

Module Spec.
Import Js Validators QrGenerator.

(** The geometry as the specification words it, with its names. *)
Record Geometry := mkGeometry {
  totalModules : Z;
  availablePx : Z;
  moduleSizePx : Z;
  contentPx : Z;
  leftoverPx : Z;
  offsetPx : Z
}.

Definition computeGeometry
    (moduleCount targetSize marginPx quietZoneModules : Z) : Geometry :=
  let totalModules := moduleCount + 2 * quietZoneModules in
  let availablePx := Z.max 0 (targetSize - 2 * marginPx) in
  let moduleSizePx := Z.max 1 (availablePx / totalModules) in
  let contentPx := moduleSizePx * totalModules in
  let leftoverPx := Z.max 0 (availablePx - contentPx) in
  let offsetPx :=
    marginPx + leftoverPx / 2 + quietZoneModules * moduleSizePx in
  mkGeometry totalModules availablePx moduleSizePx contentPx leftoverPx
    offsetPx.

(** The geometry the code computed carries the values of the
    specification. *)
Definition agrees (geo : QrGenerator.Geometry) (sg : Geometry) : Prop :=
  QrGenerator.totalModules geo = totalModules sg ∧
  available geo = availablePx sg ∧
  moduleSize geo = moduleSizePx sg ∧
  contentSize geo = contentPx sg ∧
  leftover geo = leftoverPx sg ∧
  offset geo = offsetPx sg.

(** The documented ranges of a module matrix and a configuration. *)
Definition documentedRanges (qr : QRCode) (params : ParsedQRParams) : Prop :=
  Z.odd (getModuleCount qr) = true ∧ 21 ≤ getModuleCount qr ∧
  1 ≤ width (size params) ∧
  0 ≤ margin params ≤ 50 ∧
  0 ≤ qzone params ≤ 100.

(** A color whose components are bytes. *)
Definition validColor (c : Color) : Prop :=
  0 ≤ r c ≤ 255 ∧ 0 ≤ g c ≤ 255 ∧ 0 ≤ b c ≤ 255.

(** Code units of the two character ranges of [convertCharset]. *)
Definition isAscii (s : jsstring) : Prop := Forall (λ c, (c < 128)%N) s.
Definition isLatin1 (s : jsstring) : Prop := Forall (λ c, (c < 256)%N) s.

End Spec.

(* ================================================================== *)
(** * What the renderers produce, in the terms of the claims           *)
(* ================================================================== *)

Module Render.
Import Js Validators QrGenerator.

(** The modules in scan order: rows outside, columns inside. *)
Definition scanOrder (n : Z) : list (Z * Z) :=
  row ← seqZ 0 n; pair row <$> seqZ 0 n.

(** The dark modules of a symbol, in scan order. *)
Definition darkModules (qr : QRCode) : list (Z * Z) :=
  filter (λ rc, isDark qr rc.1 rc.2) (scanOrder (getModuleCount qr)).

(** [a] comes before [b] in a row-major scan. *)
Definition scanBefore (a b : Z * Z) : Prop :=
  a.1 < b.1 ∨ (a.1 = b.1 ∧ a.2 < b.2).

(** The rectangle written for the module at [rc = (row, col)]. *)
Definition moduleRect (geo : Geometry) (dark : jsstring) (rc : Z * Z)
  : jsstring :=
  svgRect (offset geo + rc.2 * moduleSize geo)
    (offset geo + rc.1 * moduleSize geo) (moduleSize geo) dark.

(** The document that draws [modules] in the list's order: the opening,
    the background rectangle, one rectangle per module, the closing tag. *)
Definition svgDocument (geo : Geometry) (light dark : jsstring)
    (modules : list (Z * Z)) : jsstring :=
  svgOpen (actualSize geo) ++ svgBackground (actualSize geo) light
    ++ (modules ≫= moduleRect geo dark) ++ lit "</svg>".

(** The index of the first byte of the pixel [(x, y)]. *)
Definition pixelIndex (size x y : Z) : Z := (y * size + x) * 4.

(** The four bytes at [index] are the opaque color [c]. *)
Definition hasPixel (buf : list Z) (index : Z) (c : Color) : Prop :=
  buf !! Z.to_nat index = Some (r c) ∧
  buf !! Z.to_nat (index + 1) = Some (g c) ∧
  buf !! Z.to_nat (index + 2) = Some (b c) ∧
  buf !! Z.to_nat (index + 3) = Some 255.

(** [(x, y)] lies in the square of the module at [(row, col)]. *)
Definition inModule (geo : Geometry) (row col x y : Z) : Prop :=
  offset geo + col * moduleSize geo ≤ x
    < offset geo + (col + 1) * moduleSize geo ∧
  offset geo + row * moduleSize geo ≤ y
    < offset geo + (row + 1) * moduleSize geo.

(** [(x, y)] lies in the square of some dark module. *)
Definition covered (qr : QRCode) (geo : Geometry) (x y : Z) : Prop :=
  ∃ row col,
    0 ≤ row < moduleCount geo ∧ 0 ≤ col < moduleCount geo ∧
    isDark qr row col = true ∧ inModule geo row col x y.

(** The bitmap has the size of the canvas and every store went into it. *)
Definition InBounds (size : Z) (bm : Bitmap) : Prop :=
  Z.of_nat (List.length (imageData bm)) = size * size * 4 ∧
  Forall (λ i, 0 ≤ i < size * size * 4) (stores bm).

(** The pixels of the region [D] of the canvas are foreground, the
    others background. *)
Definition Painted (size : Z) (fg bg : Color) (D : Z → Z → Prop)
    (bm : Bitmap) : Prop :=
  Z.of_nat (List.length (imageData bm)) = size * size * 4 ∧
  ∀ x y, 0 ≤ x < size → 0 ≤ y < size →
    (D x y → hasPixel (imageData bm) (pixelIndex size x y) fg) ∧
    (¬ D x y → hasPixel (imageData bm) (pixelIndex size x y) bg).

(** A hexadecimal digit, in either case. *)
Definition isHexDigit (c : N) : bool :=
  match digitValue c with Some d => d <? 16 | None => false end.

(** The hexadecimal digits, and the value of one. *)
Definition hexDigits : jsstring := lit "0123456789abcdefABCDEF".

Definition hexValue (c : N) : Z := default 0 (digitValue c).

(** [parseInt] reads the two digits [a] and [b] as their value. *)
Definition hexPair_ok (a b : N) : bool :=
  bool_decide (parseInt [a; b] 16 = Some (16 * hexValue a + hexValue b)).

(** The decimal text of [n] has no dash, is not empty and is accepted by
    the decimal branch as [n]. *)
Definition decimal_ok (n : Z) : bool :=
  match parsePart (toString n) with Return m => m =? n | Throw _ => false end
  && forallb (λ c, negb (c =? 45)%N) (toString n)
  && negb (is_empty (toString n)).

(** [toHex n] is two hexadecimal digits that [parseInt] reads back
    as [n]. *)
Definition toHex_ok (n : Z) : bool :=
  match toHex n with
  | [a; b] => isHexDigit a && isHexDigit b
              && bool_decide (parseInt [a; b] 16 = Some n)
  | _ => false
  end.

End Render.

(* ================================================================== *)
(** * The merge, in the terms of the claims                            *)
(* ================================================================== *)

Module Merge.
Import Js Index.

(** The mapping of the GET parameters alone. *)
Definition getMapping (request : Request) : gmap (list N) (list N) :=
  mergeGet (searchParams request) ∅.

(** GET precedence as the specification states it: every key of the GET
    mapping keeps its GET value in the merged mapping. *)
Definition GetPrecedence (request : Request) : Prop :=
  ∀ merged key v,
    mergeParams request = Some merged →
    getMapping request !! key = Some v →
    merged !! key = Some v.

(** The body carries the string [v] under [key]. *)
Definition postValue (request : Request) (key v : jsstring) : Prop :=
  (∃ entries, formData request = Some entries ∧ (key, v) ∈ entries) ∨
  (∃ entries, json request = Some entries ∧ (key, JString v) ∈ entries).

(** The entries of a JSON body the merge looks at. *)
Definition stringEntry (kv : jsstring * JsonValue)
  : option (jsstring * jsstring) :=
  match kv.2 with
  | JString s => Some (kv.1, s)
  | JOther => None
  end.

End Merge.

(* ================================================================== *)
(** * Concrete requests                                                 *)
(* ================================================================== *)

Module Scenario.
Import Js Validators QrGenerator Index.

(** A version-1 symbol (21 modules a side) with a checkerboard pattern. *)
Definition checker : QRCode := mkQR 21 (λ row col, Z.even (row + col)).

(** The scenario of the specification: 200 pixels, margin 1, no quiet
    zone, black on white. *)
Definition sampleParams : ParsedQRParams :=
  mkParams (lit "hi") (mkSize 200 200) UTF8 UTF8 (lit "L")
    (mkColor 0 0 0) (mkColor 255 255 255) 1 0 (lit "png").

(** The geometry of [checker] under [sampleParams]. *)
Definition sampleGeometry : Geometry := mkGeometry 21 1 21 198 9 189 9 200 5.

(** The smallest canvas, too small for the symbol and its quiet zone. *)
Definition tinyParams : ParsedQRParams :=
  mkParams (lit "hi") (mkSize 10 10) UTF8 UTF8 (lit "L")
    (mkColor 0 0 0) (mkColor 255 255 255) 1 4 (lit "png").

(** A symbol of two modules a side, for small bitmaps. *)
Definition twoByTwo : QRCode := mkQR 2 (λ row col, Z.even (row + col)).

(** A canvas of 3 pixels without margin, color (1, 2, 3) on white. *)
Definition threePixels : ParsedQRParams :=
  mkParams (lit "hi") (mkSize 3 3) UTF8 UTF8 (lit "L")
    (mkColor 1 2 3) (mkColor 255 255 255) 0 0 (lit "png").

(** A JSON body and a query that both give a color. *)
Definition colorRequest : Request :=
  mkRequest [(lit "color", lit "00f")] (lit "POST")
    (Some (lit "application/json")) None
    (Some [(lit "color", JString (lit "ff0000"));
           (lit "data", JString (lit "hi"))]).

(** A query with an empty color, [/?color=], and a form that gives one. *)
Definition emptyColorRequest : Request :=
  mkRequest [(lit "color", lit "")] (lit "POST")
    (Some (lit "application/x-www-form-urlencoded"))
    (Some [(lit "color", lit "ff0000")]) None.

End Scenario.

(* ================================================================== *)
(** * validators.ts, continued: sizes and whole requests               *)
(* ================================================================== *)

Module Params.
Import Js Validators.

(** A number that [parseInt] can return besides [NaN]: an integer that a
    double represents, or an infinity. *)
Inductive Number :=
| Finite (z : Z)
| Infinity
| NegInfinity.

(** The double nearest to the integer [z], ties to even: integers below
    2^53 in absolute value are kept, larger ones lose their low bits, and
    what rounds to 2^1024 or more is an infinity. *)
Definition roundToDouble (z : Z) : Number :=
  let a := Z.abs z in
  if a <? 2 ^ 53 then Finite z
  else
    let e := Z.log2 a - 52 in
    let q := Z.shiftr a e in
    let r := Z.land a (Z.ones e) in
    let half := Z.shiftl 1 (e - 1) in
    let q' := if (half <? r) || ((r =? half) && Z.odd q) then q + 1 else q in
    let m := Z.shiftl q' e in
    if 2 ^ 1024 <=? m then (if z <? 0 then NegInfinity else Infinity)
    else Finite (Z.sgn z * m).

(** [parseInt(s, 10)] as the number JavaScript holds; [None] is [NaN]. *)
Definition parseIntNumber (s : jsstring) : option Number :=
  roundToDouble <$> parseInt s 10.

(** [a !== b], [a < b] and [a > b] on these numbers. *)
Definition numberNe (a b : Number) : bool :=
  match a, b with
  | Finite x, Finite y => negb (x =? y)
  | Infinity, Infinity => false
  | NegInfinity, NegInfinity => false
  | _, _ => true
  end.

Definition numberLt (a : Number) (bound : Z) : bool :=
  match a with
  | Finite x => x <? bound
  | Infinity => false
  | NegInfinity => true
  end.

Definition numberGt (a : Number) (bound : Z) : bool :=
  match a with
  | Finite x => x >? bound
  | Infinity => true
  | NegInfinity => false
  end.

(** The text of a string inside an error message (messages are kept as
    byte strings: exact for ASCII, which the two formats are). *)
Definition messageText (s : jsstring) : string :=
  string_of_list_ascii (ascii_of_N <$> s).

Definition parseSize (sizeStr format : jsstring) : result Size :=
  if is_empty sizeStr then Return {| width := 200; height := 200 |}
  else
    match split 120 sizeStr with
    | [p0; p1] =>
        match parseIntNumber p0, parseIntNumber p1 with
        | Some width, Some height =>
            if numberNe width height then
              Throw (paramError
                "QR codes must be square (width must equal height)")
            else
              let minSize := 10 in
              let maxSize :=
                if bool_decide (format = lit "svg") then 1000000 else 1000 in
              if numberLt width minSize || numberLt height minSize then
                Throw (paramError
                  ("Size must be at least " ++ messageText (toString minSize)
                     ++ "x" ++ messageText (toString minSize)))
              else if numberGt width maxSize || numberGt height maxSize then
                Throw (paramError
                  ("Size cannot exceed " ++ messageText (toString maxSize)
                     ++ "x" ++ messageText (toString maxSize) ++ " for "
                     ++ messageText format ++ " format"))
              else
                match width, height with
                | Finite w, Finite h => Return {| width := w; height := h |}
                | _, _ => Throw (paramError "Size values must be numbers")
                end
        | _, _ => Throw (paramError "Size values must be numbers")
        end
    | _ => Throw (paramError "Invalid size format. Use format like 200x200")
    end.

(** [interface QRCodeParams]: every field may be missing at run time. *)
Module QRCodeParams.
Record t := mk {
  data : option jsstring;
  size : option jsstring;
  charset_source : option jsstring;
  charset_target : option jsstring;
  ecc : option jsstring;
  color : option jsstring;
  bgcolor : option jsstring;
  margin : option jsstring;
  qzone : option jsstring;
  format : option jsstring
}.
End QRCodeParams.

(** [v || d] for an optional string: a missing or empty [v] gives [d]. *)
Definition orDefault (v : option jsstring) (d : jsstring) : jsstring :=
  match v with
  | Some s => if is_empty s then d else s
  | None => d
  end.

(** [list.includes(s)] *)
Definition listIncludes (l : list jsstring) (s : jsstring) : bool :=
  bool_decide (s ∈ l).

(** Lines 173-179 and 182-188: an optional integer within [0, max].  The
    comparisons are those of the exact integer: rounding to a double
    moves no integer across 0 or [max]. *)
Definition parseBounded (v : option jsstring) (default max : Z)
    (msg : string) : result Z :=
  match v with
  | None => Return default
  | Some s =>
      match parseInt s 10 with
      | None => Throw (paramError msg)
      | Some n =>
          if (n <? 0) || (n >? max) then Throw (paramError msg)
          else Return n
      end
  end.

Definition validateAndParseParams (params : QRCodeParams.t)
  : result ParsedQRParams :=
  match QRCodeParams.data params with
  | None => Throw (paramError "data parameter is mandatory")
  | Some data =>
      if is_empty data then
        Throw (paramError "data parameter is mandatory")
      else if length data =? 0 then
        Throw (paramError "data parameter cannot be empty")
      else if length data >? 900 then
        Throw (paramError "data parameter is too long (max 900 characters)")
      else
        let format := orDefault (QRCodeParams.format params) (lit "png") in
        if negb (listIncludes [lit "png"; lit "svg"] format) then
          Throw (paramError "Invalid format. Supported formats: png, svg")
        else
          size ← parseSize
                   (orDefault (QRCodeParams.size params) (lit "200x200"))
                   format;
          let charsetSource :=
            orDefault (QRCodeParams.charset_source params) (lit "UTF-8") in
          let charsetTarget :=
            orDefault (QRCodeParams.charset_target params) (lit "UTF-8") in
          let validCharsets := [lit "UTF-8"; lit "ISO-8859-1"] in
          if negb (listIncludes validCharsets charsetSource) then
            Throw (paramError
              "Invalid charset-source. Use UTF-8 or ISO-8859-1")
          else if negb (listIncludes validCharsets charsetTarget) then
            Throw (paramError
              "Invalid charset-target. Use UTF-8 or ISO-8859-1")
          else
            let ecc := orDefault (QRCodeParams.ecc params) (lit "L") in
            if negb (listIncludes [lit "L"; lit "M"; lit "Q"; lit "H"] ecc)
            then Throw (paramError "Invalid ecc level. Use L, M, Q, or H")
            else
              color ← parseColor
                        (orDefault (QRCodeParams.color params) (lit "0-0-0"));
              bgcolor ← parseColor
                          (orDefault (QRCodeParams.bgcolor params)
                             (lit "255-255-255"));
              margin ← parseBounded (QRCodeParams.margin params) 1 50
                         "margin must be between 0 and 50";
              qzone ← parseBounded (QRCodeParams.qzone params) 0 100
                        "qzone must be between 0 and 100";
              Return {| data := data; size := size;
                        charsetSource := charsetSource;
                        charsetTarget := charsetTarget;
                        ecc := ecc; color := color; bgcolor := bgcolor;
                        margin := margin; qzone := qzone; format := format |}
  end.

End Params.

(* ================================================================== *)
(** * Requests, in the terms of the properties                         *)
(* ================================================================== *)

Module Requests.
Import Js Validators Params.

(** The value of the decimal digits [d] read after [acc]. *)
Fixpoint uintValue (d : Decimal.uint) (acc : Z) : Z :=
  match d with
  | Decimal.Nil => acc
  | Decimal.D0 d => uintValue d (acc * 10 + 0)
  | Decimal.D1 d => uintValue d (acc * 10 + 1)
  | Decimal.D2 d => uintValue d (acc * 10 + 2)
  | Decimal.D3 d => uintValue d (acc * 10 + 3)
  | Decimal.D4 d => uintValue d (acc * 10 + 4)
  | Decimal.D5 d => uintValue d (acc * 10 + 5)
  | Decimal.D6 d => uintValue d (acc * 10 + 6)
  | Decimal.D7 d => uintValue d (acc * 10 + 7)
  | Decimal.D8 d => uintValue d (acc * 10 + 8)
  | Decimal.D9 d => uintValue d (acc * 10 + 9)
  end.

Definition isDecimalDigit (c : N) : bool := ((48 <=? c) && (c <=? 57))%N.

(** The largest side [parseSize] lets through for a format. *)
Definition maxSize (format : jsstring) : Z :=
  if bool_decide (format = lit "svg") then 1000000 else 1000.

(** A configuration within the ranges the validator enforces. *)
Definition wellFormed (q : ParsedQRParams) : Prop :=
  1 ≤ length (data q) ≤ 900 ∧
  format q ∈ [lit "png"; lit "svg"] ∧
  width (size q) = height (size q) ∧
  10 ≤ width (size q) ≤ maxSize (format q) ∧
  charsetSource q ∈ [lit "UTF-8"; lit "ISO-8859-1"] ∧
  charsetTarget q ∈ [lit "UTF-8"; lit "ISO-8859-1"] ∧
  ecc q ∈ [lit "L"; lit "M"; lit "Q"; lit "H"] ∧
  Spec.validColor (color q) ∧
  Spec.validColor (bgcolor q) ∧
  0 ≤ margin q ≤ 50 ∧
  0 ≤ qzone q ≤ 100.

(** A size and a color as a client writes them. *)
Definition sizeText (w h : Z) : jsstring :=
  toString w ++ lit "x" ++ toString h.

Definition colorText (c : Color) : jsstring :=
  toString (r c) ++ lit "-" ++ toString (g c) ++ lit "-" ++ toString (b c).

(** The request that spells out every field of a configuration. *)
Definition unparse (q : ParsedQRParams) : QRCodeParams.t :=
  {| QRCodeParams.data := Some (data q);
     QRCodeParams.size :=
       Some (sizeText (width (size q)) (height (size q)));
     QRCodeParams.charset_source := Some (charsetSource q);
     QRCodeParams.charset_target := Some (charsetTarget q);
     QRCodeParams.ecc := Some (ecc q);
     QRCodeParams.color := Some (colorText (color q));
     QRCodeParams.bgcolor := Some (colorText (bgcolor q));
     QRCodeParams.margin := Some (toString (margin q));
     QRCodeParams.qzone := Some (toString (qzone q));
     QRCodeParams.format := Some (format q) |}.

(** A request that gives the data only, and what it is validated to. *)
Definition dataOnly (text : jsstring) : QRCodeParams.t :=
  QRCodeParams.mk (Some text) None None None None None None None None None.

Definition defaults (text : jsstring) : ParsedQRParams :=
  {| data := text;
     size := {| width := 200; height := 200 |};
     charsetSource := lit "UTF-8";
     charsetTarget := lit "UTF-8";
     ecc := lit "L";
     color := {| r := 0; g := 0; b := 0 |};
     bgcolor := {| r := 255; g := 255; b := 255 |};
     margin := 1;
     qzone := 0;
     format := lit "png" |}.

End Requests.

(* ================================================================== *)
(** * qr-generator.ts, continued: from a configuration to the bytes    *)
(* ================================================================== *)

Module Generate.
Import Js Validators QrGenerator.

(** [getMimeType]: the cases ['png'] and [default] share their result. *)
Definition getMimeType (format : jsstring) : jsstring :=
  if bool_decide (format = lit "svg") then lit "image/svg+xml"
  else lit "image/png".

Inductive ErrorCorrectionLevel := LevelL | LevelM | LevelQ | LevelH.

Definition getErrorCorrectionLevel (ecc : jsstring) : ErrorCorrectionLevel :=
  if bool_decide (ecc = lit "L") then LevelL
  else if bool_decide (ecc = lit "M") then LevelM
  else if bool_decide (ecc = lit "Q") then LevelQ
  else if bool_decide (ecc = lit "H") then LevelH
  else LevelL.

(** What [generateQRCode] hands to [qr.addData]: an array of numbers or a
    string. *)
Inductive QRData :=
| Bytes (bytes : list Z)
| Text (text : jsstring).

(** The two libraries, which are not part of the sources.  [qrcode level
    data] stands for [QR.default(0, level)], [addData(data)] and [make()]:
    the symbol, or [None] when the library throws.  [upngEncode] stands for
    [UPNG.encode([buffer], width, height, 0)]. *)
Record Libraries := mkLibraries {
  qrcode : ErrorCorrectionLevel → QRData → option QRCode;
  upngEncode : list Z → Z → Z → list Z
}.

(** Lines 53-67: the converted data, as bytes when the target is
    ISO-8859-1 ([charCodeAt(i) & 0xff]). *)
Definition qrData (params : ParsedQRParams) : QRData :=
  let convertedData :=
    convertCharset (data params) (charsetSource params)
      (charsetTarget params) in
  if bool_decide (charsetTarget params = lit "ISO-8859-1") then
    Bytes ((λ c, Z.land (Z.of_N c) 255) <$> convertedData)
  else Text convertedData.

(** The UTF-8 bytes of the code point [cp]. *)
Definition utf8Bytes (cp : Z) : list Z :=
  if cp <? 128 then [cp]
  else if cp <? 2048 then
    [Z.lor 192 (Z.shiftr cp 6); Z.lor 128 (Z.land cp 63)]
  else if cp <? 65536 then
    [Z.lor 224 (Z.shiftr cp 12); Z.lor 128 (Z.land (Z.shiftr cp 6) 63);
     Z.lor 128 (Z.land cp 63)]
  else
    [Z.lor 240 (Z.shiftr cp 18); Z.lor 128 (Z.land (Z.shiftr cp 12) 63);
     Z.lor 128 (Z.land (Z.shiftr cp 6) 63); Z.lor 128 (Z.land cp 63)].

Definition isHighSurrogate (c : N) : bool := ((55296 <=? c) && (c <=? 56319))%N.
Definition isLowSurrogate (c : N) : bool := ((56320 <=? c) && (c <=? 57343))%N.

(** [new TextEncoder().encode(s)]: a surrogate pair is one code point and a
    lone surrogate is replaced by U+FFFD. *)
Fixpoint utf8Encode (s : jsstring) : list Z :=
  match s with
  | [] => []
  | c :: rest =>
      if isHighSurrogate c then
        match rest with
        | d :: rest' =>
            if isLowSurrogate d then
              utf8Bytes (65536 + (Z.of_N c - 55296) * 1024
                           + (Z.of_N d - 56320))
                ++ utf8Encode rest'
            else utf8Bytes 65533 ++ utf8Encode rest
        | [] => utf8Bytes 65533
        end
      else if isLowSurrogate c then utf8Bytes 65533 ++ utf8Encode rest
      else utf8Bytes (Z.of_N c) ++ utf8Encode rest
  end.

(** [generateQRCode]: the bytes of the [ArrayBuffer], or [None] when the
    QR library throws.  ([None] is also what a renderer gives for a
    geometry that is no integer, which a validated configuration and a
    symbol with modules exclude.) *)
Definition generateQRCode (libs : Libraries) (params : ParsedQRParams)
  : option (list Z) :=
  qr ← qrcode libs (getErrorCorrectionLevel (ecc params)) (qrData params);
  if bool_decide (format params = lit "svg") then
    svg ← generateQRCodeSVG qr params;
    Some (utf8Encode svg)
  else
    png ← generatePNG qr params;
    Some (upngEncode libs (imageData png) (width (size params))
            (width (size params))).

End Generate.

(* ================================================================== *)
(** * index.ts, continued: the responses                               *)
(* ================================================================== *)

Module Worker.
Import Js Validators QrGenerator Index Params Generate.

(** ** [Math.imul], [^] and the FNV-1a loop of the ETag *)

(** [ToInt32] *)
Definition toInt32 (z : Z) : Z := (z + 2 ^ 31) `mod` 2 ^ 32 - 2 ^ 31.

(** [a ^ b] *)
Definition xor32 (a b : Z) : Z := Z.lxor (toInt32 a) (toInt32 b).

(** [Math.imul(a, b)] *)
Definition imul (a b : Z) : Z := toInt32 (toInt32 a * toInt32 b).

(** Lines 94-98. *)
Definition fnv1a (normStr : jsstring) : Z :=
  foldl (λ h c, imul (xor32 h (Z.of_N c)) 16777619) 2166136261 normStr.

(** ** [JSON.stringify] *)

(** Four hexadecimal digits, as in a [\uXXXX] escape. *)
Definition hex4 (c : N) : jsstring := padStart 4 48 (toString16 (Z.of_N c)).

(** The backslash. *)
Definition backslash : jsstring := [92%N].

Definition unicodeEscape (c : N) : jsstring := backslash ++ lit "u" ++ hex4 c.

(** The escape of one code unit that is not part of a surrogate pair. *)
Definition quoteUnit (c : N) : jsstring :=
  if (c =? 8)%N then backslash ++ lit "b"
  else if (c =? 9)%N then backslash ++ lit "t"
  else if (c =? 10)%N then backslash ++ lit "n"
  else if (c =? 12)%N then backslash ++ lit "f"
  else if (c =? 13)%N then backslash ++ lit "r"
  else if (c =? 34)%N then backslash ++ dquote
  else if (c =? 92)%N then backslash ++ backslash
  else if (c <? 32)%N || isHighSurrogate c || isLowSurrogate c
  then unicodeEscape c
  else [c].

Fixpoint quoteBody (s : jsstring) : jsstring :=
  match s with
  | [] => []
  | c :: rest =>
      if isHighSurrogate c then
        match rest with
        | d :: rest' =>
            if isLowSurrogate d then c :: d :: quoteBody rest'
            else quoteUnit c ++ quoteBody rest
        | [] => quoteUnit c
        end
      else quoteUnit c ++ quoteBody rest
  end.

(** [JSON.stringify(s)] for a string. *)
Definition quoteJSONString (s : jsstring) : jsstring :=
  dquote ++ quoteBody s ++ dquote.

(** [parts.join(sep)] *)
Fixpoint joinWith (sep : jsstring) (parts : list jsstring) : jsstring :=
  match parts with
  | [] => []
  | [part] => part
  | part :: rest => part ++ sep ++ joinWith sep rest
  end.

(** A member ["name":value] of an object. *)
Definition member (name : string) (value : jsstring) : jsstring :=
  dquote ++ lit name ++ dquote ++ lit ":" ++ value.

Definition object (members : list jsstring) : jsstring :=
  lit "{" ++ joinWith (lit ",") members ++ lit "}".

Definition colorJSON (c : Color) : jsstring :=
  object [member "r" (toString (r c)); member "g" (toString (g c));
          member "b" (toString (b c))].

(** Lines 81-93: [JSON.stringify(norm)]. *)
Definition normStr (parsed : ParsedQRParams) : jsstring :=
  object
    [member "data" (quoteJSONString (data parsed));
     member "size"
       (object [member "width" (toString (width (size parsed)));
                member "height" (toString (height (size parsed)))]);
     member "ecc" (quoteJSONString (ecc parsed));
     member "color" (colorJSON (color parsed));
     member "bgcolor" (colorJSON (bgcolor parsed));
     member "margin" (toString (margin parsed));
     member "qzone" (toString (qzone parsed));
     member "charsetSource" (quoteJSONString (charsetSource parsed));
     member "charsetTarget" (quoteJSONString (charsetTarget parsed));
     member "format" (quoteJSONString (format parsed))].

(** Line 99: the weak ETag. *)
Definition etagOf (parsed : ParsedQRParams) : jsstring :=
  lit "W/" ++ dquote ++ toString16 (fnv1a (normStr parsed)) ++ dquote.

(** ** Requests and responses *)

(** A request: what the merge reads, the path of its URL and its
    [If-None-Match] header. *)
Record HttpRequest := mkHttpRequest {
  request : Request;
  pathname : jsstring;
  ifNoneMatch : option jsstring
}.

(** A JSON value made of strings, for the document of [/info]. *)
#[local] Unset Elimination Schemes.
Inductive Json :=
| JStr (s : string)
| JObj (members : list (string * Json))
| JArr (items : list Json).
#[local] Set Elimination Schemes.

Inductive Body :=
| NoBody
| TextBody (text : jsstring)
| BytesBody (bytes : list Z).

Record Response := mkResponse {
  status : Z;
  headers : list (string * jsstring);
  body : Body
}.

(** [headers.set(name, value)] *)
Fixpoint headerSet (name : string) (value : jsstring)
    (hs : list (string * jsstring)) : list (string * jsstring) :=
  match hs with
  | [] => [(name, value)]
  | (n, v) :: hs' =>
      if String.eqb n name then (n, value) :: hs'
      else (n, v) :: headerSet name value hs'
  end.

(** [headers.get(name)], for a name written as the worker writes it. *)
Fixpoint headerGet (name : string) (hs : list (string * jsstring))
  : option jsstring :=
  match hs with
  | [] => None
  | (n, v) :: hs' => if String.eqb n name then Some v else headerGet name hs'
  end.

(** [params.name] for the mapping cast to [QRCodeParams]: its fields are
    read off the object, and none of their names is inherited. *)
Definition property (params : gmap (list N) (list N)) (name : string)
  : option jsstring :=
  match get params (lit name) with
  | VString s => Some s
  | VInherited | VUndefined => None
  end.

Definition asQRCodeParams (params : gmap (list N) (list N))
  : QRCodeParams.t :=
  {| QRCodeParams.data := property params "data";
     QRCodeParams.size := property params "size";
     QRCodeParams.charset_source := property params "charset-source";
     QRCodeParams.charset_target := property params "charset-target";
     QRCodeParams.ecc := property params "ecc";
     QRCodeParams.color := property params "color";
     QRCodeParams.bgcolor := property params "bgcolor";
     QRCodeParams.margin := property params "margin";
     QRCodeParams.qzone := property params "qzone";
     QRCodeParams.format := property params "format" |}.

(** The answer of the [catch] block to an error that is no
    [QRParamError]. *)
Definition internalError : Response :=
  {| status := 500;
     headers := [("Content-Type"%string, lit "text/plain");
                 ("Access-Control-Allow-Origin"%string, lit "*")];
     body := TextBody (lit "Internal Server Error") |}.

(** The answer of the [catch] block to a [QRParamError]. *)
Definition paramErrorResponse (e : QRParamError) : Response :=
  {| status := statusCode e;
     headers := [("Content-Type"%string, lit "text/plain");
                 ("Access-Control-Allow-Origin"%string, lit "*")];
     body := TextBody (lit (message e)) |}.

(** Lines 100-112. *)
Definition notModified (etag : jsstring) : Response :=
  {| status := 304;
     headers :=
       [("ETag"%string, etag);
        ("Access-Control-Allow-Origin"%string, lit "*");
        ("Access-Control-Allow-Methods"%string, lit "GET, POST, OPTIONS");
        ("Access-Control-Allow-Headers"%string, lit "Content-Type");
        ("Cache-Control"%string, lit "public, max-age=3600")];
     body := NoBody |}.

(** Lines 115-132; [responseBody] is an [ArrayBuffer], so of the two
    branches on its type the second is the one taken. *)
Definition rendered (mimeType etag : jsstring) (responseBody : list Z)
  : Response :=
  let headers :=
    [("Content-Type"%string, mimeType);
     ("Access-Control-Allow-Origin"%string, lit "*");
     ("Access-Control-Allow-Methods"%string, lit "GET, POST, OPTIONS");
     ("Access-Control-Allow-Headers"%string, lit "Content-Type");
     ("Cache-Control"%string, lit "public, max-age=3600")] in
  let headers :=
    if negb (is_empty etag) then headerSet "ETag" etag headers
    else headers in
  let headers :=
    headerSet "Content-Length"
      (toString (Z.of_nat (List.length responseBody))) headers in
  {| status := 200; headers := headers; body := BytesBody responseBody |}.

(** [handleQRCodeRequest]: a rejected body, a failing library and every
    other error that is no [QRParamError] end in the [catch] block. *)
Definition handleQRCodeRequest (libs : Libraries) (req : HttpRequest)
  : Response :=
  match mergeParams (request req) with
  | None => internalError
  | Some params =>
      match validateAndParseParams (asQRCodeParams params) with
      | Throw e => paramErrorResponse e
      | Return parsedParams =>
          match generateQRCode libs parsedParams with
          | None => internalError
          | Some responseBody =>
              let mimeType := getMimeType (format parsedParams) in
              let etag := etagOf parsedParams in
              match ifNoneMatch req with
              | Some v =>
                  if negb (is_empty v) && bool_decide (v = etag)
                  then notModified etag
                  else rendered mimeType etag responseBody
              | None => rendered mimeType etag responseBody
              end
          end
      end
  end.

Definition handleOptionsRequest : Response :=
  {| status := 204;
     headers :=
       [("Access-Control-Allow-Origin"%string, lit "*");
        ("Access-Control-Allow-Methods"%string, lit "GET, POST, OPTIONS");
        ("Access-Control-Allow-Headers"%string, lit "Content-Type")];
     body := NoBody |}.

(** ** The document of [/info] *)

Definition indentation (level : nat) : jsstring := replicate (2 * level) 32%N.

Definition lines (level : nat) (open close : string)
    (items : list jsstring) : jsstring :=
  match items with
  | [] => lit open ++ lit close
  | _ =>
      lit open ++ newline
        ++ joinWith (lit "," ++ newline)
             ((λ item, indentation (S level) ++ item) <$> items)
        ++ newline ++ indentation level ++ lit close
  end.

(** [JSON.stringify(value, null, 2)], at a nesting level. *)
Fixpoint stringify (level : nat) (value : Json) : jsstring :=
  match value with
  | JStr s => quoteJSONString (lit s)
  | JObj members =>
      lines level "{" "}"
        (List.map (λ kv,
           quoteJSONString (lit (fst kv)) ++ lit ": "
             ++ stringify (S level) (snd kv)) members)
  | JArr items =>
      lines level "[" "]" (List.map (stringify (S level)) items)
  end.

Definition info : Json :=
  JObj
    [("name", JStr "QR Code API");
     ("version", JStr "1.0.0");
     ("description",
      JStr "QR Code generation API (PNG default; SVG optional)");
     ("endpoints",
      JObj [("POST/GET /", JStr "Generate QR code with parameters")]);
     ("parameters",
      JObj
        [("data", JStr "Text to encode (mandatory)");
         ("size",
          JStr "Image size in format WIDTHxHEIGHT (optional, default: 200x200)");
         ("charset-source",
          JStr "Source charset: UTF-8 or ISO-8859-1 (optional, default: UTF-8)");
         ("charset-target",
          JStr "Target charset: UTF-8 or ISO-8859-1 (optional, default: UTF-8)");
         ("ecc",
          JStr "Error correction level: L, M, Q, H (optional, default: L)");
         ("color",
          JStr "Foreground color in RGB format (optional, default: 0-0-0)");
         ("bgcolor",
          JStr "Background color in RGB format (optional, default: 255-255-255)");
         ("margin", JStr "Pixel-based margin: 0-50 (optional, default: 1)");
         ("qzone",
          JStr "Module-based quiet zone: 0-100 (optional, default: 0)");
         ("format", JStr "Output format: png (default) or svg")]);
     ("examples",
      JArr
        [JStr "/?data=Hello%20World!&size=200x200";
         JStr "/?data=https://example.com&size=300x300&color=ff0000&bgcolor=ffffff&format=svg"])]%string.

Definition handleInfoRequest : Response :=
  {| status := 200;
     headers := [("Content-Type"%string, lit "application/json");
                 ("Access-Control-Allow-Origin"%string, lit "*")];
     body := TextBody (stringify 0 info) |}.

Definition notFound : Response :=
  {| status := 404;
     headers := [("Content-Type"%string, lit "text/plain");
                 ("Access-Control-Allow-Origin"%string, lit "*")];
     body := TextBody (lit "Not Found. Use / for QR creation or /info") |}.

(** [fetch] *)
Definition fetch (libs : Libraries) (req : HttpRequest) : Response :=
  if bool_decide (method (request req) = lit "OPTIONS") then
    handleOptionsRequest
  else if bool_decide (pathname req = lit "/info") then handleInfoRequest
  else if bool_decide (pathname req = lit "/")
          || bool_decide (pathname req = []) then
    handleQRCodeRequest libs req
  else notFound.

End Worker.

(* ================================================================== *)
(** * Reference points for the generator and the worker                *)
(* ================================================================== *)

Module Reference.
Import Js Validators QrGenerator Index Generate Worker.

(** The 32-bit FNV-1a hash of a sequence of code units, as an unsigned
    number: from the offset basis, exclusive-or with the unit, then times
    the FNV prime modulo [2 ^ 32]. *)
Definition fnv1a32 (s : jsstring) : Z :=
  foldl (λ h c, (Z.lxor h (Z.of_N c) * 16777619) `mod` 2 ^ 32) 2166136261 s.

(** The byte the QR library receives for the code unit [c] when the target
    charset is ISO-8859-1. *)
Definition latin1Byte (source : jsstring) (c : N) : Z :=
  if bool_decide (source = UTF8)
  then (if (c <=? 255)%N then Z.of_N c else 63)
  else Z.of_N c `mod` 256.

(** The same request with another [If-None-Match] header. *)
Definition withIfNoneMatch (v : option jsstring) (req : HttpRequest)
  : HttpRequest :=
  {| request := request req; pathname := pathname req; ifNoneMatch := v |}.

(** A QR library that gives the symbol [qr] for every input, and an
    encoder that returns the bitmap as it is. *)
Definition constantLibraries (qr : QRCode) : Libraries :=
  {| qrcode := λ _ _, Some qr; upngEncode := λ buffer _ _, buffer |}.

(** A [GET] request for the root path with the given query. *)
Definition getRequest (query : list (jsstring * jsstring)) : HttpRequest :=
  {| request :=
       {| searchParams := query; method := lit "GET"; contentType := None;
          formData := None; json := None |};
     pathname := lit "/";
     ifNoneMatch := None |}.

(** A 10 by 10 request, and the configuration it is validated to. *)
Definition tenPixelsRequest : HttpRequest :=
  getRequest [(lit "data", lit "hi"); (lit "size", lit "10x10")].

Definition tenPixels : ParsedQRParams :=
  mkParams (lit "hi") (mkSize 10 10) UTF8 UTF8 (lit "L")
    (mkColor 0 0 0) (mkColor 255 255 255) 1 0 (lit "png").

(** The values a list of entries gives for [key], in their order. *)
Definition valuesOf (key : jsstring) (entries : list (jsstring * jsstring))
  : list jsstring :=
  snd <$> filter (λ kv, kv.1 = key) entries.

End Reference.

(* ================================================================== *)
(** * Part 2: lemmas and theorems                                       *)
(* ================================================================== *)

Import Js Validators QrGenerator Index Render Merge Scenario.

(** ** The embedding at work *)

(** The scenario of the specification, and the canvas too small for the
    symbol: the module size stays 1 and the symbol overflows. *)
Example sample_geometry :
  pngGeometry checker sampleParams = Some sampleGeometry.
Proof. reflexivity. Qed.

Example tiny_geometry :
  pngGeometry checker tinyParams = Some (mkGeometry 21 1 29 8 1 29 0 10 5).
Proof. reflexivity. Qed.

(** Two dark modules on the diagonal of a 3 by 3 canvas; the third row and
    column are the rounding slack. *)
Example threePixels_bitmap :
  imageData <$> generatePNG twoByTwo threePixels =
    Some [  1;   2;   3; 255;  255; 255; 255; 255;  255; 255; 255; 255;
          255; 255; 255; 255;    1;   2;   3; 255;  255; 255; 255; 255;
          255; 255; 255; 255;  255; 255; 255; 255;  255; 255; 255; 255].
Proof. reflexivity. Qed.

Example threePixels_svg :
  generateQRCodeSVG twoByTwo threePixels =
    Some (svgOpen 3 ++ svgBackground 3 (lit "ffffff")
            ++ svgRect 0 0 1 (lit "010203") ++ svgRect 1 1 1 (lit "010203")
            ++ lit "</svg>").
Proof. reflexivity. Qed.

(** A euro sign is replaced, an e with acute accent is kept. *)
Example convertCharset_lossy :
  convertCharset [65; 8364; 233]%N UTF8 ISO88591 = [65; 63; 233]%N.
Proof. reflexivity. Qed.

(** ** Geometry *)

Lemma floorDiv_pos a b : 0 < b → floorDiv a b = Some (a / b).
Proof. intros Hb. unfold floorDiv. destruct (Z.eqb_spec b 0); [lia | done]. Qed.


Lemma pngGeometry_in_range qr params :
  Spec.documentedRanges qr params →
  pngGeometry qr params =
    Some (let mc := getModuleCount qr in
          let sz := width (size params) in
          let mp := margin params in
          let tm := mc + 2 * qzone params in
          let av := Z.max 0 (sz - 2 * mp) in
          let ms := Z.max 1 (av / tm) in
          QrGenerator.mkGeometry mc mp tm av ms (ms * tm)
            (Z.max 0 (av - ms * tm)) sz
            (mp + Z.max 0 (av - ms * tm) / 2 + qzone params * ms)).
Proof.
  intros (_ & Hmc & _ & Hm & Hq). unfold pngGeometry.
  rewrite floorDiv_pos by lia. cbn.
  by rewrite (Z.max_r 0 (margin params)) by lia.
Qed.

Lemma sample_ranges : Spec.documentedRanges checker sampleParams.
Proof. vm_compute. intuition congruence. Qed.

Lemma tiny_ranges : Spec.documentedRanges checker tinyParams.
Proof. vm_compute. intuition congruence. Qed.

(** C1.  Within the documented ranges (module count odd and at least 21,
    target size at least 1, margin in 0..50, quiet zone in 0..100) both
    renderers compute the geometry of the specification: [totalModules],
    [availablePx], [moduleSizePx], [contentPx], [leftoverPx] and [offsetPx]
    are the values of [Spec.computeGeometry]; the module size is at least
    1; and for 21 modules, size 200, margin 1 and no quiet zone the module
    size is 9 and the offset 5. *)
Theorem geometry_as_specified qr params :
  Spec.documentedRanges qr params →
  ∃ geo,
    pngGeometry qr params = Some geo ∧
    svgGeometry qr params = Some geo ∧
    Spec.agrees geo
      (Spec.computeGeometry (getModuleCount qr) (width (size params))
         (margin params) (qzone params)) ∧
    1 ≤ moduleSize geo ∧
    (getModuleCount qr = 21 → width (size params) = 200 →
     margin params = 1 → qzone params = 0 →
     moduleSize geo = 9 ∧ offset geo = 5).
Proof.
  intros Hr. pose proof (pngGeometry_in_range _ _ Hr) as Hp.
  eexists. split; [exact Hp|]. split; [exact Hp|].
  split; [by repeat split|]. cbn.
  split; [lia|]. intros -> -> -> ->. by vm_compute.
Qed.

Lemma geometry_as_specified_witness :
  Spec.documentedRanges checker sampleParams ∧
  ∃ geo, pngGeometry checker sampleParams = Some geo ∧
         moduleSize geo = 9 ∧ offset geo = 5.
Proof.
  pose proof sample_ranges as Hr. split; [exact Hr|].
  destruct (geometry_as_specified checker sampleParams Hr)
    as (geo & Hp & _ & _ & _ & Hex).
  exists geo. split; [exact Hp|]. by apply Hex.
Defined.

(** ** Charset conversion and colors *)

Lemma convertCharset_utf8_latin1 text :
  convertCharset text UTF8 ISO88591 = replaceNonLatin1 text.
Proof. reflexivity. Qed.

Lemma convertCharset_latin1_utf8 text :
  convertCharset text ISO88591 UTF8 = text.
Proof. reflexivity. Qed.

Lemma replaceNonLatin1_isLatin1 text : Spec.isLatin1 (replaceNonLatin1 text).
Proof.
  unfold Spec.isLatin1, replaceNonLatin1. apply Forall_fmap, list.Forall_forall.
  intros c _. simpl. destruct (N.leb_spec c 255); lia.
Qed.

Lemma replaceNonLatin1_id text :
  Spec.isLatin1 text → replaceNonLatin1 text = text.
Proof.
  unfold Spec.isLatin1, replaceNonLatin1. induction 1 as [|c s Hc _ IH]; [done|].
  cbn. rewrite IH. destruct (N.leb_spec c 255); [done | lia].
Qed.

Lemma isAscii_isLatin1 text : Spec.isAscii text → Spec.isLatin1 text.
Proof. unfold Spec.isAscii, Spec.isLatin1. apply Forall_impl. lia. Qed.

(** C7.  Converting from UTF-8 to ISO-8859-1 twice is converting once; a
    string of Latin-1 code units converts to itself; and a pure ASCII
    string comes back unchanged from UTF-8 to ISO-8859-1 and back. *)
Theorem convertCharset_idempotent_roundtrip (s : jsstring) :
  convertCharset (convertCharset s UTF8 ISO88591) UTF8 ISO88591
    = convertCharset s UTF8 ISO88591 ∧
  (Spec.isLatin1 s → convertCharset s UTF8 ISO88591 = s) ∧
  (Spec.isAscii s →
   convertCharset (convertCharset s UTF8 ISO88591) ISO88591 UTF8 = s).
Proof.
  rewrite !convertCharset_utf8_latin1, convertCharset_latin1_utf8.
  split; [|split].
  - apply replaceNonLatin1_id, replaceNonLatin1_isLatin1.
  - apply replaceNonLatin1_id.
  - intros Ha. by apply replaceNonLatin1_id, isAscii_isLatin1.
Qed.

Lemma convertCharset_idempotent_roundtrip_witness :
  Spec.isAscii (lit "QR code") ∧
  convertCharset (convertCharset (lit "QR code") UTF8 ISO88591) ISO88591 UTF8
    = lit "QR code".
Proof.
  assert (Ha : Spec.isAscii (lit "QR code"))
    by (unfold Spec.isAscii; repeat constructor).
  split; [exact Ha|].
  exact (proj2 (proj2 (convertCharset_idempotent_roundtrip (lit "QR code"))) Ha).
Defined.

(** The two scenarios of the specification. *)
Example parseColor_short_hex :
  parseColor (lit "f00") = Return (mkColor 255 0 0).
Proof. reflexivity. Qed.

Example parseColor_decimal :
  parseColor (lit "255-0-0") = Return (mkColor 255 0 0).
Proof. reflexivity. Qed.

(** Inputs the parser turns down, each with the message of its check. *)
Example parseColor_rejects :
  parseColor (lit "zz0000") = Throw (paramError "Invalid hex color format") ∧
  parseColor (lit "256-0-0")
    = Throw (paramError "RGB values must be between 0 and 255") ∧
  parseColor (lit "1-2")
    = Throw (paramError "Invalid color format. Use RGB format like 255-0-0").
Proof. repeat split; reflexivity. Qed.

Lemma includes_unit_false (d : N) (s : jsstring) :
  Forall (λ c, c ≠ d) s → includes [d] s = false.
Proof.
  induction 1 as [|c s Hc _ IH]; [done|].
  cbn [includes startsWith]. rewrite IH.
  destruct (N.eqb_spec d c); [congruence | done].
Qed.

Lemma includes_unit_app (d : N) (s rest : jsstring) :
  includes [d] (s ++ d :: rest) = true.
Proof.
  induction s as [|c s IH]; cbn [includes startsWith app].
  - by rewrite N.eqb_refl.
  - rewrite IH. apply orb_true_r.
Qed.

Lemma split_no_separator sep (s : jsstring) :
  Forall (λ c, c ≠ sep) s → split sep s = [s].
Proof.
  induction 1 as [|c s Hc _ IH]; [done|]. cbn [split].
  rewrite IH. by destruct (N.eqb_spec c sep).
Qed.

Lemma split_app sep (s rest : jsstring) :
  Forall (λ c, c ≠ sep) s →
  split sep (s ++ sep :: rest) = s :: split sep rest.
Proof.
  induction 1 as [|c s Hc _ IH]; cbn [split app].
  - by rewrite N.eqb_refl.
  - rewrite IH. by destruct (N.eqb_spec c sep).
Qed.

Lemma isHexDigit_not_dash c : isHexDigit c = true → c ≠ 45%N.
Proof. by intros H ->. Qed.

Lemma stripHash_hex c s : isHexDigit c = true → stripHash (c :: s) = c :: s.
Proof.
  intros H. unfold stripHash.
  destruct c as [|p]; [done|].
  do 6 (destruct p as [p|p|]; try done).
Qed.

Lemma isHexDigit_enum c : isHexDigit c = true → c ∈ hexDigits.
Proof.
  unfold isHexDigit, digitValue. intros H.
  assert (Hc : (48 ≤ c ≤ 57 ∨ 97 ≤ c ≤ 102 ∨ 65 ≤ c ≤ 70)%N).
  { destruct (N.leb_spec 48 c), (N.leb_spec c 57); cbn [andb] in H; [lia|..];
      (destruct (N.leb_spec 97 c), (N.leb_spec c 122); cbn [andb] in H;
         [apply Z.ltb_lt in H; lia|..]);
      (destruct (N.leb_spec 65 c), (N.leb_spec c 90); cbn [andb] in H;
         [apply Z.ltb_lt in H; lia|..]); done. }
  assert (Hd : (c = 48 ∨ c = 49 ∨ c = 50 ∨ c = 51 ∨ c = 52 ∨ c = 53 ∨
                c = 54 ∨ c = 55 ∨ c = 56 ∨ c = 57 ∨
                c = 97 ∨ c = 98 ∨ c = 99 ∨ c = 100 ∨ c = 101 ∨ c = 102 ∨
                c = 65 ∨ c = 66 ∨ c = 67 ∨ c = 68 ∨ c = 69 ∨ c = 70)%N)
    by lia.
  clear -Hd. unfold hexDigits. cbn.
  repeat (destruct Hd as [->|Hd]; [set_solver|]). subst. set_solver.
Qed.

Lemma hexPair_ok_all :
  forallb (λ a, forallb (hexPair_ok a) hexDigits) hexDigits = true.
Proof. vm_compute. reflexivity. Qed.

Lemma parseInt_hexPair a b :
  isHexDigit a = true → isHexDigit b = true →
  parseInt [a; b] 16 = Some (16 * hexValue a + hexValue b).
Proof.
  intros Ha%isHexDigit_enum Hb%isHexDigit_enum.
  pose proof hexPair_ok_all as H. rewrite forallb_forall in H.
  specialize (H a (proj1 (list_elem_of_In _ _) Ha)).
  rewrite forallb_forall in H.
  specialize (H b (proj1 (list_elem_of_In _ _) Hb)).
  by apply bool_decide_eq_true in H.
Qed.

(** The documented shapes parse as documented: six digits, with or without
    the hash sign; three digits, each doubled; a decimal triple. *)
Lemma parseColor_hex_long a1 a2 b1 b2 c1 c2 :
  Forall (λ c, isHexDigit c = true) [a1; a2; b1; b2; c1; c2] →
  parseColor [a1; a2; b1; b2; c1; c2]
    = Return (mkColor (16 * hexValue a1 + hexValue a2)
                (16 * hexValue b1 + hexValue b2)
                (16 * hexValue c1 + hexValue c2)).
Proof.
  intros Hs.
  assert (Hd : Forall (λ c, c ≠ 45%N) [a1; a2; b1; b2; c1; c2])
    by (eapply list.Forall_impl; [exact Hs|]; apply isHexDigit_not_dash).
  repeat (apply list.Forall_cons in Hs as [? Hs]).
  unfold parseColor. cbn [is_empty]. change (lit "-") with [45%N].
  rewrite (includes_unit_false 45) by done.
  rewrite stripHash_hex by done.
  cbn [Js.length List.length Z.of_nat Z.eqb Pos.of_succ_nat Pos.succ Pos.eqb
       substr drop take].
  by rewrite !parseInt_hexPair.
Qed.

Lemma parseColor_hex_short a b c :
  Forall (λ c, isHexDigit c = true) [a; b; c] →
  parseColor [a; b; c]
    = Return (mkColor (17 * hexValue a) (17 * hexValue b) (17 * hexValue c)).
Proof.
  intros Hs.
  assert (Hd : Forall (λ c, c ≠ 45%N) [a; b; c])
    by (eapply list.Forall_impl; [exact Hs|]; apply isHexDigit_not_dash).
  repeat (apply list.Forall_cons in Hs as [? Hs]).
  unfold parseColor. cbn [is_empty]. change (lit "-") with [45%N].
  rewrite (includes_unit_false 45) by done.
  rewrite stripHash_hex by done.
  cbn [Js.length List.length Z.of_nat Z.eqb Pos.of_succ_nat Pos.succ Pos.eqb
       charAt substr drop take app].
  rewrite !parseInt_hexPair by done. do 2 f_equal; lia.
Qed.

Lemma parseColor_hash (s : jsstring) :
  Forall (λ c, isHexDigit c = true) s → s ≠ [] →
  parseColor (35%N :: s) = parseColor s.
Proof.
  intros Hs Hne. destruct Hs as [|c s Hc Hs]; [done|].
  unfold parseColor. cbn [is_empty].
  assert (Hd : Forall (λ c, c ≠ 45%N) (c :: s)).
  { constructor; [by apply isHexDigit_not_dash|].
    eapply list.Forall_impl; [exact Hs|]. apply isHexDigit_not_dash. }
  change (lit "-") with [45%N].
  rewrite (includes_unit_false 45 (35%N :: c :: s)) by (by constructor).
  rewrite (includes_unit_false 45 (c :: s)) by done.
  by rewrite (stripHash_hex c s).
Qed.

Lemma decimal_ok_all : forallb decimal_ok (seqZ 0 256) = true.
Proof. vm_compute. reflexivity. Qed.

Lemma toString_byte n :
  0 ≤ n ≤ 255 →
  parsePart (toString n) = Return n ∧
  Forall (λ c, c ≠ 45%N) (toString n) ∧
  toString n ≠ [].
Proof.
  intros Hn. pose proof decimal_ok_all as H. rewrite forallb_forall in H.
  specialize (H n). unfold decimal_ok in H.
  assert (Hin : In n (seqZ 0 256)) by (apply list_elem_of_In, elem_of_seqZ; lia).
  apply H in Hin. apply andb_prop in Hin as [Hin H3].
  apply andb_prop in Hin as [H1 H2]. repeat split.
  - destruct (parsePart (toString n)) as [m|]; [|done].
    apply Z.eqb_eq in H1. by subst.
  - rewrite forallb_forall in H2. apply list.Forall_forall. intros c Hc.
    apply list_elem_of_In, H2 in Hc. by destruct (N.eqb_spec c 45).
  - by destruct (toString n).
Qed.

Lemma parseColor_decimal_triple r g b :
  Spec.validColor (mkColor r g b) →
  parseColor (toString r ++ lit "-" ++ toString g ++ lit "-" ++ toString b)
    = Return (mkColor r g b).
Proof.
  intros (Hr & Hg & Hb). cbn in Hr, Hg, Hb.
  destruct (toString_byte r Hr) as (Pr & Dr & Nr).
  destruct (toString_byte g Hg) as (Pg & Dg & _).
  destruct (toString_byte b Hb) as (Pb & Db & _).
  unfold parseColor. change (lit "-") with [45%N]. cbn [app].
  rewrite includes_unit_app.
  rewrite !split_app, split_no_separator by done.
  destruct (toString r ++ _) eqn:E; [by destruct (toString r)|].
  cbn [is_empty]. by rewrite Pr, Pg, Pb.
Qed.

(** C6.  [parseColor] does not raise a parameter error on every malformed
    input: [parseInt] reads the longest numeric prefix of its argument, so
    the malformed hex string [fz0000] is accepted as the color (15, 0, 0)
    and the malformed triple [12px-0-0] as (12, 0, 0), where the claim asks
    for the errors the parser raises on [zz0000]. *)
Theorem parseColor_accepts_malformed :
  parseColor (lit "fz0000") = Return (mkColor 15 0 0) ∧
  parseColor (lit "12px-0-0") = Return (mkColor 12 0 0).
Proof. split; reflexivity. Qed.

Lemma toHex_ok_all : forallb toHex_ok (seqZ 0 256) = true.
Proof. vm_compute. reflexivity. Qed.

Lemma toHex_byte n :
  0 ≤ n ≤ 255 →
  ∃ a b, toHex n = [a; b] ∧ isHexDigit a = true ∧ isHexDigit b = true ∧
         parseInt [a; b] 16 = Some n.
Proof.
  intros Hn. pose proof toHex_ok_all as H.
  rewrite forallb_forall in H. specialize (H n).
  assert (Hin : In n (seqZ 0 256)).
  { apply list_elem_of_In, elem_of_seqZ. lia. }
  specialize (H Hin). unfold toHex_ok in H.
  destruct (toHex n) as [|a [|b [|]]]; try done.
  apply andb_prop in H as [H H3]. apply andb_prop in H as [H1 H2].
  apply bool_decide_eq_true in H3. by exists a, b.
Qed.

(** C10.  For a color whose components are integers in 0..255,
    [colorToHex] is a string of six hexadecimal digits and [parseColor]
    reads it back as the same color. *)
Theorem colorToHex_parseColor (c : Color) :
  Spec.validColor c →
  List.length (colorToHex c) = 6%nat ∧
  Forall (λ u, isHexDigit u = true) (colorToHex c) ∧
  parseColor (colorToHex c) = Return c.
Proof.
  intros (Hr & Hg & Hb). destruct c as [r g b]. cbn in *.
  destruct (toHex_byte r Hr) as (r1 & r2 & Er & Hr1 & Hr2 & Pr).
  destruct (toHex_byte g Hg) as (g1 & g2 & Eg & Hg1 & Hg2 & Pg).
  destruct (toHex_byte b Hb) as (b1 & b2 & Eb & Hb1 & Hb2 & Pb).
  unfold colorToHex. cbn [Validators.r Validators.g Validators.b].
  rewrite Er, Eg, Eb. cbn [app].
  assert (Hs : Forall (λ u, isHexDigit u = true) [r1; r2; g1; g2; b1; b2])
    by (by repeat constructor).
  split; [done|]. split; [done|].
  rewrite parseColor_hex_long by done.
  rewrite parseInt_hexPair in Pr, Pg, Pb by done.
  by injection Pr as ->; injection Pg as ->; injection Pb as ->.
Qed.

Lemma colorToHex_parseColor_witness :
  Spec.validColor (mkColor 255 0 10) ∧
  parseColor (colorToHex (mkColor 255 0 10)) = Return (mkColor 255 0 10).
Proof.
  assert (Hc : Spec.validColor (mkColor 255 0 10))
    by (unfold Spec.validColor; simpl; lia).
  split; [exact Hc|].
  exact (proj2 (proj2 (colorToHex_parseColor (mkColor 255 0 10) Hc))).
Defined.

(** ** The parameter merge *)

Lemma set_lookup_ne (params : gmap (list N) (list N)) k v key :
  k ≠ key → set params k v !! key = params !! key.
Proof.
  intros Hne. unfold set. case_bool_decide; [done|].
  by rewrite lookup_insert_ne.
Qed.

Lemma set_lookup_eq (params : gmap (list N) (list N)) key v :
  set params key v !! key = params !! key ∨ set params key v !! key = Some v.
Proof.
  unfold set. case_bool_decide; [by left|]. right. apply lookup_insert_eq.
Qed.

Lemma truthy_get_Some (params : gmap (list N) (list N)) key v :
  params !! key = Some v → v ≠ [] → truthy (get params key) = true.
Proof. intros H Hv. unfold get. rewrite H. by destruct v. Qed.

Lemma falsy_get (params : gmap (list N) (list N)) key :
  truthy (get params key) = false →
  params !! key = None ∨ params !! key = Some [].
Proof.
  unfold get. destruct (params !! key) as [[|c v]|]; [by right|done|by left].
Qed.

Lemma mergeForm_cons (kv : jsstring * jsstring)
    (entries : list (jsstring * jsstring))
    (params : gmap (list N) (list N)) :
  mergeForm (kv :: entries) params =
  mergeForm entries
    (if negb (truthy (get params kv.1)) then set params kv.1 kv.2 else params).
Proof. reflexivity. Qed.

Lemma mergeForm_keeps (entries : list (jsstring * jsstring))
    (params : gmap (list N) (list N)) key v :
  params !! key = Some v → v ≠ [] → mergeForm entries params !! key = Some v.
Proof.
  revert params.
  induction entries as [|[k v0] entries IH]; intros params H Hv; [done|].
  rewrite mergeForm_cons. apply IH; [|done]. cbn [fst snd].
  destruct (decide (k = key)) as [->|Hne].
  - by rewrite (truthy_get_Some _ _ _ H Hv).
  - destruct (negb _); [by rewrite set_lookup_ne | done].
Qed.

Lemma mergeForm_changes (entries : list (jsstring * jsstring))
    (params : gmap (list N) (list N)) key :
  mergeForm entries params !! key ≠ params !! key →
  (params !! key = None ∨ params !! key = Some []) ∧
  ∃ v, mergeForm entries params !! key = Some v ∧ (key, v) ∈ entries.
Proof.
  revert params.
  induction entries as [|[k v0] entries IH]; intros params H; [done|].
  rewrite mergeForm_cons in *. cbn [fst snd] in *.
  set (params' := if negb (truthy (get params k)) then set params k v0
                  else params) in *.
  assert (Hstep : params' !! key = params !! key ∨
            (k = key ∧ params' !! key = Some v0 ∧
             (params !! key = None ∨ params !! key = Some []))).
  { subst params'.
    destruct (truthy (get params k)) eqn:Ht; cbn [negb]; [by left|].
    destruct (decide (k = key)) as [->|Hne].
    - destruct (set_lookup_eq params key v0) as [E|E]; [by left|].
      right. split; [done|]. split; [done|]. by apply falsy_get.
    - left. by apply set_lookup_ne. }
  destruct (decide (mergeForm entries params' !! key = params' !! key))
    as [E|Hch].
  - destruct Hstep as [E'|(-> & E' & Hf)]; [congruence|].
    split; [done|]. exists v0. split; [congruence|]. apply list_elem_of_here.
  - destruct (IH params' Hch) as (Hf & v & Hv & Hin).
    split.
    + destruct Hstep as [E'|(_ & _ & Hf')]; [by rewrite <- E' | done].
    + exists v. split; [done|]. by apply list_elem_of_further.
Qed.

Lemma mergeJson_as_form (entries : list (jsstring * JsonValue))
    (params : gmap (list N) (list N)) :
  mergeJson entries params = mergeForm (omap stringEntry entries) params.
Proof.
  revert params.
  induction entries as [|[k [s|]] entries IH]; intros params; [done| |].
  - cbn [omap list_omap stringEntry snd fst]. rewrite mergeForm_cons. apply IH.
  - cbn [omap list_omap stringEntry snd fst]. apply IH.
Qed.

Lemma elem_of_stringEntries (entries : list (jsstring * JsonValue)) key v :
  (key, v) ∈ omap stringEntry entries → (key, JString v) ∈ entries.
Proof.
  rewrite list_elem_of_omap. intros ([k [s|]] & Hin & E); [|done].
  cbn in E. by injection E as -> ->.
Qed.

(** C8, amended.  In the merged mapping every key to which the GET
    parameters give a non-empty value keeps that value; and a key whose
    merged value differs from its GET value is a key the GET parameters do
    not provide, or provide empty, and its merged value is a string the
    POST body carries under that key. *)
Theorem get_precedence_nonempty request merged :
  mergeParams request = Some merged →
  (∀ key v, getMapping request !! key = Some v → v ≠ [] →
            merged !! key = Some v) ∧
  (∀ key, merged !! key ≠ getMapping request !! key →
          (getMapping request !! key = None ∨
           getMapping request !! key = Some []) ∧
          ∃ v, merged !! key = Some v ∧ postValue request key v).
Proof.
  unfold mergeParams. fold (getMapping request). intros Hm.
  case_bool_decide; [|injection Hm as <-; split; [done|by intros key []]].
  destruct (contentType request) as [ct|];
    [|injection Hm as <-; split; [done|by intros key []]].
  destruct (includes _ ct).
  { destruct (formData request) as [entries|] eqn:Hf; [|done].
    injection Hm as <-. split.
    - intros key v. apply mergeForm_keeps.
    - intros key Hch.
      destruct (mergeForm_changes _ _ _ Hch) as (Hg & v & Hv & Hin).
      split; [done|]. exists v. split; [done|]. left. by exists entries. }
  destruct (includes _ ct);
    [|injection Hm as <-; split; [done|by intros key []]].
  destruct (json request) as [entries|] eqn:Hj; [|done].
  injection Hm as <-. rewrite mergeJson_as_form. split.
  - intros key v. apply mergeForm_keeps.
  - intros key Hch.
    destruct (mergeForm_changes _ _ _ Hch) as (Hg & v & Hv & Hin).
    split; [done|]. exists v. split; [done|]. right. exists entries.
    split; [done|]. by apply elem_of_stringEntries.
Qed.

Lemma get_precedence_nonempty_witness :
  ∃ merged, mergeParams colorRequest = Some merged ∧
    merged !! lit "color" = Some (lit "00f").
Proof.
  eexists. split; [reflexivity|].
  refine (proj1 (get_precedence_nonempty colorRequest _ eq_refl)
            (lit "color") (lit "00f") _ _).
  - vm_compute. reflexivity.
  - discriminate.
Defined.

(** C8 as stated fails: the query [?color=] puts [color] in the GET
    mapping with an empty value, and the form value [ff0000] replaces it. *)
Lemma get_precedence_fails_on_empty_value :
  ¬ GetPrecedence emptyColorRequest.
Proof.
  intros H.
  specialize (H _ (lit "color") [] eq_refl).
  vm_compute in H. specialize (H eq_refl). discriminate.
Qed.

(** ** The SVG document *)

Lemma foldl_emit {A B} (f : B → list A) (l : list B) (s : list A) :
  foldl (λ acc i, acc ++ f i) s l = s ++ (l ≫= f).
Proof.
  revert s. induction l as [|x l IH]; intros s; cbn [foldl].
  - by rewrite app_nil_r.
  - by rewrite IH, bind_cons, app_assoc.
Qed.

Lemma for_upto_ext {S} n (body body' : Z → S → S) s :
  (∀ i acc, 0 ≤ i < n → body i acc = body' i acc) →
  for_upto n body s = for_upto n body' s.
Proof.
  intros H. unfold for_upto.
  assert (Hin : ∀ i, i ∈ seqZ 0 n → 0 ≤ i < n)
    by (intros i; rewrite elem_of_seqZ; lia).
  revert s Hin. induction (seqZ 0 n) as [|x l IH]; intros s Hin; [done|].
  cbn [foldl]. rewrite H by (apply Hin; left). apply IH.
  intros i Hi. apply Hin. by right.
Qed.

Lemma for_upto_emit {A} n (body : Z → list A → list A) (f : Z → list A) s :
  (∀ i acc, body i acc = acc ++ f i) →
  for_upto n body s = s ++ (seqZ 0 n ≫= f).
Proof.
  intros H.
  rewrite (for_upto_ext n body (λ i acc, acc ++ f i)) by (intros; apply H).
  apply foldl_emit.
Qed.

Lemma svgModule_emit qr geo dark row col svg :
  svgModule qr geo dark row col svg =
  svg ++ (if isDark qr row col then moduleRect geo dark (row, col) else []).
Proof.
  unfold svgModule, moduleRect. destruct (isDark qr row col); [done|].
  by rewrite app_nil_r.
Qed.

Lemma bind_filter_fmap {A B C} (P : B → Prop) `{!∀ x, Decision (P x)}
    (g : A → B) (f : B → list C) (l : list A) :
  filter P (g <$> l) ≫= f
  = l ≫= (λ x, if decide (P (g x)) then f (g x) else []).
Proof.
  induction l as [|x l IH]; [done|].
  rewrite fmap_cons, filter_cons, bind_cons.
  destruct (decide (P (g x))); [by rewrite bind_cons, IH | by rewrite IH].
Qed.

Lemma filter_grid_bind {C} (P : Z * Z → Prop) `{!∀ x, Decision (P x)}
    (f : Z * Z → list C) (rows cols : list Z) :
  filter P (rows ≫= λ row, pair row <$> cols) ≫= f =
  rows ≫= (λ row, cols ≫= (λ col,
    if decide (P (row, col)) then f (row, col) else [])).
Proof.
  induction rows as [|row rows IH]; [done|].
  by rewrite !bind_cons, list.filter_app, bind_app, IH, bind_filter_fmap.
Qed.

Lemma bind_ext_in {A B} (f g : A → list B) (l : list A) :
  (∀ x, x ∈ l → f x = g x) → l ≫= f = l ≫= g.
Proof.
  induction l as [|x l IH]; intros H; [done|].
  rewrite !bind_cons, H, IH; [done| |left].
  intros y Hy. apply H. by right.
Qed.

Lemma darkModules_bind {C} qr (f : Z * Z → list C) :
  darkModules qr ≫= f =
  seqZ 0 (getModuleCount qr) ≫= (λ row,
    seqZ 0 (getModuleCount qr) ≫= (λ col,
      if isDark qr row col then f (row, col) else [])).
Proof.
  unfold darkModules, scanOrder. rewrite filter_grid_bind.
  apply bind_ext_in. intros row _. apply bind_ext_in. intros col _.
  cbn [fst snd]. destruct (isDark qr row col); by case_decide.
Qed.

Lemma elem_of_darkModules qr row col :
  (row, col) ∈ darkModules qr ↔
  0 ≤ row < getModuleCount qr ∧ 0 ≤ col < getModuleCount qr ∧
  isDark qr row col = true.
Proof.
  unfold darkModules, scanOrder.
  rewrite list_elem_of_filter, list_elem_of_bind. cbn [fst snd]. split.
  - intros (Hd & r & Hin & Hr). apply elem_of_seqZ in Hr.
    apply list_elem_of_fmap in Hin as (c & [= -> ->] & Hc).
    apply elem_of_seqZ in Hc. split; [lia|]. split; [lia|].
    by apply Is_true_true.
  - intros (Hr & Hc & Hd). split; [by apply Is_true_true|].
    exists row. split; [|apply elem_of_seqZ; lia].
    apply list_elem_of_fmap. exists col. split; [done|]. apply elem_of_seqZ; lia.
Qed.

Lemma seqZ_sorted m n : StronglySorted Z.lt (seqZ m n).
Proof.
  destruct (decide (0 ≤ n)) as [Hn|Hn]; [|rewrite seqZ_nil by lia; constructor].
  rewrite <- (Z2Nat.id n Hn). generalize (Z.to_nat n) as k. clear.
  intros k. revert m. induction k as [|k IH]; intros m; [constructor|].
  rewrite seqZ_cons by lia. constructor.
  - replace (Z.pred (Z.of_nat (S k))) with (Z.of_nat k) by lia. apply IH.
  - apply Forall_seqZ. lia.
Qed.

Lemma grid_sorted (rows cols : list Z) :
  StronglySorted Z.lt rows → StronglySorted Z.lt cols →
  StronglySorted scanBefore (rows ≫= λ row, pair row <$> cols).
Proof.
  intros Hr Hc. induction Hr as [|row rows Hr IH Hlt]; [constructor|].
  rewrite bind_cons. apply StronglySorted_app_2; [| |done].
  - intros [r1 c1] [r2 c2] H1 H2.
    apply list_elem_of_fmap in H1 as (c & [= -> ->] & _).
    apply list_elem_of_bind in H2 as (r & H2 & Hin).
    apply list_elem_of_fmap in H2 as (c' & [= -> ->] & _).
    left. cbn. rewrite list.Forall_forall in Hlt. by apply Hlt.
  - apply (StronglySorted_fmap _ Z.lt); [|done].
    intros c1 c2 Hlt'. right. by cbn.
Qed.

Lemma StronglySorted_filter {A} (R : relation A) (P : A → Prop)
    `{!∀ x, Decision (P x)} (l : list A) :
  StronglySorted R l → StronglySorted R (filter P l).
Proof.
  induction 1 as [|x l Hs IH Hx]; [constructor|].
  rewrite filter_cons. case_decide; [|done].
  constructor; [done|]. rewrite list.Forall_forall in *.
  intros y Hy. apply list_elem_of_filter in Hy as [_ Hy]. by apply Hx.
Qed.

Lemma darkModules_sorted qr : StronglySorted scanBefore (darkModules qr).
Proof.
  apply StronglySorted_filter, grid_sorted; apply seqZ_sorted.
Qed.

Lemma scan_sorted_NoDup (l : list (Z * Z)) :
  StronglySorted scanBefore l → NoDup l.
Proof.
  induction 1 as [|a l Hs IH Ha]; constructor; [|done].
  intros Hin. rewrite list.Forall_forall in Ha.
  specialize (Ha a Hin). unfold scanBefore in Ha. lia.
Qed.

Lemma generateQRCodeSVG_document qr params geo :
  svgGeometry qr params = Some geo →
  generateQRCodeSVG qr params =
    Some (svgDocument geo (colorToHex (bgcolor params))
            (colorToHex (color params)) (darkModules qr)).
Proof.
  intros Hg. unfold generateQRCodeSVG. rewrite Hg. cbn [mbind option_bind].
  assert (Hmc : moduleCount geo = getModuleCount qr).
  { unfold svgGeometry in Hg. destruct (floorDiv _ _); [|done].
    cbn in Hg. by injection Hg as <-. }
  f_equal. unfold svgDocument, svgHeader.
  rewrite darkModules_bind, Hmc.
  rewrite (for_upto_emit _ _ (λ row, seqZ 0 (getModuleCount qr) ≫= λ col,
     if isDark qr row col
     then moduleRect geo (colorToHex (color params)) (row, col) else [])).
  - by rewrite <- !app_assoc.
  - intros row acc. apply for_upto_emit. intros col acc'. apply svgModule_emit.
Qed.

(** The text of the three templates of [generateQRCodeSVG], character by
    character. *)
Lemma svgOpen_text actualWidth :
  svgOpen actualWidth =
    lit "<?xml version=" ++ dquote ++ lit "1.0" ++ dquote
      ++ lit " encoding=" ++ dquote ++ lit "UTF-8" ++ dquote ++ lit "?>"
      ++ newline
      ++ lit "<svg xmlns=" ++ dquote ++ lit "http://www.w3.org/2000/svg"
      ++ dquote
      ++ lit " width=" ++ dquote ++ toString actualWidth ++ dquote
      ++ lit " height=" ++ dquote ++ toString actualWidth ++ dquote
      ++ lit " viewBox=" ++ dquote ++ lit "0 0 " ++ toString actualWidth
      ++ lit " " ++ toString actualWidth ++ dquote ++ lit ">" ++ newline.
Proof.
  unfold svgOpen, attr. rewrite <- !List.app_assoc. reflexivity.
Qed.

Lemma svgBackground_text actualWidth light :
  svgBackground actualWidth light =
    lit "<rect width=" ++ dquote ++ toString actualWidth ++ dquote
      ++ lit " height=" ++ dquote ++ toString actualWidth ++ dquote
      ++ lit " fill=" ++ dquote ++ lit "#" ++ light ++ dquote ++ lit "/>".
Proof.
  unfold svgBackground, attr. rewrite <- !List.app_assoc. reflexivity.
Qed.

Lemma svgRect_text x y moduleSize dark :
  svgRect x y moduleSize dark =
    lit "<rect x=" ++ dquote ++ toString x ++ dquote
      ++ lit " y=" ++ dquote ++ toString y ++ dquote
      ++ lit " width=" ++ dquote ++ toString moduleSize ++ dquote
      ++ lit " height=" ++ dquote ++ toString moduleSize ++ dquote
      ++ lit " fill=" ++ dquote ++ lit "#" ++ dark ++ dquote ++ lit "/>".
Proof.
  unfold svgRect, attr. rewrite <- !List.app_assoc. reflexivity.
Qed.

(** C5.  The SVG text is, character by character (code unit 34 is the
    double quote, 10 the line feed): the XML declaration and the opening
    [svg] tag; then the background rectangle, [<rect width=.. height=..
    fill=..>] with both sides the decimal [targetSize] and the fill the
    background color in hexadecimal; then, for each element [(row, col)]
    of [darkModules qr] in the order of that list, one rectangle [<rect
    x=.. y=.. width=.. height=.. fill=..>] at [offset + col * moduleSize],
    [offset + row * moduleSize], of side [moduleSize] and filled with the
    foreground color; then the closing tag.  [darkModules qr] is in
    row-major scan order and holds exactly the dark modules of the
    matrix, each once, and no light one. *)
Theorem svg_document_structure qr params :
  Spec.documentedRanges qr params →
  ∃ geo,
    svgGeometry qr params = Some geo ∧
    actualSize geo = width (size params) ∧
    let quote : jsstring := [34%N] in
    let lineBreak : jsstring := [10%N] in
    let side := toString (width (size params)) in
    let moduleSide := toString (moduleSize geo) in
    let background :=
      lit "<rect width=" ++ quote ++ side ++ quote
        ++ lit " height=" ++ quote ++ side ++ quote
        ++ lit " fill=" ++ quote ++ lit "#"
        ++ colorToHex (bgcolor params) ++ quote ++ lit "/>" in
    let rectangle (rc : Z * Z) :=
      lit "<rect x=" ++ quote
        ++ toString (offset geo + rc.2 * moduleSize geo) ++ quote
        ++ lit " y=" ++ quote
        ++ toString (offset geo + rc.1 * moduleSize geo) ++ quote
        ++ lit " width=" ++ quote ++ moduleSide ++ quote
        ++ lit " height=" ++ quote ++ moduleSide ++ quote
        ++ lit " fill=" ++ quote ++ lit "#"
        ++ colorToHex (color params) ++ quote ++ lit "/>" in
    generateQRCodeSVG qr params =
      Some (lit "<?xml version=" ++ quote ++ lit "1.0" ++ quote
              ++ lit " encoding=" ++ quote ++ lit "UTF-8" ++ quote
              ++ lit "?>" ++ lineBreak
              ++ lit "<svg xmlns=" ++ quote
              ++ lit "http://www.w3.org/2000/svg" ++ quote
              ++ lit " width=" ++ quote ++ side ++ quote
              ++ lit " height=" ++ quote ++ side ++ quote
              ++ lit " viewBox=" ++ quote ++ lit "0 0 " ++ side
              ++ lit " " ++ side ++ quote ++ lit ">" ++ lineBreak
              ++ background
              ++ (darkModules qr ≫= rectangle)
              ++ lit "</svg>") ∧
    StronglySorted scanBefore (darkModules qr) ∧
    NoDup (darkModules qr) ∧
    ∀ row col,
      (row, col) ∈ darkModules qr ↔
      0 ≤ row < getModuleCount qr ∧ 0 ≤ col < getModuleCount qr ∧
      isDark qr row col = true.
Proof.
  intros (_ & Hmc & _ & _ & Hq).
  destruct (svgGeometry qr params) as [geo|] eqn:Hg.
  - exists geo. split; [done|].
    assert (Hs : actualSize geo = width (size params)).
    { unfold svgGeometry in Hg. destruct (floorDiv _ _); [|done].
      cbn in Hg. by injection Hg as <-. }
    split; [exact Hs|]. cbv zeta. split.
    { rewrite (generateQRCodeSVG_document _ _ _ Hg). unfold svgDocument.
      rewrite svgOpen_text, svgBackground_text, Hs.
      rewrite (bind_ext_in (moduleRect geo (colorToHex (color params))) _ _
                 (λ rc _, svgRect_text _ _ _ _)).
      rewrite <- !List.app_assoc. reflexivity. }
    split; [apply darkModules_sorted|].
    split; [apply scan_sorted_NoDup, darkModules_sorted|].
    apply elem_of_darkModules.
  - unfold svgGeometry in Hg. by rewrite floorDiv_pos in Hg by lia.
Qed.

Lemma svg_document_structure_witness :
  Spec.documentedRanges checker sampleParams ∧
  (∃ svg,
     generateQRCodeSVG checker sampleParams = Some svg ∧
     take 229 svg =
       lit "<?xml version=" ++ [34%N] ++ lit "1.0" ++ [34%N]
         ++ lit " encoding=" ++ [34%N] ++ lit "UTF-8" ++ [34%N]
         ++ lit "?>" ++ [10%N]
         ++ lit "<svg xmlns=" ++ [34%N] ++ lit "http://www.w3.org/2000/svg"
         ++ [34%N]
         ++ lit " width=" ++ [34%N] ++ lit "200" ++ [34%N]
         ++ lit " height=" ++ [34%N] ++ lit "200" ++ [34%N]
         ++ lit " viewBox=" ++ [34%N] ++ lit "0 0 200 200" ++ [34%N]
         ++ lit ">" ++ [10%N]
         ++ lit "<rect width=" ++ [34%N] ++ lit "200" ++ [34%N]
         ++ lit " height=" ++ [34%N] ++ lit "200" ++ [34%N]
         ++ lit " fill=" ++ [34%N] ++ lit "#ffffff" ++ [34%N] ++ lit "/>"
         ++ lit "<rect x=" ++ [34%N] ++ lit "5" ++ [34%N]
         ++ lit " y=" ++ [34%N] ++ lit "5" ++ [34%N]
         ++ lit " width=" ++ [34%N] ++ lit "9" ++ [34%N]
         ++ lit " height=" ++ [34%N] ++ lit "9" ++ [34%N]
         ++ lit " fill=" ++ [34%N] ++ lit "#000000" ++ [34%N] ++ lit "/>") ∧
  (0, 0) ∈ darkModules checker ∧ (0, 1) ∉ darkModules checker.
Proof.
  pose proof sample_ranges as Hr. split; [exact Hr|].
  destruct (svg_document_structure checker sampleParams Hr)
    as (geo & Hg & _ & Hsvg & _ & _ & Hin).
  vm_compute in Hg. injection Hg as <-.
  split; [|split].
  - eexists. split; [exact Hsvg|]. vm_compute. reflexivity.
  - apply Hin. vm_compute. intuition congruence.
  - intros H. apply Hin in H as (_ & _ & H). vm_compute in H. discriminate.
Defined.

(** ** The bitmap: loops *)

Lemma for_upto_nonpos {S} n (body : Z → S → S) s :
  n ≤ 0 → for_upto n body s = s.
Proof. intros Hn. unfold for_upto. by rewrite seqZ_nil. Qed.

Lemma for_upto_succ {S} (k : nat) (body : Z → S → S) s :
  for_upto (Z.of_nat (Datatypes.S k)) body s
  = body (Z.of_nat k) (for_upto (Z.of_nat k) body s).
Proof. unfold for_upto. by rewrite seqZ_S, foldl_snoc, Z.add_0_l. Qed.

Lemma for_upto_ind {S} (P : Z → S → Prop) n (body : Z → S → S) s :
  0 ≤ n → P 0 s →
  (∀ i s, 0 ≤ i < n → P i s → P (i + 1) (body i s)) →
  P n (for_upto n body s).
Proof.
  intros Hn H0 Hstep. rewrite <- (Z2Nat.id n Hn).
  assert (Hk : (Z.to_nat n ≤ Z.to_nat n)%nat) by lia.
  revert Hk. generalize (Z.to_nat n) at 1 3 4 as k.
  induction k as [|k IH]; intros Hk.
  - by rewrite for_upto_nonpos.
  - rewrite for_upto_succ.
    replace (Z.of_nat (Datatypes.S k)) with (Z.of_nat k + 1) by lia.
    apply Hstep; [lia|]. apply IH. lia.
Qed.

Lemma for_upto_preserves {S} (I : S → Prop) n (body : Z → S → S) s :
  (∀ i s, 0 ≤ i < n → I s → I (body i s)) → I s → I (for_upto n body s).
Proof.
  intros Hstep Hs. destruct (decide (0 ≤ n)) as [Hn|Hn].
  - apply (for_upto_ind (λ _, I)); auto.
  - by rewrite for_upto_nonpos by lia.
Qed.

(** ** The bitmap: stores *)

Lemma length_store i v bm :
  List.length (imageData (store i v bm)) = List.length (imageData bm).
Proof. unfold store. cbn. case_decide; [apply length_insert | done]. Qed.

Lemma length_storePixel i c bm :
  List.length (imageData (storePixel i c bm)) = List.length (imageData bm).
Proof. unfold storePixel. by rewrite !length_store. Qed.

Lemma stores_storePixel i c bm :
  stores (storePixel i c bm) = [i + 3; i + 2; i + 1; i] ++ stores bm.
Proof. reflexivity. Qed.

Lemma lookup_store_eq i v bm :
  0 ≤ i < Z.of_nat (List.length (imageData bm)) →
  imageData (store i v bm) !! Z.to_nat i = Some (v `mod` 256).
Proof.
  intros Hi. unfold store. cbn. rewrite decide_True by lia.
  apply list_lookup_insert_eq. lia.
Qed.

Lemma lookup_store_ne i j v bm :
  0 ≤ j → i ≠ j →
  imageData (store i v bm) !! Z.to_nat j = imageData bm !! Z.to_nat j.
Proof.
  intros Hj Hne. unfold store. cbn. case_decide; [|done].
  apply list_lookup_insert_ne. lia.
Qed.

Lemma hasPixel_storePixel_same bm i c :
  Spec.validColor c →
  0 ≤ i → i + 3 < Z.of_nat (List.length (imageData bm)) →
  hasPixel (imageData (storePixel i c bm)) i c.
Proof.
  intros (Hr & Hg & Hb) Hi Hlen. unfold storePixel, hasPixel.
  repeat split.
  - rewrite !lookup_store_ne by lia. rewrite lookup_store_eq by lia.
    by rewrite Z.mod_small by lia.
  - rewrite !lookup_store_ne by lia.
    rewrite lookup_store_eq by (rewrite !length_store; lia).
    by rewrite Z.mod_small by lia.
  - rewrite !lookup_store_ne by lia.
    rewrite lookup_store_eq by (rewrite !length_store; lia).
    by rewrite Z.mod_small by lia.
  - by rewrite lookup_store_eq by (rewrite !length_store; lia).
Qed.

Lemma hasPixel_storePixel_other bm i j c c' :
  0 ≤ j → j + 3 < i ∨ i + 3 < j →
  hasPixel (imageData bm) j c' →
  hasPixel (imageData (storePixel i c bm)) j c'.
Proof.
  intros Hj Hne (H0 & H1 & H2 & H3). unfold storePixel, hasPixel.
  by rewrite !lookup_store_ne by lia.
Qed.

Lemma pixelIndex_apart size x y x' y' :
  0 ≤ x < size → 0 ≤ x' < size → 0 ≤ y → 0 ≤ y' →
  (x, y) ≠ (x', y') →
  pixelIndex size x y + 3 < pixelIndex size x' y' ∨
  pixelIndex size x' y' + 3 < pixelIndex size x y.
Proof.
  intros Hx Hx' Hy Hy' Hne. unfold pixelIndex.
  destruct (Z.lt_trichotomy y y') as [Hlt|[->|Hlt]].
  - left. nia.
  - assert (x ≠ x') by congruence. lia.
  - right. nia.
Qed.

Lemma pixelIndex_bounds size x y :
  0 ≤ x < size → 0 ≤ y < size →
  0 ≤ pixelIndex size x y ∧ pixelIndex size x y + 3 < size * size * 4.
Proof. intros Hx Hy. unfold pixelIndex. nia. Qed.

(** ** The bitmap: invariants of the drawing loops *)

Lemma Painted_iff size fg bg (D D' : Z → Z → Prop) bm :
  (∀ x y, 0 ≤ x < size → 0 ≤ y < size → D x y ↔ D' x y) →
  Painted size fg bg D bm → Painted size fg bg D' bm.
Proof.
  intros Hiff [Hlen H]. split; [done|]. intros x y Hx Hy.
  destruct (H x y Hx Hy) as [H1 H2]. rewrite <- (Hiff x y Hx Hy). by split.
Qed.

Lemma for_upto_Painted size fg bg (A : Z → Z → Z → Prop) n body D bm :
  (∀ i D bm, 0 ≤ i < n → Painted size fg bg D bm →
     Painted size fg bg (λ x y, D x y ∨ A i x y) (body i bm)) →
  Painted size fg bg D bm →
  Painted size fg bg (λ x y, D x y ∨ ∃ i, 0 ≤ i < n ∧ A i x y)
    (for_upto n body bm).
Proof.
  intros Hstep HD. destruct (decide (0 ≤ n)) as [Hn|Hn].
  - apply (for_upto_ind
      (λ k bm, Painted size fg bg
                 (λ x y, D x y ∨ ∃ i, 0 ≤ i < k ∧ A i x y) bm));
      [done| |].
    + eapply Painted_iff; [|exact HD]. intros x y _ _. split; [by left|].
      intros [H|(i & Hi & _)]; [done | lia].
    + intros i s Hi Hs. eapply Painted_iff; [|apply (Hstep i _ _ Hi Hs)].
      intros x y _ _. cbn. split.
      * intros [[H|(j & Hj & H)]|H]; [by left| |].
        -- right. exists j. split; [lia | done].
        -- right. exists i. split; [lia | done].
      * intros [H|(j & Hj & H)]; [by left; left|].
        destruct (decide (j = i)) as [->|]; [by right|].
        left. right. exists j. split; [lia | done].
  - rewrite for_upto_nonpos by lia. eapply Painted_iff; [|exact HD].
    intros x y _ _. split; [by left|]. intros [H|(i & Hi & _)]; [done | lia].
Qed.

Section Draw.
Context (qr : QRCode) (geo : Geometry) (fg bg : Color).
Context (Hfg : Spec.validColor fg).
Context (Hoff : 0 ≤ offset geo) (Hms : 1 ≤ moduleSize geo).

Lemma plot_Painted startX startY y x D bm :
  0 ≤ startX + x → 0 ≤ startY + y →
  Painted (actualSize geo) fg bg D bm →
  Painted (actualSize geo) fg bg
    (λ px py, D px py ∨ (px = startX + x ∧ py = startY + y))
    (plot geo fg startX startY y x bm).
Proof.
  intros Hx Hy [Hlen HD]. unfold plot.
  destruct (Z.ltb_spec (startX + x) (actualSize geo)) as [Hcx|Hcx]; cbn [andb];
    [destruct (Z.ltb_spec (startY + y) (actualSize geo)) as [Hcy|Hcy]|].
  - fold (pixelIndex (actualSize geo) (startX + x) (startY + y)).
    split; [by rewrite length_storePixel|].
    intros px py Hpx Hpy.
    destruct (decide ((px, py) = (startX + x, startY + y))) as [[= -> ->]|Hne].
    + split; [|tauto]. intros _.
      destruct (pixelIndex_bounds (actualSize geo) (startX + x) (startY + y))
        as [? ?]; [lia..|].
      apply hasPixel_storePixel_same; [done|lia|lia].
    + destruct (HD px py Hpx Hpy) as [H1 H2].
      assert (Hap := pixelIndex_apart (actualSize geo)
                       (startX + x) (startY + y) px py
                       ltac:(lia) Hpx ltac:(lia) ltac:(lia) ltac:(congruence)).
      destruct (pixelIndex_bounds (actualSize geo) px py Hpx Hpy) as [? ?].
      split.
      * intros [Hd|[-> ->]]; [|done].
        apply hasPixel_storePixel_other; [lia|lia|auto].
      * intros Hn. apply hasPixel_storePixel_other; [lia|lia|].
        apply H2. tauto.
  - apply (Painted_iff (actualSize geo) fg bg D); [|by split].
    intros px py Hpx Hpy. split; [by left|]. intros [H|[-> ->]]; [done|lia].
  - apply (Painted_iff (actualSize geo) fg bg D); [|by split].
    intros px py Hpx Hpy. split; [by left|]. intros [H|[-> ->]]; [done|lia].
Qed.

Lemma plot_InBounds startX startY y x bm :
  0 ≤ startX + x → 0 ≤ startY + y →
  InBounds (actualSize geo) bm →
  InBounds (actualSize geo) (plot geo fg startX startY y x bm).
Proof.
  intros Hx Hy [Hlen Hst]. unfold plot.
  destruct (Z.ltb_spec (startX + x) (actualSize geo)) as [Hcx|Hcx]; cbn [andb];
    [destruct (Z.ltb_spec (startY + y) (actualSize geo)) as [Hcy|Hcy]|]; try done.
  fold (pixelIndex (actualSize geo) (startX + x) (startY + y)).
  destruct (pixelIndex_bounds (actualSize geo) (startX + x) (startY + y))
    as [? ?]; [lia..|].
  split; [by rewrite length_storePixel|].
  rewrite stores_storePixel. apply list.Forall_app. split; [|done].
  repeat constructor; lia.
Qed.

Lemma drawModule_Painted row col D bm :
  0 ≤ row → 0 ≤ col →
  Painted (actualSize geo) fg bg D bm →
  Painted (actualSize geo) fg bg
    (λ x y, D x y ∨ (isDark qr row col = true ∧ inModule geo row col x y))
    (drawModule qr geo fg row col bm).
Proof.
  intros Hrow Hcol HD. unfold drawModule.
  destruct (isDark qr row col).
  - set (startX := offset geo + col * moduleSize geo).
    set (startY := offset geo + row * moduleSize geo).
    eapply Painted_iff; last first.
    + apply (for_upto_Painted (actualSize geo) fg bg
               (λ y px py, ∃ x, 0 ≤ x < moduleSize geo ∧
                                (px = startX + x ∧ py = startY + y)));
        [|exact HD].
      intros y D' bm' Hy HD'.
      apply (for_upto_Painted (actualSize geo) fg bg
               (λ x px py, px = startX + x ∧ py = startY + y)); [|exact HD'].
      intros x D'' bm'' Hx HD''. apply plot_Painted; [nia|nia|done].
    + intros x y _ _. cbn. unfold inModule. fold startX startY. split.
      * intros [H|(y' & Hy' & x' & Hx' & -> & ->)]; [by left|].
        right. split; [done|]. lia.
      * intros [H|(_ & Hx & Hy)]; [by left|]. right.
        exists (y - startY). split; [lia|]. exists (x - startX). lia.
  - eapply Painted_iff; [|exact HD]. intros x y _ _. split; [by left|].
    intros [H|[H _]]; done.
Qed.

Lemma drawModule_InBounds row col bm :
  0 ≤ row → 0 ≤ col →
  InBounds (actualSize geo) bm →
  InBounds (actualSize geo) (drawModule qr geo fg row col bm).
Proof.
  intros Hrow Hcol Hb. unfold drawModule. destruct (isDark qr row col); [|done].
  apply for_upto_preserves; [|done]. intros y bm' Hy Hb'.
  apply for_upto_preserves; [|done]. intros x bm'' Hx Hb''.
  apply plot_InBounds; [nia|nia|done].
Qed.

Lemma drawModules_Painted bm :
  Painted (actualSize geo) fg bg (λ _ _, False) bm →
  Painted (actualSize geo) fg bg (covered qr geo) (drawModules qr geo fg bm).
Proof.
  intros HD. unfold drawModules.
  eapply Painted_iff; last first.
  - apply (for_upto_Painted (actualSize geo) fg bg
             (λ row x y, ∃ col, 0 ≤ col < moduleCount geo ∧
                (isDark qr row col = true ∧ inModule geo row col x y)));
      [|exact HD].
    intros row D' bm' Hrow HD'.
    apply (for_upto_Painted (actualSize geo) fg bg
             (λ col x y, isDark qr row col = true ∧ inModule geo row col x y));
      [|exact HD'].
    intros col D'' bm'' Hcol HD''. apply drawModule_Painted; [lia|lia|done].
  - intros x y _ _. cbn. unfold covered, inModule. split.
    + intros [[]|(row & Hrow & col & Hcol & Hd & Hx & Hy)]. by exists row, col.
    + intros (row & col & Hrow & Hcol & Hd & Hx & Hy). right.
      exists row. split; [done|]. by exists col.
Qed.

Lemma drawModules_InBounds bm :
  InBounds (actualSize geo) bm →
  InBounds (actualSize geo) (drawModules qr geo fg bm).
Proof.
  intros Hb. unfold drawModules.
  apply for_upto_preserves; [|done]. intros row bm' Hrow Hb'.
  apply for_upto_preserves; [|done]. intros col bm'' Hcol Hb''.
  apply drawModule_InBounds; [lia|lia|done].
Qed.
End Draw.

(** ** The bitmap: background *)

Lemma fillBackground_count size :
  (Z.of_nat (List.length (imageData (newUint8Array (size * size * 4)))) + 3) / 4
  = size * size.
Proof.
  cbn. rewrite length_replicate.
  symmetry. apply Z.div_unique with (r := 3); nia.
Qed.

Lemma fillBackground_InBounds bg size :
  InBounds size (fillBackground bg (newUint8Array (size * size * 4))).
Proof.
  unfold fillBackground, for_by4. rewrite fillBackground_count.
  apply for_upto_preserves.
  - intros k bm Hk [Hl Hst]. split; [by rewrite length_storePixel|].
    rewrite stores_storePixel. apply list.Forall_app. split; [|done].
    repeat constructor; lia.
  - split; [|constructor]. cbn. rewrite length_replicate. nia.
Qed.

Lemma fillBackground_pixels bg size p :
  Spec.validColor bg → 0 ≤ p < size * size →
  hasPixel (imageData (fillBackground bg (newUint8Array (size * size * 4))))
    (4 * p) bg.
Proof.
  intros Hbg. unfold fillBackground, for_by4. rewrite fillBackground_count.
  revert p.
  apply (for_upto_ind (λ k bm,
           Z.of_nat (List.length (imageData bm)) = size * size * 4 ∧
           ∀ p, 0 ≤ p < k → hasPixel (imageData bm) (4 * p) bg)); [nia| |].
  - split; [|intros p Hp; lia]. cbn. rewrite length_replicate. nia.
  - intros k bm Hk [Hl Hpx]. split; [by rewrite length_storePixel|].
    intros p Hp. destruct (decide (p = k)) as [->|Hne].
    + apply hasPixel_storePixel_same; [done|lia|lia].
    + apply hasPixel_storePixel_other; [lia|lia|]. apply Hpx. lia.
Qed.

Lemma fillBackground_Painted fg bg size :
  Spec.validColor bg →
  Painted size fg bg (λ _ _, False)
    (fillBackground bg (newUint8Array (size * size * 4))).
Proof.
  intros Hbg. destruct (fillBackground_InBounds bg size) as [Hlen _].
  split; [done|]. intros x y Hx Hy. split; [done|]. intros _.
  unfold pixelIndex. rewrite (Z.mul_comm (y * size + x) 4).
  apply fillBackground_pixels; [done|nia].
Qed.

(** ** The bitmap: the whole renderer *)

Lemma pngGeometry_Some qr params geo :
  pngGeometry qr params = Some geo →
  moduleCount geo = getModuleCount qr ∧
  actualSize geo = width (size params) ∧
  1 ≤ moduleSize geo ∧
  (0 ≤ qzone params → 0 ≤ offset geo).
Proof.
  unfold pngGeometry. destruct (floorDiv _ _) as [q|]; [|done].
  cbn. intros [= <-]. cbn. repeat split; try lia. intros Hq.
  assert (0 ≤ Z.max 0
                (Z.max 0 (width (size params) - 2 * Z.max 0 (margin params))
                 - Z.max 1 q * (getModuleCount qr + 2 * qzone params)) / 2)
    by (apply Z.div_pos; lia).
  nia.
Qed.

Lemma pngGeometry_defined qr params :
  0 < getModuleCount qr → 0 ≤ qzone params →
  ∃ geo, pngGeometry qr params = Some geo.
Proof.
  intros Hmc Hq. unfold pngGeometry. rewrite floorDiv_pos by lia. by eexists.
Qed.

Lemma generatePNG_Some qr params geo :
  pngGeometry qr params = Some geo →
  generatePNG qr params =
    Some (drawModules qr geo (color params)
            (fillBackground (bgcolor params)
               (newUint8Array (actualSize geo * actualSize geo * 4)))).
Proof. intros Hg. unfold generatePNG. by rewrite Hg. Qed.

(** C9.  For a non-negative margin and quiet zone and a target size of at
    least 1, whatever the module matrix, the offset is non-negative and
    every index the program stores to lies inside the bitmap of
    [targetSize * targetSize * 4] bytes. *)
Theorem raster_stores_in_bounds qr params :
  0 < getModuleCount qr →
  0 ≤ margin params → 0 ≤ qzone params → 1 ≤ width (size params) →
  ∃ geo bm,
    pngGeometry qr params = Some geo ∧
    generatePNG qr params = Some bm ∧
    0 ≤ offset geo ∧
    Z.of_nat (List.length (imageData bm))
      = width (size params) * width (size params) * 4 ∧
    Forall (λ i, 0 ≤ i < Z.of_nat (List.length (imageData bm))) (stores bm).
Proof.
  intros Hmc Hm Hq Hsz.
  destruct (pngGeometry_defined qr params Hmc Hq) as [geo Hg].
  destruct (pngGeometry_Some _ _ _ Hg) as (Hc & Hs & Hms & Hoff).
  exists geo. eexists. split; [done|]. split; [by apply generatePNG_Some|].
  split; [auto|].
  pose proof (fillBackground_InBounds (bgcolor params) (actualSize geo)) as Hb.
  destruct (drawModules_InBounds qr geo (color params) (Hoff Hq) Hms _ Hb)
    as [Hlen Hst].
  rewrite Hlen, Hs. split; [done|]. by rewrite <- Hs.
Qed.

Lemma covered_dec qr geo x y : covered qr geo x y ∨ ¬ covered qr geo x y.
Proof.
  set (P := λ row col,
    isDark qr row col = true ∧
    (offset geo + col * moduleSize geo ≤ x
       < offset geo + (col + 1) * moduleSize geo ∧
     offset geo + row * moduleSize geo ≤ y
       < offset geo + (row + 1) * moduleSize geo)).
  destruct (decide (Exists (λ row, Exists (P row) (seqZ 0 (moduleCount geo)))
                      (seqZ 0 (moduleCount geo)))) as [H|H].
  - left. apply list.Exists_exists in H as (row & Hrow & H).
    apply list.Exists_exists in H as (col & Hcol & Hd & Hx & Hy).
    apply elem_of_seqZ in Hrow, Hcol. exists row, col.
    repeat split; try done; lia.
  - right. intros (row & col & Hrow & Hcol & Hd & Hx & Hy). apply H.
    apply list.Exists_exists. exists row. split; [apply elem_of_seqZ; lia|].
    apply list.Exists_exists. exists col. split; [apply elem_of_seqZ; lia|].
    by split.
Qed.

Lemma hasPixel_inj buf i c c' : hasPixel buf i c → hasPixel buf i c' → c = c'.
Proof.
  intros (H0 & H1 & H2 & _) (H0' & H1' & H2' & _).
  destruct c, c'. cbn in *. congruence.
Qed.

Lemma documentedRanges_defined qr params :
  Spec.documentedRanges qr params →
  ∃ geo,
    pngGeometry qr params = Some geo ∧
    0 ≤ offset geo ∧ 1 ≤ moduleSize geo ∧
    moduleCount geo = getModuleCount qr ∧
    actualSize geo = width (size params).
Proof.
  intros (_ & Hmc & _ & _ & Hq).
  destruct (pngGeometry_defined qr params ltac:(lia) ltac:(lia)) as [geo Hg].
  destruct (pngGeometry_Some _ _ _ Hg) as (Hc & Hs & Hms & Hoff).
  exists geo. repeat split; try done. apply Hoff. lia.
Qed.

Lemma generatePNG_Painted qr params geo :
  pngGeometry qr params = Some geo →
  0 ≤ offset geo → 1 ≤ moduleSize geo →
  Spec.validColor (color params) → Spec.validColor (bgcolor params) →
  ∃ bm,
    generatePNG qr params = Some bm ∧
    Painted (actualSize geo) (color params) (bgcolor params)
      (covered qr geo) bm.
Proof.
  intros Hg Hoff Hms Hfg Hbg. eexists. split; [by apply generatePNG_Some|].
  apply drawModules_Painted; [done..|]. by apply fillBackground_Painted.
Qed.

(** C3.  In the bitmap a pixel of the canvas is the foreground color when
    it lies in the square of a dark module and the background color when
    it does not (so, for two different colors, it is foreground if and
    only if it lies in such a square); the squares are clipped to the
    canvas: the bitmap is produced and keeps its size. *)
Theorem raster_pixels qr params :
  Spec.documentedRanges qr params →
  Spec.validColor (color params) → Spec.validColor (bgcolor params) →
  ∃ geo bm,
    pngGeometry qr params = Some geo ∧
    generatePNG qr params = Some bm ∧
    Z.of_nat (List.length (imageData bm))
      = width (size params) * width (size params) * 4 ∧
    ∀ x y, 0 ≤ x < width (size params) → 0 ≤ y < width (size params) →
      let index := pixelIndex (width (size params)) x y in
      (covered qr geo x y → hasPixel (imageData bm) index (color params)) ∧
      (¬ covered qr geo x y → hasPixel (imageData bm) index (bgcolor params)) ∧
      (color params ≠ bgcolor params →
       (hasPixel (imageData bm) index (color params) ↔ covered qr geo x y)).
Proof.
  intros Hr Hfg Hbg.
  destruct (documentedRanges_defined qr params Hr)
    as (geo & Hg & Hoff & Hms & Hc & Hs).
  destruct (generatePNG_Painted qr params geo Hg Hoff Hms Hfg Hbg)
    as (bm & Hbm & Hlen & Hpx).
  rewrite Hs in *. exists geo, bm.
  split; [done|]. split; [done|]. split; [done|].
  intros x y Hx Hy index. destruct (Hpx x y Hx Hy) as [H1 H2].
  split; [done|]. split; [done|]. intros Hne. split; [|done].
  intros Hfgpx. destruct (covered_dec qr geo x y) as [|Hn]; [done|].
  destruct Hne. eapply hasPixel_inj; [exact Hfgpx | by apply H2].
Qed.

(** C2.  Within the documented ranges the bitmap has exactly
    [targetSize * targetSize * 4] bytes, every pixel is the foreground or
    the background color, and every alpha byte is 255. *)
Theorem raster_canvas_size qr params :
  Spec.documentedRanges qr params →
  Spec.validColor (color params) → Spec.validColor (bgcolor params) →
  ∃ bm,
    generatePNG qr params = Some bm ∧
    Z.of_nat (List.length (imageData bm))
      = width (size params) * width (size params) * 4 ∧
    ∀ p, 0 ≤ p < width (size params) * width (size params) →
      (hasPixel (imageData bm) (4 * p) (color params) ∨
       hasPixel (imageData bm) (4 * p) (bgcolor params)) ∧
      imageData bm !! Z.to_nat (4 * p + 3) = Some 255.
Proof.
  intros Hr Hfg Hbg.
  destruct (documentedRanges_defined qr params Hr)
    as (geo & Hg & Hoff & Hms & Hc & Hs).
  destruct (generatePNG_Painted qr params geo Hg Hoff Hms Hfg Hbg)
    as (bm & Hbm & Hlen & Hpx).
  rewrite Hs in *. exists bm. split; [done|]. split; [done|].
  intros p Hp. set (sz := width (size params)) in *.
  assert (Hsz : 0 < sz) by (destruct Hr as (_ & _ & ? & _); unfold sz; lia).
  assert (Hx : 0 ≤ p `mod` sz < sz) by (apply Z.mod_pos_bound; lia).
  assert (Hy : 0 ≤ p `div` sz < sz).
  { split; [apply Z.div_pos; lia|]. apply Z.div_lt_upper_bound; lia. }
  assert (Hidx : pixelIndex sz (p `mod` sz) (p `div` sz) = 4 * p).
  { unfold pixelIndex. rewrite (Z.div_mod p sz) at 3 by lia. lia. }
  destruct (Hpx _ _ Hx Hy) as [H1 H2]. rewrite Hidx in *.
  assert (Hor : hasPixel (imageData bm) (4 * p) (color params) ∨
                hasPixel (imageData bm) (4 * p) (bgcolor params)).
  { destruct (covered_dec qr geo (p `mod` sz) (p `div` sz));
      [left|right]; auto. }
  split; [done|]. by destruct Hor as [(_ & _ & _ & ?)|(_ & _ & _ & ?)].
Qed.

Lemma raster_pixels_witness :
  ∃ bm, generatePNG checker sampleParams = Some bm ∧
        hasPixel (imageData bm) (pixelIndex 200 5 5) (mkColor 0 0 0) ∧
        hasPixel (imageData bm) (pixelIndex 200 4 5) (mkColor 255 255 255).
Proof.
  destruct (raster_pixels checker sampleParams)
    as (geo & bm & Hg & Hbm & _ & Hpx).
  - exact sample_ranges.
  - unfold Spec.validColor. simpl. lia.
  - unfold Spec.validColor. simpl. lia.
  - exists bm. split; [exact Hbm|].
    vm_compute in Hg. injection Hg as <-.
    destruct (Hpx 5 5) as (Hin & _ & _); [simpl; lia..|].
    destruct (Hpx 4 5) as (_ & Hout & _); [simpl; lia..|].
    split.
    + apply Hin. exists 0, 0. vm_compute. intuition congruence.
    + apply Hout. intros (row & col & Hrow & Hcol & _ & Hx & _).
      cbn in *. lia.
Defined.

Lemma raster_canvas_size_witness :
  Spec.documentedRanges checker tinyParams ∧
  ∃ bm, generatePNG checker tinyParams = Some bm ∧
        List.length (imageData bm) = 400%nat.
Proof.
  pose proof tiny_ranges as Hr. split; [exact Hr|].
  destruct (raster_canvas_size checker tinyParams Hr)
    as (bm & Hbm & Hlen & _).
  - unfold Spec.validColor. simpl. lia.
  - unfold Spec.validColor. simpl. lia.
  - exists bm. split; [exact Hbm|]. simpl in Hlen. lia.
Defined.

Lemma raster_stores_in_bounds_witness :
  ∃ bm, generatePNG checker tinyParams = Some bm ∧
        Forall (λ i, 0 ≤ i < 400) (stores bm).
Proof.
  destruct (raster_stores_in_bounds checker tinyParams)
    as (geo & bm & _ & Hbm & _ & Hlen & Hst).
  - simpl. lia.
  - simpl. lia.
  - simpl. lia.
  - simpl. lia.
  - exists bm. split; [exact Hbm|]. simpl in Hlen. by rewrite Hlen in Hst.
Defined.

(** ** Raster and vector parity *)



(* ================================================================== *)
(** * Part 3: further properties of the sources                        *)
(* ================================================================== *)

From Stdlib Require Import DecimalPos DecimalFacts.

Import Params Requests.

(** ** Decimal text and [parseInt] *)

Lemma parseDigits_uint d acc :
  parseDigits 10 (lit (DecimalString.NilEmpty.string_of_uint d)) true acc
  = Some (uintValue d acc).
Proof. revert acc. induction d; intros acc; [done|exact (IHd _)..]. Qed.

Lemma uintValue_of_lu d acc :
  uintValue d acc
  = Z.of_N (DecimalPos.Unsigned.of_lu (Decimal.rev d))
    + acc * 10 ^ Z.of_N (DecimalPos.Unsigned.usize d).
Proof.
  revert acc. induction d; intros acc; cbn [uintValue].
  { change (DecimalPos.Unsigned.of_lu (Decimal.rev Decimal.Nil)) with 0%N.
    change (DecimalPos.Unsigned.usize Decimal.Nil) with 0%N. lia. }
  all: rewrite IHd.
  all: lazymatch goal with
       | |- _ = Z.of_N (DecimalPos.Unsigned.of_lu (Decimal.rev (?D ?d'))) + _ =>
           change (Decimal.rev (D d')) with (Decimal.revapp d' (D Decimal.Nil));
           rewrite (DecimalPos.Unsigned.of_lu_revapp d' (D Decimal.Nil))
       end.
  all: cbn [DecimalPos.Unsigned.of_lu DecimalPos.Unsigned.usize].
  all: rewrite N2Z.inj_add, N2Z.inj_mul, N2Z.inj_pow, N2Z.inj_succ.
  all: rewrite Z.pow_succ_r by lia.
  all: lia.
Qed.

Lemma uintValue_of_uint d : uintValue d 0 = Z.of_uint d.
Proof.
  rewrite uintValue_of_lu. unfold Z.of_uint.
  rewrite DecimalPos.Unsigned.of_uint_alt. lia.
Qed.

Lemma lit_String c s : lit (String c s) = N_of_ascii c :: lit s.
Proof. reflexivity. Qed.

Lemma isDecimalDigit_enum c :
  isDecimalDigit c = true →
  (c = 48 ∨ c = 49 ∨ c = 50 ∨ c = 51 ∨ c = 52 ∨ c = 53 ∨ c = 54 ∨ c = 55 ∨
   c = 56 ∨ c = 57)%N.
Proof.
  unfold isDecimalDigit. intros H. apply andb_prop in H as [H1 H2].
  apply N.leb_le in H1, H2. lia.
Qed.

Lemma parseDigits_digit c s seen acc :
  isDecimalDigit c = true →
  parseDigits 10 (c :: s) seen acc
  = parseDigits 10 s true (acc * 10 + (Z.of_N c - 48)).
Proof.
  intros H. apply isDecimalDigit_enum in H.
  repeat (destruct H as [->|H]; [reflexivity|]). by subst.
Qed.

Lemma parseInt_digit_first c s :
  isDecimalDigit c = true →
  parseInt (c :: s) 10 = parseDigits 10 (c :: s) false 0.
Proof.
  intros H. apply isDecimalDigit_enum in H.
  assert (E : parseInt (c :: s) 10
              = n ← parseDigits 10 (c :: s) false 0; Some (1 * n)).
  { repeat (destruct H as [->|H]; [reflexivity|]). by subst. }
  rewrite E. destruct (parseDigits 10 (c :: s) false 0) as [n|]; [|done].
  cbn [mbind option_bind]. f_equal. lia.
Qed.

Lemma parseInt_uint d :
  d ≠ Decimal.Nil →
  parseInt (lit (DecimalString.NilEmpty.string_of_uint d)) 10
  = Some (Z.of_uint d).
Proof.
  intros Hd. rewrite <- uintValue_of_uint.
  destruct d; [done|..]; cbn [DecimalString.NilEmpty.string_of_uint];
    rewrite lit_String, parseInt_digit_first, parseDigits_digit,
      parseDigits_uint by reflexivity; reflexivity.
Qed.

Lemma parseInt_minus s :
  parseInt (45%N :: s) 10 = n ← parseDigits 10 s false 0; Some (- n).
Proof.
  change (parseInt (45%N :: s) 10)
    with (n ← parseDigits 10 s false 0; Some (-1 * n)).
  by destruct (parseDigits 10 s false 0) as [[|n|n]|].
Qed.

Lemma parseInt_toString n : parseInt (toString n) 10 = Some n.
Proof.
  unfold toString. destruct n as [|p|p]; [reflexivity| |].
  - cbn [Z.to_int DecimalString.NilZero.string_of_int].
    pose proof (DecimalPos.Unsigned.to_uint_nonnil p) as Hn.
    assert (E : DecimalString.NilZero.string_of_uint (Pos.to_uint p)
                = DecimalString.NilEmpty.string_of_uint (Pos.to_uint p))
      by (by destruct (Pos.to_uint p)).
    rewrite E, parseInt_uint by done. unfold Z.of_uint.
    by rewrite DecimalPos.Unsigned.of_to.
  - cbn [Z.to_int DecimalString.NilZero.string_of_int].
    pose proof (DecimalPos.Unsigned.to_uint_nonnil p) as Hn.
    assert (E : DecimalString.NilZero.string_of_uint (Pos.to_uint p)
                = DecimalString.NilEmpty.string_of_uint (Pos.to_uint p))
      by (by destruct (Pos.to_uint p)).
    rewrite E, lit_String. change (N_of_ascii "-") with 45%N.
    rewrite parseInt_minus.
    pose proof (parseInt_uint _ Hn) as P.
    destruct (Pos.to_uint p) eqn:Ed; [done|..];
      cbn [DecimalString.NilEmpty.string_of_uint] in *;
      rewrite lit_String in *;
      rewrite parseInt_digit_first in P by reflexivity;
      rewrite P; cbn [mbind option_bind]; f_equal;
      rewrite <- Ed; unfold Z.of_uint; rewrite DecimalPos.Unsigned.of_to; lia.
Qed.

(** ** Colors are bytes *)

Lemma digitValue_nonneg c d : digitValue c = Some d → 0 ≤ d.
Proof.
  unfold digitValue. intros H.
  destruct (N.leb_spec 48 c), (N.leb_spec c 57); cbn [andb] in H;
    [injection H as <-; lia|..];
    (destruct (N.leb_spec 97 c), (N.leb_spec c 122); cbn [andb] in H;
       [injection H as <-; lia|..]);
    (destruct (N.leb_spec 65 c), (N.leb_spec c 90); cbn [andb] in H;
       [injection H as <-; lia|..]); done.
Qed.

Lemma parseDigits_bounds radix s seen acc v :
  0 < radix → 0 ≤ acc →
  parseDigits radix s seen acc = Some v →
  acc ≤ v ∧ v < (acc + 1) * radix ^ Z.of_nat (List.length s).
Proof.
  intros Hr. revert seen acc.
  assert (Hpow : ∀ k : nat, 1 ≤ radix ^ Z.of_nat k).
  { intros k. pose proof (Z.pow_pos_nonneg radix (Z.of_nat k)). lia. }
  induction s as [|c s IH]; intros seen acc Hacc H; cbn [parseDigits] in H.
  - destruct seen; [|done]. injection H as <-. cbn. lia.
  - specialize (Hpow (List.length s)).
    assert (Hstop : (if seen then Some acc else None) = Some v →
                    acc ≤ v ∧ v < (acc + 1) * radix ^ Z.of_nat (List.length (c :: s))).
    { destruct seen; [|done]. intros [= <-].
      cbn [List.length]. rewrite Nat2Z.inj_succ, Z.pow_succ_r by lia. nia. }
    destruct (digitValue c) as [d|] eqn:Ed; [|by apply Hstop].
    destruct (Z.ltb_spec d radix) as [Hd|Hd]; [|by apply Hstop].
    pose proof (digitValue_nonneg _ _ Ed) as Hd0.
    apply IH in H as [H1 H2]; [|nia].
    cbn [List.length]. rewrite Nat2Z.inj_succ, Z.pow_succ_r by lia. nia.
Qed.

Lemma skipWhiteSpace_length s :
  (List.length (skipWhiteSpace s) ≤ List.length s)%nat.
Proof.
  induction s as [|c s IH]; [done|]. cbn [skipWhiteSpace].
  destruct (isWhiteSpace c); cbn [List.length]; lia.
Qed.

Lemma skipWhiteSpace_Forall (P : N → Prop) s :
  Forall P s → Forall P (skipWhiteSpace s).
Proof.
  induction 1 as [|c s Hc Hs IH]; [done|]. cbn [skipWhiteSpace].
  destruct (isWhiteSpace c); [done|by constructor].
Qed.

Lemma sign_match (c : N) (t : jsstring) :
  match c :: t with
  | 45%N :: t' => (-1, t')
  | 43%N :: t' => (1, t')
  | _ => (1, c :: t)
  end = if (c =? 45)%N then (-1, t)
        else if (c =? 43)%N then (1, t) else (1, c :: t).
Proof.
  destruct c as [|p]; [done|].
  do 6 (destruct p as [p|p|]; try done).
Qed.

Lemma hexPrefix_length (s : jsstring) :
  (List.length
     match s with
     | 48%N :: 120%N :: t => t
     | 48%N :: 88%N :: t => t
     | _ => s
     end ≤ List.length s)%nat.
Proof.
  destruct s as [|c [|c' t]]; [done| |].
  - destruct c as [|p]; [done|]. do 6 (destruct p as [p|p|]; try done).
  - destruct (decide (c = 48%N)) as [->|Hc].
    + destruct c' as [|p]; [done|].
      do 7 (destruct p as [p|p|]; try (cbn [List.length]; lia)).
    + destruct c as [|p]; [done|].
      do 6 (destruct p as [p|p|]; try done).
Qed.

Lemma parseInt_bounds s radix v :
  0 < radix → Forall (λ c, c ≠ 45%N) s →
  parseInt s radix = Some v →
  0 ≤ v < radix ^ Z.of_nat (List.length s).
Proof.
  intros Hr Hs. unfold parseInt.
  pose proof (skipWhiteSpace_length s) as Hlen.
  pose proof (skipWhiteSpace_Forall _ _ Hs) as Hs1.
  destruct (skipWhiteSpace s) as [|c t] eqn:E1.
  { destruct (radix =? 16); done. }
  rewrite sign_match.
  apply list.Forall_cons in Hs1 as [Hc _].
  destruct (N.eqb_spec c 45) as [|_]; [done|].
  set (sg := if (c =? 43)%N then (1, t) else (1, c :: t)).
  assert (Hsg : sg.1 = 1 ∧ (List.length sg.2 ≤ List.length (c :: t))%nat).
  { subst sg. destruct (c =? 43)%N; cbn [fst snd List.length]; lia. }
  destruct sg as [sign s2]. cbn [fst snd] in Hsg. destruct Hsg as [-> Hl2].
  set (s3 := if radix =? 16 then _ else s2).
  assert (Hl3 : (List.length s3 ≤ List.length s2)%nat).
  { subst s3. destruct (radix =? 16); [apply hexPrefix_length|done]. }
  destruct (parseDigits radix s3 false 0) as [n|] eqn:En; [|done].
  cbn [mbind option_bind]. intros [= <-].
  apply parseDigits_bounds in En as [H1 H2]; [|done|done].
  split; [lia|]. rewrite Z.mul_1_l.
  eapply Z.lt_le_trans; [exact H2|]. rewrite Z.add_0_l, Z.mul_1_l.
  apply Z.pow_le_mono_r; [done|]. cbn [List.length] in *. lia.
Qed.

Lemma includes_unit_Forall (d : N) (s : jsstring) :
  includes [d] s = false → Forall (λ c, c ≠ d) s.
Proof.
  induction s as [|c s IH]; [done|]. cbn [includes startsWith].
  destruct (N.eqb_spec d c) as [|Hne]; [done|]. cbn [andb orb].
  intros H. constructor; [done|]. by apply IH.
Qed.

Lemma stripHash_Forall (P : N → Prop) s :
  Forall P s → Forall P (stripHash s).
Proof.
  intros H. destruct H as [|c s Hc Hs]; [done|]. unfold stripHash.
  assert (Forall P (c :: s)) by (by constructor).
  destruct c as [|p]; [done|]. do 6 (destruct p as [p|p|]; try done).
Qed.

Lemma parseInt_hex_byte s v :
  Forall (λ c, c ≠ 45%N) s → (List.length s ≤ 2)%nat →
  parseInt s 16 = Some v → 0 ≤ v ≤ 255.
Proof.
  intros Hs Hl H. apply parseInt_bounds in H; [|done|done].
  assert (16 ^ Z.of_nat (List.length s) ≤ 16 ^ 2)
    by (apply Z.pow_le_mono_r; lia).
  lia.
Qed.

Lemma parsePart_range part v : parsePart part = Return v → 0 ≤ v ≤ 255.
Proof.
  unfold parsePart. destruct (parseInt part 10) as [n|]; [|done].
  destruct (Z.ltb_spec n 0); [done|]. cbn [orb].
  destruct (n >? 255) eqn:E; [done|]. intros [= <-].
  rewrite Z.gtb_ltb in E. apply Z.ltb_ge in E. lia.
Qed.

Lemma parseColor_Return_valid colorStr c :
  parseColor colorStr = Return c → Spec.validColor c.
Proof.
  unfold parseColor. destruct (is_empty colorStr); [done|].
  destruct (includes (lit "-") colorStr) eqn:Einc.
  - destruct (split 45 colorStr) as [|p0 [|p1 [|p2 [|]]]]; try done.
    destruct (parsePart p0) as [r|] eqn:E0; [|done].
    destruct (parsePart p1) as [g|] eqn:E1; [|done].
    destruct (parsePart p2) as [b|] eqn:E2; [|done].
    cbn. intros [= <-]. unfold Spec.validColor. cbn.
    repeat split; eapply parsePart_range; eassumption.
  - apply (includes_unit_Forall 45) in Einc.
    apply (stripHash_Forall _ _) in Einc.
    set (hex := stripHash colorStr) in *.
    assert (Hsub : ∀ i n, Forall (λ c, c ≠ 45%N) (substr i n hex)).
    { intros i n. unfold substr. by apply Forall_take, Forall_drop. }
    assert (Hlen : ∀ i n, (List.length (substr i n hex) ≤ n)%nat).
    { intros i n. unfold substr. rewrite length_take. lia. }
    destruct (length hex =? 3).
    + destruct (parseInt _ 16) as [r|] eqn:Er; [|done].
      destruct (parseInt (charAt 1 _ ++ _) 16) as [g|] eqn:Eg; [|by destruct (parseInt _ 16)].
      destruct (parseInt (charAt 2 _ ++ _) 16) as [b|] eqn:Eb; [|done].
      intros [= <-]. unfold Spec.validColor. cbn.
      repeat split; (eapply parseInt_hex_byte; [| |eassumption];
        [apply list.Forall_app; split; apply Hsub
        |rewrite length_app; unfold charAt;
         pose proof (Hlen 0%nat 1%nat); pose proof (Hlen 1%nat 1%nat);
         pose proof (Hlen 2%nat 1%nat); lia]).
    + destruct (length hex =? 6); [|done].
      destruct (parseInt _ 16) as [r|] eqn:Er; [|done].
      destruct (parseInt (substr 2 2 _) 16) as [g|] eqn:Eg; [|done].
      destruct (parseInt (substr 4 2 _) 16) as [b|] eqn:Eb; [|done].
      intros [= <-]. unfold Spec.validColor. cbn.
      repeat split; (eapply parseInt_hex_byte; [| |eassumption];
        [apply Hsub|apply Hlen]).
Qed.

(** ** Sizes *)

Lemma uint_digits d :
  Forall (λ c, isDecimalDigit c = true)
    (lit (DecimalString.NilEmpty.string_of_uint d)).
Proof.
  induction d; cbn [DecimalString.NilEmpty.string_of_uint];
    [constructor|..]; rewrite lit_String; by constructor.
Qed.

Lemma toString_chars n :
  Forall (λ c, isDecimalDigit c = true ∨ c = 45%N) (toString n).
Proof.
  assert (Hu : ∀ d, Forall (λ c, isDecimalDigit c = true ∨ c = 45%N)
                      (lit (DecimalString.NilZero.string_of_uint d))).
  { intros d. eapply list.Forall_impl; [|intros c Hc; left; exact Hc].
    destruct d; try apply uint_digits. by repeat constructor. }
  unfold toString. destruct (Z.to_int n) as [d|d];
    cbn [DecimalString.NilZero.string_of_int]; [apply Hu|].
  rewrite lit_String. constructor; [by right|apply Hu].
Qed.

Lemma toString_without (sep : N) n :
  isDecimalDigit sep = false → sep ≠ 45%N →
  Forall (λ c, c ≠ sep) (toString n).
Proof.
  intros Hd Hm. eapply list.Forall_impl; [apply toString_chars|].
  intros c Hc E. subst c. destruct Hc; congruence.
Qed.

Lemma toString_nonneg_without_dash n :
  0 ≤ n → Forall (λ c, c ≠ 45%N) (toString n).
Proof.
  intros Hn. unfold toString.
  assert (Hu : ∀ d, Forall (λ c, c ≠ 45%N)
                      (lit (DecimalString.NilZero.string_of_uint d))).
  { intros d. assert (Hdig : ∀ c, isDecimalDigit c = true → c ≠ 45%N)
      by (by intros c H ->).
    destruct d; try (eapply list.Forall_impl; [apply uint_digits|exact Hdig]).
    by repeat constructor. }
  destruct n as [|p|p]; [by repeat constructor|apply Hu|lia].
Qed.

Lemma toString_nonempty n : toString n ≠ [].
Proof.
  pose proof (parseInt_toString n) as H. intros E. by rewrite E in H.
Qed.

Lemma roundToDouble_small z :
  Z.abs z < 2 ^ 53 → roundToDouble z = Finite z.
Proof.
  intros H. unfold roundToDouble.
  by destruct (Z.ltb_spec (Z.abs z) (2 ^ 53)); [|lia].
Qed.

Lemma parseIntNumber_toString n :
  Z.abs n < 2 ^ 53 → parseIntNumber (toString n) = Some (Finite n).
Proof.
  intros H. unfold parseIntNumber. rewrite parseInt_toString. cbn.
  by rewrite roundToDouble_small.
Qed.

Lemma split_sizeText w h :
  split 120 (sizeText w h) = [toString w; toString h].
Proof.
  unfold sizeText. change (lit "x") with [120%N]. cbn [app].
  rewrite split_app, split_no_separator; [done|..];
    by apply toString_without.
Qed.

Lemma is_empty_app_toString n (s : jsstring) :
  is_empty (toString n ++ s) = false.
Proof.
  pose proof (toString_nonempty n). by destruct (toString n).
Qed.

Lemma maxSize_bounds format : 1000 ≤ maxSize format ≤ 1000000.
Proof. unfold maxSize. case_bool_decide; lia. Qed.

Lemma parseSize_sizeText n format :
  10 ≤ n ≤ maxSize format →
  parseSize (sizeText n n) format = Return {| width := n; height := n |}.
Proof.
  intros Hn. pose proof (maxSize_bounds format) as Hm.
  unfold parseSize. unfold sizeText at 1. rewrite is_empty_app_toString.
  rewrite split_sizeText, parseIntNumber_toString by lia.
  cbn [numberNe numberLt numberGt]. rewrite Z.eqb_refl. cbn [negb].
  fold (maxSize format).
  destruct (Z.ltb_spec n 10); [lia|]. cbn [orb].
  rewrite Z.gtb_ltb. destruct (Z.ltb_spec (maxSize format) n); [lia|done].
Qed.

Lemma parseSize_sizeText_ne w h format :
  Z.abs w < 2 ^ 53 → Z.abs h < 2 ^ 53 → w ≠ h →
  parseSize (sizeText w h) format
  = Throw (paramError "QR codes must be square (width must equal height)").
Proof.
  intros Hw Hh Hne.
  unfold parseSize. unfold sizeText at 1. rewrite is_empty_app_toString.
  rewrite split_sizeText, !parseIntNumber_toString by lia.
  cbn [numberNe]. by destruct (Z.eqb_spec w h).
Qed.

Lemma parseSize_Return sizeStr format sz :
  parseSize sizeStr format = Return sz →
  width sz = height sz ∧ 10 ≤ width sz ≤ maxSize format.
Proof.
  pose proof (maxSize_bounds format) as Hm.
  unfold parseSize. destruct (is_empty sizeStr).
  { intros [= <-]. cbn. lia. }
  destruct (split 120 sizeStr) as [|p0 [|p1 [|]]]; try done.
  destruct (parseIntNumber p0) as [w|]; [|done].
  destruct (parseIntNumber p1) as [h|]; [|done].
  destruct (numberNe w h) eqn:Ene; [done|].
  fold (maxSize format).
  destruct (numberLt w 10 || numberLt h 10) eqn:Elt; [done|].
  destruct (numberGt w (maxSize format) || numberGt h (maxSize format))
    eqn:Egt; [done|].
  destruct w as [w| |], h as [h| |]; try done.
  intros [= <-]. cbn in *.
  apply orb_false_elim in Elt as [Elt _], Egt as [Egt _].
  apply negb_false_iff, Z.eqb_eq in Ene. apply Z.ltb_ge in Elt.
  rewrite Z.gtb_ltb in Egt. apply Z.ltb_ge in Egt. lia.
Qed.

(** ** Whole requests *)

Lemma listIncludes_true l s : listIncludes l s = true → s ∈ l.
Proof. apply bool_decide_eq_true. Qed.

Lemma listIncludes_elem l s : s ∈ l → listIncludes l s = true.
Proof. apply bool_decide_eq_true. Qed.

Lemma orDefault_Some (s d : jsstring) : s ≠ [] → orDefault (Some s) d = s.
Proof. by destruct s. Qed.

Lemma parseBounded_Return v default max msg n :
  0 ≤ default ≤ max →
  parseBounded v default max msg = Return n → 0 ≤ n ≤ max.
Proof.
  intros Hd. unfold parseBounded. destruct v as [s|]; [|by intros [= <-]].
  destruct (parseInt s 10) as [m|]; [|done].
  destruct (Z.ltb_spec m 0); [done|]. cbn [orb].
  rewrite Z.gtb_ltb. destruct (Z.ltb_spec max m); [done|].
  intros [= <-]. lia.
Qed.

Lemma parseBounded_toString n default max msg :
  0 ≤ n ≤ max → parseBounded (Some (toString n)) default max msg = Return n.
Proof.
  intros Hn. unfold parseBounded. rewrite parseInt_toString.
  destruct (Z.ltb_spec n 0); [lia|]. cbn [orb].
  rewrite Z.gtb_ltb. by destruct (Z.ltb_spec max n); [lia|].
Qed.

Lemma validate_Return params q :
  validateAndParseParams params = Return q →
  QRCodeParams.data params = Some (data q) ∧ wellFormed q.
Proof.
  unfold validateAndParseParams.
  destruct (QRCodeParams.data params) as [text|]; [|done].
  destruct (is_empty text) eqn:Ee; [done|].
  destruct (Z.eqb_spec (length text) 0) as [|Hl0]; [done|].
  destruct (length text >? 900) eqn:El; [done|].
  rewrite Z.gtb_ltb in El. apply Z.ltb_ge in El.
  set (fmt := orDefault (QRCodeParams.format params) _).
  destruct (listIncludes _ fmt) eqn:Ef; [|done]. cbn [negb].
  destruct (parseSize _ fmt) as [sz|] eqn:Es; [|done].
  cbn [mbind result_bind].
  set (cs := orDefault (QRCodeParams.charset_source params) _).
  set (ct := orDefault (QRCodeParams.charset_target params) _).
  destruct (listIncludes _ cs) eqn:Ecs; [|done]. cbn [negb].
  destruct (listIncludes _ ct) eqn:Ect; [|done]. cbn [negb].
  set (lv := orDefault (QRCodeParams.ecc params) _).
  destruct (listIncludes _ lv) eqn:Elv; [|done]. cbn [negb].
  destruct (parseColor (orDefault (QRCodeParams.color params) _))
    as [fg|] eqn:Efg; [|done].
  destruct (parseColor (orDefault (QRCodeParams.bgcolor params) _))
    as [bg|] eqn:Ebg; [|done].
  destruct (parseBounded (QRCodeParams.margin params) _ _ _)
    as [m|] eqn:Em; [|done].
  destruct (parseBounded (QRCodeParams.qzone params) _ _ _)
    as [z|] eqn:Ez; [|done].
  intros [= <-]. split; [done|]. unfold wellFormed. cbn.
  apply parseSize_Return in Es as [Hsq Hsz].
  apply parseColor_Return_valid in Efg, Ebg.
  apply parseBounded_Return in Em, Ez; [|lia..].
  apply listIncludes_true in Ef, Ecs, Ect, Elv.
  assert (1 ≤ length text)
    by (destruct text; [done|unfold length; cbn [List.length]; lia]).
  unfold Spec.validColor in *. repeat split; try done; lia.
Qed.

Lemma list_nonempty_of_length (s : jsstring) : 1 ≤ length s → s ≠ [].
Proof. by intros H ->. Qed.

Lemma elem_of_lits_nonempty (s : jsstring) (l : list string) :
  s ∈ lit <$> l → Forall (λ x, x ≠ ""%string) l → s ≠ [].
Proof.
  intros Hin Hl. apply list_elem_of_fmap in Hin as (x & -> & Hx).
  rewrite list.Forall_forall in Hl. specialize (Hl x Hx). by destruct x.
Qed.

Lemma colorText_nonempty c : colorText c ≠ [].
Proof.
  unfold colorText. pose proof (toString_nonempty (r c)).
  by destruct (toString (r c)).
Qed.

Lemma sizeText_nonempty w h : sizeText w h ≠ [].
Proof.
  unfold sizeText. pose proof (toString_nonempty w). by destruct (toString w).
Qed.

Lemma validate_dataOnly_aux text :
  1 ≤ length text ≤ 900 →
  validateAndParseParams (dataOnly text) = Return (defaults text).
Proof.
  intros Hlen. unfold validateAndParseParams, dataOnly.
  cbn [QRCodeParams.data].
  assert (Htext : is_empty text = false)
    by (destruct text; [unfold length in Hlen; cbn [List.length] in Hlen; lia|done]).
  rewrite Htext.
  destruct (Z.eqb_spec (length text) 0); [lia|].
  rewrite Z.gtb_ltb. destruct (Z.ltb_spec 900 (length text)); [lia|].
  reflexivity.
Qed.

Lemma parseSize_sizeText_eq w h format :
  Z.abs w < 2 ^ 53 → Z.abs h < 2 ^ 53 →
  parseSize (sizeText w h) format =
    if negb (w =? h) then
      Throw (paramError "QR codes must be square (width must equal height)")
    else if (w <? 10) || (h <? 10) then
      Throw (paramError "Size must be at least 10x10")
    else if (w >? maxSize format) || (h >? maxSize format) then
      Throw (paramError
        ("Size cannot exceed " ++ messageText (toString (maxSize format))
           ++ "x" ++ messageText (toString (maxSize format)) ++ " for "
           ++ messageText format ++ " format"))
    else Return {| width := w; height := h |}.
Proof.
  intros Hw Hh.
  unfold parseSize. unfold sizeText at 1. rewrite is_empty_app_toString.
  rewrite split_sizeText, !parseIntNumber_toString by lia.
  cbn [numberNe numberLt numberGt]. fold (maxSize format).
  reflexivity.
Qed.

Lemma paramError_live msg :
  msg ≠ "data parameter cannot be empty"%string →
  statusCode (paramError msg) = 400 ∧
  message (paramError msg) ≠ "data parameter cannot be empty"%string.
Proof. by split. Qed.

Lemma parseColor_Throw colorStr e :
  parseColor colorStr = Throw e →
  statusCode e = 400 ∧ message e ≠ "data parameter cannot be empty"%string.
Proof.
  unfold parseColor, parsePart.
  repeat match goal with
  | |- Throw _ = Throw _ → _ => intros [= <-]; by apply paramError_live
  | |- Return _ = Throw _ → _ => done
  | |- context [mbind _ (Return _)] => cbn [mbind result_bind]
  | |- context [mbind _ (Throw _)] => cbn [mbind result_bind]
  | |- context [match ?x with _ => _ end] => destruct x
  end.
Qed.

Lemma parseSize_Throw sizeStr format e :
  parseSize sizeStr format = Throw e →
  statusCode e = 400 ∧ message e ≠ "data parameter cannot be empty"%string.
Proof.
  unfold parseSize.
  repeat match goal with
  | |- Throw _ = Throw _ → _ => intros [= <-]; by apply paramError_live
  | |- Return _ = Throw _ → _ => done
  | |- context [match ?x with _ => _ end] => destruct x
  end.
Qed.

Lemma parseBounded_Throw v default max msg e :
  parseBounded v default max msg = Throw e → e = paramError msg.
Proof.
  unfold parseBounded.
  repeat match goal with
  | |- Throw _ = Throw _ → _ => by intros [= <-]
  | |- Return _ = Throw _ → _ => done
  | |- context [match ?x with _ => _ end] => destruct x
  end.
Qed.

Lemma validate_Throw params e :
  validateAndParseParams params = Throw e →
  statusCode e = 400 ∧ message e ≠ "data parameter cannot be empty"%string.
Proof.
  unfold validateAndParseParams.
  destruct (QRCodeParams.data params) as [text|];
    [|intros [= <-]; by apply paramError_live].
  destruct (is_empty text) eqn:Ee; [intros [= <-]; by apply paramError_live|].
  destruct (Z.eqb_spec (length text) 0) as [E0|_].
  { destruct text; [done|]. unfold length in E0. cbn [List.length] in E0. lia. }
  destruct (length text >? 900); [intros [= <-]; by apply paramError_live|].
  destruct (listIncludes _ _); cbn [negb];
    [|intros [= <-]; by apply paramError_live].
  destruct (parseSize _ _) as [sz|e'] eqn:Es;
    [|cbn [mbind result_bind]; intros [= <-]; by eapply parseSize_Throw].
  cbn [mbind result_bind].
  destruct (listIncludes _ _); cbn [negb];
    [|intros [= <-]; by apply paramError_live].
  destruct (listIncludes _ _); cbn [negb];
    [|intros [= <-]; by apply paramError_live].
  destruct (listIncludes _ _); cbn [negb];
    [|intros [= <-]; by apply paramError_live].
  destruct (parseColor (orDefault (QRCodeParams.color params) _))
    as [fg|e'] eqn:Efg;
    [|cbn [mbind result_bind]; intros [= <-]; by eapply parseColor_Throw].
  cbn [mbind result_bind].
  destruct (parseColor (orDefault (QRCodeParams.bgcolor params) _))
    as [bg|e'] eqn:Ebg;
    [|cbn [mbind result_bind]; intros [= <-]; by eapply parseColor_Throw].
  cbn [mbind result_bind].
  destruct (parseBounded (QRCodeParams.margin params) _ _ _)
    as [m|e'] eqn:Em;
    [|cbn [mbind result_bind]; intros [= <-]; rewrite (parseBounded_Throw _ _ _ _ _ Em);
      by apply paramError_live].
  cbn [mbind result_bind].
  destruct (parseBounded (QRCodeParams.qzone params) _ _ _)
    as [z|e'] eqn:Ez;
    [|cbn [mbind result_bind]; intros [= <-]; rewrite (parseBounded_Throw _ _ _ _ _ Ez);
      by apply paramError_live].
  done.
Qed.

(** ** Properties of [parseColor], [parseSize] and
    [validateAndParseParams] *)

(** Whatever [parseColor] returns, for any input, has its three components
    between 0 and 255. *)
Theorem parseColor_components_in_range colorStr c :
  parseColor colorStr = Return c → Spec.validColor c.
Proof. apply parseColor_Return_valid. Qed.

Lemma parseColor_components_in_range_witness :
  parseColor (lit "+f 7 9") = Return (mkColor 15 7 9) ∧
  Spec.validColor (mkColor 15 7 9).
Proof.
  assert (H : parseColor (lit "+f 7 9") = Return (mkColor 15 7 9))
    by reflexivity.
  split; [exact H|].
  exact (parseColor_components_in_range (lit "+f 7 9") (mkColor 15 7 9) H).
Defined.

(** For three hexadecimal digits, the short form is read as the long form
    with each digit doubled, a leading hash sign changes nothing, and the
    color is 17 times the value of each digit. *)
Theorem parseColor_hex_forms a b c :
  Forall (λ u, isHexDigit u = true) [a; b; c] →
  parseColor [a; b; c] = parseColor [a; a; b; b; c; c] ∧
  parseColor (35%N :: [a; b; c]) = parseColor [a; b; c] ∧
  parseColor (35%N :: [a; a; b; b; c; c]) = parseColor [a; b; c] ∧
  parseColor [a; b; c]
    = Return (mkColor (17 * hexValue a) (17 * hexValue b) (17 * hexValue c)).
Proof.
  intros Hs.
  assert (Hl : Forall (λ u, isHexDigit u = true) [a; a; b; b; c; c]).
  { repeat (apply list.Forall_cons in Hs as [? Hs]). by repeat constructor. }
  rewrite !parseColor_hash by done.
  rewrite parseColor_hex_short, parseColor_hex_long by done.
  repeat split; do 2 f_equal; lia.
Qed.

Lemma parseColor_hex_forms_witness :
  parseColor (lit "#a0F") = parseColor (lit "aa00FF") ∧
  parseColor (lit "a0F") = Return (mkColor 170 0 255).
Proof.
  assert (Hs : Forall (λ u, isHexDigit u = true) (lit "a0F"))
    by (by repeat constructor).
  destruct (parseColor_hex_forms 97 48 70 Hs) as (H1 & H2 & _ & H4).
  split; [exact (eq_trans H2 H1)|exact H4].
Defined.

(** A color written as a decimal triple is read back as itself. *)
Theorem parseColor_colorText c :
  Spec.validColor c → parseColor (colorText c) = Return c.
Proof.
  intros Hc. destruct c as [r g b]. by apply parseColor_decimal_triple.
Qed.

Lemma parseColor_colorText_witness :
  Spec.validColor (mkColor 12 0 255) ∧
  parseColor (lit "12-0-255") = Return (mkColor 12 0 255).
Proof.
  assert (Hc : Spec.validColor (mkColor 12 0 255))
    by (unfold Spec.validColor; simpl; lia).
  split; [exact Hc|].
  exact (parseColor_colorText (mkColor 12 0 255) Hc).
Defined.

(** Whatever [parseSize] returns, for any text and format, is square and
    between 10 and the largest side of the format (1000, or 1000000 for
    [svg]); the default of an empty text included. *)
Theorem parseSize_result sizeStr format sz :
  parseSize sizeStr format = Return sz →
  width sz = height sz ∧ 10 ≤ width sz ≤ maxSize format.
Proof. apply parseSize_Return. Qed.

Lemma parseSize_result_witness :
  parseSize (lit " 0300x300.5") (lit "png") = Return (mkSize 300 300) ∧
  10 ≤ 300 ≤ maxSize (lit "png").
Proof.
  assert (H : parseSize (lit " 0300x300.5") (lit "png")
              = Return (mkSize 300 300)) by reflexivity.
  split; [exact H|].
  exact (proj2 (parseSize_result _ _ _ H)).
Defined.

(** For integers that doubles hold exactly, the text [WxH] is accepted if
    and only if [W = H] and the side lies between 10 and the largest side
    of the format, and then the result is that size. *)
Theorem parseSize_accepts_iff w h format sz :
  Z.abs w < 2 ^ 53 → Z.abs h < 2 ^ 53 →
  parseSize (sizeText w h) format = Return sz ↔
  w = h ∧ 10 ≤ w ≤ maxSize format ∧ sz = {| width := w; height := h |}.
Proof.
  intros Hw Hh. rewrite parseSize_sizeText_eq by done.
  destruct (Z.eqb_spec w h) as [->|Hne]; cbn [negb]; [|split; [done|tauto]].
  rewrite orb_diag. destruct (Z.ltb_spec h 10); [split; [done|lia]|].
  rewrite orb_diag, Z.gtb_ltb.
  destruct (Z.ltb_spec (maxSize format) h); [split; [done|lia]|].
  split; [intros [= <-]; repeat split; lia|by intros (_ & _ & ->)].
Qed.

Lemma parseSize_accepts_iff_witness :
  parseSize (lit "5000x5000") (lit "svg") = Return (mkSize 5000 5000).
Proof.
  refine (proj2 (parseSize_accepts_iff 5000 5000 (lit "svg")
                   (mkSize 5000 5000) _ _) _).
  - simpl. lia.
  - simpl. lia.
  - repeat split. + lia. + vm_compute. discriminate.
Defined.

(** What the validator returns is within the ranges the renderers are
    documented for, and carries the data of the request unchanged. *)
Theorem validate_wellFormed params q :
  validateAndParseParams params = Return q →
  QRCodeParams.data params = Some (data q) ∧ wellFormed q.
Proof. apply validate_Return. Qed.

Lemma validate_wellFormed_witness :
  validateAndParseParams (dataOnly (lit "hi")) = Return (defaults (lit "hi")) ∧
  wellFormed (defaults (lit "hi")).
Proof.
  assert (H : validateAndParseParams (dataOnly (lit "hi"))
              = Return (defaults (lit "hi"))) by reflexivity.
  split; [exact H|].
  exact (proj2 (validate_wellFormed _ _ H)).
Defined.

(** Every configuration within those ranges can be asked for: spelling its
    fields out as a request and validating gives the configuration back. *)
Theorem validate_unparse q :
  wellFormed q → validateAndParseParams (unparse q) = Return q.
Proof.
  intros (Hlen & Hfmt & Hsq & Hsz & Hcs & Hct & Hecc & Hfg & Hbg & Hm & Hz).
  destruct q as [text [w h] cs ct lv fg bg m z fmt].
  cbn [Validators.width Validators.height Validators.data Validators.size
    Validators.charsetSource Validators.charsetTarget Validators.ecc
    Validators.color Validators.bgcolor Validators.margin Validators.qzone
    Validators.format] in *. subst h.
  unfold validateAndParseParams, unparse. cbn [QRCodeParams.data
    QRCodeParams.size QRCodeParams.charset_source QRCodeParams.charset_target
    QRCodeParams.ecc QRCodeParams.color QRCodeParams.bgcolor
    QRCodeParams.margin QRCodeParams.qzone QRCodeParams.format
    Validators.width Validators.height Validators.data Validators.size
    Validators.charsetSource Validators.charsetTarget Validators.ecc
    Validators.color Validators.bgcolor Validators.margin Validators.qzone
    Validators.format].
  assert (Htext : is_empty text = false)
    by (destruct text; [unfold length in Hlen; cbn [List.length] in Hlen; lia|done]).
  rewrite Htext.
  destruct (Z.eqb_spec (length text) 0); [lia|].
  rewrite Z.gtb_ltb. destruct (Z.ltb_spec 900 (length text)); [lia|].
  rewrite (orDefault_Some fmt)
    by (apply (elem_of_lits_nonempty _ ["png"; "svg"]%string);
        [done|by repeat constructor]).
  rewrite listIncludes_elem by done. cbn [negb].
  rewrite (orDefault_Some (sizeText w w)) by apply sizeText_nonempty.
  rewrite parseSize_sizeText by done. cbn [mbind result_bind].
  rewrite (orDefault_Some cs)
    by (apply (elem_of_lits_nonempty _ ["UTF-8"; "ISO-8859-1"]%string);
        [done|by repeat constructor]).
  rewrite (orDefault_Some ct)
    by (apply (elem_of_lits_nonempty _ ["UTF-8"; "ISO-8859-1"]%string);
        [done|by repeat constructor]).
  rewrite !listIncludes_elem by done. cbn [negb].
  rewrite (orDefault_Some lv)
    by (apply (elem_of_lits_nonempty _ ["L"; "M"; "Q"; "H"]%string);
        [done|by repeat constructor]).
  rewrite listIncludes_elem by done. cbn [negb].
  rewrite !orDefault_Some by apply colorText_nonempty.
  destruct fg as [fr fg fb], bg as [br bg bb]. unfold colorText.
  cbn [Validators.r Validators.g Validators.b].
  rewrite !parseColor_decimal_triple by done. cbn [mbind result_bind].
  by rewrite !parseBounded_toString by done.
Qed.

Lemma validate_unparse_witness :
  wellFormed sampleParams ∧
  validateAndParseParams (unparse sampleParams) = Return sampleParams.
Proof.
  assert (H : wellFormed sampleParams).
  { repeat split;
      lazymatch goal with
      | |- _ ∈ _ => vm_compute; solve [repeat constructor]
      | |- _ => vm_compute; congruence
      end. }
  split; [exact H|]. exact (validate_unparse sampleParams H).
Defined.

(** A request that gives nothing but its data, of 1 to 900 code units, is
    validated to the defaults: 200x200, UTF-8 both ways, level L, black on
    white, margin 1, no quiet zone, PNG. *)
Theorem validate_dataOnly text :
  1 ≤ length text ≤ 900 →
  validateAndParseParams (dataOnly text) = Return (defaults text).
Proof. apply validate_dataOnly_aux. Qed.

Lemma validate_dataOnly_witness :
  1 ≤ length (lit "hello") ≤ 900 ∧
  validateAndParseParams (dataOnly (lit "hello"))
    = Return (defaults (lit "hello")).
Proof.
  assert (H : 1 ≤ length (lit "hello") ≤ 900) by (vm_compute; split; discriminate).
  split; [exact H|]. exact (validate_dataOnly (lit "hello") H).
Defined.

(** Every error of the validator has status 400, and none of them is the
    message of the [length === 0] test: an empty data is turned down as
    missing before that test is reached. *)
Theorem validate_errors params e :
  validateAndParseParams params = Throw e →
  statusCode e = 400 ∧
  message e ≠ "data parameter cannot be empty"%string.
Proof. apply validate_Throw. Qed.

Lemma validate_errors_witness :
  validateAndParseParams (dataOnly (lit ""))
    = Throw (paramError "data parameter is mandatory") ∧
  statusCode (paramError "data parameter is mandatory") = 400.
Proof.
  assert (H : validateAndParseParams (dataOnly (lit ""))
              = Throw (paramError "data parameter is mandatory"))
    by reflexivity.
  split; [exact H|]. exact (proj1 (validate_errors _ _ H)).
Defined.


(** * The generator and the worker *)

Import Generate Worker Reference.

(** ** What reaches the QR library *)

Lemma convertCharset_other_target text from to :
  to ≠ ISO88591 → convertCharset text from to = text.
Proof.
  intros Hto. unfold convertCharset.
  case_bool_decide; [done|].
  rewrite (bool_decide_eq_false_2 (to = ISO88591)) by done.
  rewrite andb_false_r. by destruct (_ && _).
Qed.

Lemma land_255 (c : N) : Z.land (Z.of_N c) 255 = Z.of_N c `mod` 256.
Proof. exact (Z.land_ones (Z.of_N c) 8 ltac:(lia)). Qed.

Lemma qrData_ISO params :
  charsetTarget params = ISO88591 →
  qrData params
  = Bytes (latin1Byte (charsetSource params) <$> data params).
Proof.
  intros Ht. unfold qrData. rewrite Ht.
  rewrite bool_decide_eq_true_2 by done. f_equal.
  unfold convertCharset, latin1Byte. case_bool_decide as Hs.
  - rewrite (bool_decide_eq_false_2 (charsetSource params = UTF8))
      by (rewrite Hs; discriminate).
    apply list_fmap_ext. intros _ c _. apply land_255.
  - rewrite (bool_decide_eq_true_2 (ISO88591 = ISO88591)) by done.
    rewrite andb_true_r. case_bool_decide as Hu.
    + unfold replaceNonLatin1. rewrite <- list_fmap_compose.
      apply list_fmap_ext. intros _ c _. cbn.
      destruct (N.leb_spec c 255).
      * rewrite land_255. apply Z.mod_small. lia.
      * reflexivity.
    + rewrite (bool_decide_eq_false_2 (ISO88591 = UTF8)) by discriminate.
      rewrite andb_false_r.
      apply list_fmap_ext. intros _ c _. apply land_255.
Qed.

(** ** The SVG text is ASCII *)

Lemma isAscii_app s t : Spec.isAscii s → Spec.isAscii t → Spec.isAscii (s ++ t).
Proof. intros Hs Ht. apply list.Forall_app. by split. Qed.

Lemma isAscii_check s :
  forallb (λ c, (c <? 128)%N) s = true → Spec.isAscii s.
Proof.
  intros H. apply list.Forall_forall. intros c Hc.
  rewrite forallb_forall in H. apply N.ltb_lt, H. by apply list_elem_of_In.
Qed.

Lemma isAscii_toString n : Spec.isAscii (toString n).
Proof.
  eapply list.Forall_impl; [apply toString_chars|].
  intros c [Hc| ->]; [|done].
  unfold isDecimalDigit in Hc. apply andb_true_iff in Hc as [_ Hc].
  apply N.leb_le in Hc. lia.
Qed.

Lemma hex_uint_ascii d :
  Spec.isAscii (lit (HexadecimalString.NilEmpty.string_of_uint d)).
Proof.
  induction d; cbn [HexadecimalString.NilEmpty.string_of_uint];
    [constructor|..]; rewrite lit_String; by constructor.
Qed.

Lemma isAscii_toString16 n : Spec.isAscii (toString16 n).
Proof.
  assert (Hu : ∀ d, Spec.isAscii
                      (lit (HexadecimalString.NilZero.string_of_uint d))).
  { intros d. destruct d; try apply hex_uint_ascii. by repeat constructor. }
  unfold toString16. destruct (Z.to_hex_int n) as [d|d];
    cbn [HexadecimalString.NilZero.string_of_int]; [apply Hu|].
  rewrite lit_String. constructor; [done|apply Hu].
Qed.

Lemma isAscii_colorToHex c : Spec.isAscii (colorToHex c).
Proof.
  assert (H : ∀ n, Spec.isAscii (toHex n)).
  { intros n. unfold toHex, padStart. apply isAscii_app;
      [apply Forall_replicate; done|apply isAscii_toString16]. }
  unfold colorToHex. auto using isAscii_app.
Qed.

Lemma isAscii_attr name value :
  Spec.isAscii (lit name) → Spec.isAscii value → Spec.isAscii (attr name value).
Proof.
  intros Hn Hv. unfold attr.
  repeat apply isAscii_app; try done; by apply isAscii_check.
Qed.

Lemma isAscii_svgRect x y m dark :
  Spec.isAscii dark → Spec.isAscii (svgRect x y m dark).
Proof.
  intros Hd. unfold svgRect.
  repeat first
    [ apply isAscii_app | apply isAscii_attr | apply isAscii_toString
    | exact Hd | by apply isAscii_check ].
Qed.

Lemma isAscii_svgDocument geo light dark modules :
  Spec.isAscii light → Spec.isAscii dark →
  Spec.isAscii (svgDocument geo light dark modules).
Proof.
  intros Hl Hd. unfold svgDocument, svgOpen, svgBackground.
  repeat first
    [ apply isAscii_app | apply isAscii_attr | apply isAscii_toString
    | exact Hl | by apply isAscii_check ].
  induction modules as [|rc modules IH]; [constructor|].
  rewrite bind_cons. apply isAscii_app; [|exact IH].
  by apply isAscii_svgRect.
Qed.

Lemma generateQRCodeSVG_ascii qr params svg :
  generateQRCodeSVG qr params = Some svg → Spec.isAscii svg.
Proof.
  intros H. destruct (svgGeometry qr params) as [geo|] eqn:Hg.
  - rewrite (generateQRCodeSVG_document _ _ _ Hg) in H.
    injection H as <-.
    apply isAscii_svgDocument; apply isAscii_colorToHex.
  - unfold generateQRCodeSVG in H. by rewrite Hg in H.
Qed.

Lemma utf8Encode_ascii s :
  Spec.isAscii s → utf8Encode s = Z.of_N <$> s.
Proof.
  induction 1 as [|c s Hc _ IH]; [done|].
  cbn [utf8Encode fmap list_fmap].
  unfold isHighSurrogate, isLowSurrogate.
  destruct (N.leb_spec 55296 c); [lia|]. cbn [andb].
  destruct (N.leb_spec 56320 c); [lia|]. cbn [andb].
  unfold utf8Bytes. destruct (Z.ltb_spec (Z.of_N c) 128); [|lia].
  cbn. by rewrite IH.
Qed.

(** ** [generateQRCode] *)

Lemma renderers_defined qr params :
  0 < getModuleCount qr → 0 ≤ qzone params →
  (∃ svg, generateQRCodeSVG qr params = Some svg) ∧
  (∃ bm, generatePNG qr params = Some bm ∧
         Z.of_nat (List.length (imageData bm))
           = width (size params) * width (size params) * 4).
Proof.
  intros Hmc Hq.
  destruct (pngGeometry_defined qr params Hmc Hq) as [geo Hg].
  destruct (pngGeometry_Some _ _ _ Hg) as (_ & Hs & Hms & Hoff).
  split.
  - eexists. by apply generateQRCodeSVG_document.
  - eexists. split; [by apply generatePNG_Some|].
    rewrite <- Hs.
    apply (drawModules_InBounds qr geo (color params) (Hoff Hq) Hms).
    apply fillBackground_InBounds.
Qed.

Lemma generateQRCode_eq libs params :
  generateQRCode libs params =
    match qrcode libs (getErrorCorrectionLevel (ecc params)) (qrData params)
    with
    | None => None
    | Some qr =>
        if bool_decide (format params = lit "svg")
        then utf8Encode <$> generateQRCodeSVG qr params
        else (λ png, upngEncode libs (imageData png) (width (size params))
                       (width (size params))) <$> generatePNG qr params
    end.
Proof.
  unfold generateQRCode. destruct (qrcode libs _ _) as [qr|]; [|done].
  cbn [mbind option_bind]. case_bool_decide.
  - by destruct (generateQRCodeSVG qr params).
  - by destruct (generatePNG qr params).
Qed.

Lemma generateQRCode_None libs params :
  (∀ level data qr, qrcode libs level data = Some qr → 0 < getModuleCount qr) →
  0 ≤ qzone params →
  generateQRCode libs params = None ↔
  qrcode libs (getErrorCorrectionLevel (ecc params)) (qrData params) = None.
Proof.
  intros Hlib Hq. rewrite generateQRCode_eq.
  destruct (qrcode libs _ _) as [qr|] eqn:Eqr; [|done].
  destruct (renderers_defined qr params (Hlib _ _ _ Eqr) Hq)
    as [[svg Hsvg] (bm & Hbm & _)].
  rewrite Hsvg, Hbm. by case_bool_decide.
Qed.

(** ** The hash of the ETag *)

Lemma toInt32_mod z : toInt32 z `mod` 2 ^ 32 = z `mod` 2 ^ 32.
Proof.
  unfold toInt32.
  rewrite <- (Zminus_mod_idemp_l ((z + 2 ^ 31) `mod` 2 ^ 32)).
  rewrite Z.mod_mod by lia. rewrite Zminus_mod_idemp_l. f_equal. lia.
Qed.

Lemma toInt32_range z : - 2 ^ 31 ≤ toInt32 z < 2 ^ 31.
Proof.
  unfold toInt32. pose proof (Z.mod_pos_bound (z + 2 ^ 31) (2 ^ 32)). lia.
Qed.

Lemma toInt32_small z : - 2 ^ 31 ≤ z < 2 ^ 31 → toInt32 z = z.
Proof. intros Hz. unfold toInt32. rewrite Z.mod_small; lia. Qed.

Lemma lxor_mod a b :
  Z.lxor a b `mod` 2 ^ 32 = Z.lxor (a `mod` 2 ^ 32) (b `mod` 2 ^ 32).
Proof.
  apply Z.bits_inj'. intros n Hn. rewrite Z.lxor_spec.
  destruct (Z.lt_ge_cases n 32).
  - rewrite !Z.mod_pow2_bits_low by lia. rewrite Z.lxor_spec. reflexivity.
  - rewrite !Z.mod_pow2_bits_high by lia. reflexivity.
Qed.

Lemma fnv_step h h' c :
  h `mod` 2 ^ 32 = h' →
  imul (xor32 h (Z.of_N c)) 16777619 `mod` 2 ^ 32
  = (Z.lxor h' (Z.of_N c) * 16777619) `mod` 2 ^ 32.
Proof.
  intros <-.
  assert (Hx : xor32 h (Z.of_N c) `mod` 2 ^ 32
               = Z.lxor (h `mod` 2 ^ 32) (Z.of_N c) `mod` 2 ^ 32).
  { unfold xor32. rewrite lxor_mod, !toInt32_mod.
    rewrite (lxor_mod (h `mod` _)). rewrite Z.mod_mod by lia. reflexivity. }
  unfold imul. rewrite toInt32_mod.
  rewrite Z.mul_mod by lia. rewrite !toInt32_mod, Hx.
  rewrite <- Z.mul_mod by lia. reflexivity.
Qed.

Lemma fnv_foldl s h h' :
  h `mod` 2 ^ 32 = h' →
  foldl (λ h c, imul (xor32 h (Z.of_N c)) 16777619) h s `mod` 2 ^ 32
  = foldl (λ h c, (Z.lxor h (Z.of_N c) * 16777619) `mod` 2 ^ 32) h' s.
Proof.
  revert h h'. induction s as [|c s IH]; intros h h' Hh; [done|].
  cbn [foldl]. apply IH. by apply fnv_step.
Qed.

Lemma fnv1a_mod s : fnv1a s `mod` 2 ^ 32 = fnv1a32 s.
Proof. by apply fnv_foldl. Qed.

Lemma fnv1a_int32 s : s ≠ [] → fnv1a s = toInt32 (fnv1a32 s).
Proof.
  intros Hs. rewrite <- fnv1a_mod.
  destruct (exists_last Hs) as (s' & c & ->).
  unfold fnv1a. rewrite foldl_app. cbn [foldl].
  set (x := xor32 _ _). unfold imul at 2.
  set (y := toInt32 x * _).
  pose proof (toInt32_range y) as Hr.
  unfold imul. fold y.
  unfold toInt32 at 2. rewrite Zplus_mod_idemp_l.
  fold (toInt32 (toInt32 y)). symmetry. by apply toInt32_small.
Qed.

(** ** Headers *)

Lemma headerGet_headerSet_eq name value hs :
  headerGet name (headerSet name value hs) = Some value.
Proof.
  induction hs as [|[n v] hs IH]; cbn [headerSet headerGet].
  - by rewrite String.eqb_refl.
  - destruct (String.eqb n name) eqn:E; cbn [headerGet]; rewrite E;
      [done|exact IH].
Qed.

Lemma headerGet_headerSet_ne name name' value hs :
  name ≠ name' →
  headerGet name (headerSet name' value hs) = headerGet name hs.
Proof.
  intros Hne. induction hs as [|[n v] hs IH]; cbn [headerSet headerGet].
  - by rewrite (proj2 (String.eqb_neq name' name)).
  - destruct (String.eqb n name') eqn:E; cbn [headerGet].
    + apply String.eqb_eq in E. subst n.
      by rewrite (proj2 (String.eqb_neq name' name)).
    + by rewrite IH.
Qed.

Lemma etagOf_nonempty parsed : is_empty (etagOf parsed) = false.
Proof. reflexivity. Qed.

Lemma normStr_nonempty parsed : normStr parsed ≠ [].
Proof. discriminate. Qed.

Lemma rendered_facts mimeType parsed bytes :
  let resp := rendered mimeType (etagOf parsed) bytes in
  status resp = 200 ∧ body resp = BytesBody bytes ∧
  headerGet "Content-Type" (headers resp) = Some mimeType ∧
  headerGet "Content-Length" (headers resp)
    = Some (toString (Z.of_nat (List.length bytes))) ∧
  headerGet "ETag" (headers resp) = Some (etagOf parsed) ∧
  headerGet "Cache-Control" (headers resp)
    = Some (lit "public, max-age=3600") ∧
  headerGet "Access-Control-Allow-Origin" (headers resp) = Some (lit "*").
Proof.
  unfold rendered. rewrite etagOf_nonempty. cbn [negb status body headers].
  repeat split;
    rewrite ?headerGet_headerSet_eq, ?headerGet_headerSet_ne by discriminate;
    rewrite ?headerGet_headerSet_eq, ?headerGet_headerSet_ne by discriminate;
    reflexivity.
Qed.

(** ** The answers of [handleQRCodeRequest] *)

Lemma matches_etag v parsed :
  negb (is_empty v) && bool_decide (v = etagOf parsed)
  = bool_decide (v = etagOf parsed).
Proof.
  case_bool_decide as E; [|apply andb_false_r].
  subst v. by rewrite etagOf_nonempty.
Qed.

Lemma handleQRCodeRequest_cases libs req :
  (mergeParams (request req) = None ∧
   handleQRCodeRequest libs req = internalError) ∨
  (∃ params e,
     mergeParams (request req) = Some params ∧
     validateAndParseParams (asQRCodeParams params) = Throw e ∧
     handleQRCodeRequest libs req = paramErrorResponse e) ∨
  (∃ params parsed,
     mergeParams (request req) = Some params ∧
     validateAndParseParams (asQRCodeParams params) = Return parsed ∧
     generateQRCode libs parsed = None ∧
     handleQRCodeRequest libs req = internalError) ∨
  (∃ params parsed bytes,
     mergeParams (request req) = Some params ∧
     validateAndParseParams (asQRCodeParams params) = Return parsed ∧
     generateQRCode libs parsed = Some bytes ∧
     handleQRCodeRequest libs req =
       if bool_decide (ifNoneMatch req = Some (etagOf parsed))
       then notModified (etagOf parsed)
       else rendered (getMimeType (format parsed)) (etagOf parsed) bytes).
Proof.
  unfold handleQRCodeRequest.
  destruct (mergeParams (request req)) as [params|]; [|by left].
  destruct (validateAndParseParams (asQRCodeParams params))
    as [parsed|e] eqn:Ev; [|right; left; by exists params, e].
  destruct (generateQRCode libs parsed) as [bytes|] eqn:Eg;
    [|right; right; left; by exists params, parsed].
  right; right; right. exists params, parsed, bytes.
  do 3 (split; [done|]). cbv zeta. destruct (ifNoneMatch req) as [v|].
  - rewrite matches_etag.
    destruct (decide (v = etagOf parsed)) as [->|Hne].
    + by rewrite !bool_decide_eq_true_2.
    + rewrite !bool_decide_eq_false_2; [done|congruence|done].
  - by rewrite bool_decide_eq_false_2.
Qed.

Lemma paramErrorResponse_status params e :
  validateAndParseParams params = Throw e →
  status (paramErrorResponse e) = 400.
Proof. intros H. exact (proj1 (validate_Throw _ _ H)). Qed.

Lemma served_status (b : bool) mimeType etag bytes :
  status (if b then notModified etag else rendered mimeType etag bytes)
  = if b then 304 else 200.
Proof. by destruct b. Qed.


(** ** Properties of the generator and of the worker *)

(** For the target charset ISO-8859-1 the QR library receives one byte per
    code unit of the data: with the source UTF-8 the unit itself, or 63
    (a question mark) for a unit above 255; with any other source the low
    byte of the unit, without a replacement. *)
Theorem qrData_latin1_bytes params :
  charsetTarget params = ISO88591 →
  ∃ bytes,
    qrData params = Bytes bytes ∧
    List.length bytes = List.length (data params) ∧
    Forall (λ b, 0 ≤ b ≤ 255) bytes ∧
    ∀ i c, data params !! i = Some c →
           bytes !! i = Some (latin1Byte (charsetSource params) c).
Proof.
  intros Ht. eexists. split; [by apply qrData_ISO|].
  split; [by rewrite length_fmap|]. split.
  - apply Forall_fmap, list.Forall_forall. intros c _. cbn.
    unfold latin1Byte. case_bool_decide.
    + destruct (N.leb_spec c 255); lia.
    + pose proof (Z.mod_pos_bound (Z.of_N c) 256). lia.
  - intros i c Hc. by rewrite list_lookup_fmap, Hc.
Qed.

Lemma qrData_latin1_bytes_witness :
  qrData (mkParams [104%N; 8364%N] (mkSize 200 200) ISO88591 ISO88591
            (lit "L") (mkColor 0 0 0) (mkColor 255 255 255) 1 0 (lit "png"))
  = Bytes [104; 172].
Proof.
  destruct (qrData_latin1_bytes
              (mkParams [104%N; 8364%N] (mkSize 200 200) ISO88591 ISO88591
                 (lit "L") (mkColor 0 0 0) (mkColor 255 255 255) 1 0
                 (lit "png")) eq_refl)
    as (bytes & -> & Hlen & _ & Hat).
  destruct bytes as [|b0 [|b1 [|]]]; try discriminate Hlen.
  pose proof (Hat 0%nat _ eq_refl) as H0.
  pose proof (Hat 1%nat _ eq_refl) as H1.
  injection H0 as ->. injection H1 as ->. reflexivity.
Defined.

(** For every other target charset the data reaches the QR library as the
    string it is, whatever the source charset says. *)
Theorem qrData_text params :
  charsetTarget params ≠ ISO88591 →
  qrData params = Text (data params).
Proof.
  intros Ht. unfold qrData. rewrite bool_decide_eq_false_2 by done.
  by rewrite convertCharset_other_target.
Qed.

Lemma qrData_text_witness :
  qrData (mkParams [104%N; 8364%N] (mkSize 200 200) ISO88591 UTF8
            (lit "L") (mkColor 0 0 0) (mkColor 255 255 255) 1 0 (lit "png"))
  = Text [104%N; 8364%N].
Proof. apply qrData_text. discriminate. Defined.

(** The symbol with its quiet zone is drawn inside the margins exactly when
    it fits, that is when [moduleCount + 2 * qzone] is at most the width
    left between the margins.  It is then centered, the space on the right
    (and below) being that on the left (and above) or one pixel more.
    When it does not fit, the modules are one pixel wide and drawn from the
    left margin on, beyond the right one. *)
Theorem symbol_within_margins qr params geo :
  pngGeometry qr params = Some geo →
  0 < getModuleCount qr → 0 ≤ qzone params →
  let left := offset geo - qzone params * moduleSize geo in
  let right := left + contentSize geo in
  (totalModules geo ≤ available geo ↔
     marginPx geo ≤ left ∧ right ≤ actualSize geo - marginPx geo) ∧
  (totalModules geo ≤ available geo →
     0 ≤ (actualSize geo - marginPx geo - right) - (left - marginPx geo) ≤ 1) ∧
  (available geo < totalModules geo →
     moduleSize geo = 1 ∧ left = marginPx geo).
Proof.
  intros Hg Hmc Hq. unfold pngGeometry in Hg.
  rewrite floorDiv_pos in Hg by lia. cbn [mbind option_bind] in Hg.
  injection Hg as <-.
  cbn [offset moduleSize contentSize totalModules available marginPx
       actualSize].
  set (total := getModuleCount qr + 2 * qzone params).
  set (sz := width (size params)).
  set (m := Z.max 0 (margin params)).
  set (avail := Z.max 0 (sz - 2 * m)).
  assert (Htotal : 0 < total) by (unfold total; lia).
  pose proof (Z.mul_div_le avail total Htotal) as Hlo.
  pose proof (Z.mul_succ_div_gt avail total Htotal) as Hhi.
  set (q := avail `div` total) in *.
  set (ms := Z.max 1 q).
  set (lo := Z.max 0 (avail - ms * total)).
  pose proof (Z.mul_div_le lo 2 ltac:(lia)) as Hl1.
  pose proof (Z.mul_succ_div_gt lo 2 ltac:(lia)) as Hl2.
  set (half := lo `div` 2) in *.
  destruct (Z.le_gt_cases total avail) as [Hfit|Hno].
  - assert (Hq1 : 1 ≤ q) by nia.
    assert (Hms : ms = q) by (unfold ms; lia).
    assert (Hlo' : lo = avail - q * total) by (unfold lo; rewrite Hms; nia).
    assert (Hav : avail = sz - 2 * m) by (unfold avail in *; lia).
    rewrite Hms in *. repeat split; intros; try lia.
  - assert (Hq0 : q = 0) by nia.
    assert (Hms : ms = 1) by (unfold ms; lia).
    assert (Hlo' : lo = 0) by (unfold lo; rewrite Hms; lia).
    assert (Hh : half = 0) by lia.
    assert (Hav : sz - 2 * m ≤ avail) by (unfold avail; lia).
    rewrite Hms, Hh in *. repeat split; intros; try lia.
Qed.

Lemma symbol_within_margins_witness :
  let geo := sampleGeometry in
  let left := offset geo - qzone sampleParams * moduleSize geo in
  let right := left + contentSize geo in
  (totalModules geo ≤ available geo ↔
     marginPx geo ≤ left ∧ right ≤ actualSize geo - marginPx geo) ∧
  (totalModules geo ≤ available geo →
     0 ≤ (actualSize geo - marginPx geo - right) - (left - marginPx geo) ≤ 1) ∧
  (available geo < totalModules geo →
     moduleSize geo = 1 ∧ left = marginPx geo).
Proof.
  apply (symbol_within_margins checker sampleParams sampleGeometry);
    [reflexivity|reflexivity|discriminate].
Defined.

(** For a configuration with a non-negative quiet zone, and a QR library
    whose symbols have at least one module, [generateQRCode] fails exactly
    when the library does: the renderers themselves never fail. *)
Theorem generateQRCode_fails_only_with_library libs params :
  (∀ level data qr, qrcode libs level data = Some qr → 0 < getModuleCount qr) →
  0 ≤ qzone params →
  generateQRCode libs params = None ↔
  qrcode libs (getErrorCorrectionLevel (ecc params)) (qrData params) = None.
Proof. apply generateQRCode_None. Qed.

Lemma generateQRCode_fails_only_with_library_witness :
  generateQRCode (constantLibraries twoByTwo) threePixels ≠ None.
Proof.
  intros H.
  apply (generateQRCode_fails_only_with_library
           (constantLibraries twoByTwo) threePixels) in H;
    [discriminate H| |discriminate].
  intros level data qr [= <-]. reflexivity.
Defined.

(** For the format [svg] the bytes returned are the code units of the SVG
    text, one byte each, all below 128: the text is pure ASCII, so its
    UTF-8 encoding has as many bytes as the text has characters. *)
Theorem generateQRCode_svg_bytes libs params bytes :
  format params = lit "svg" →
  generateQRCode libs params = Some bytes →
  ∃ qr svg,
    qrcode libs (getErrorCorrectionLevel (ecc params)) (qrData params)
      = Some qr ∧
    generateQRCodeSVG qr params = Some svg ∧
    bytes = Z.of_N <$> svg ∧
    Forall (λ b, 0 ≤ b < 128) bytes.
Proof.
  intros Hf. rewrite generateQRCode_eq.
  destruct (qrcode libs _ _) as [qr|]; [|done].
  rewrite bool_decide_eq_true_2 by done.
  destruct (generateQRCodeSVG qr params) as [svg|] eqn:Hsvg; [|done].
  intros [= <-]. exists qr, svg.
  pose proof (generateQRCodeSVG_ascii _ _ _ Hsvg) as Ha.
  split; [done|]. split; [done|].
  rewrite (utf8Encode_ascii _ Ha). split; [done|].
  apply Forall_fmap. eapply list.Forall_impl; [exact Ha|].
  intros c Hc. cbn in Hc |- *. lia.
Qed.

(** For every other format the bytes returned are what the PNG encoder
    makes of a bitmap of [size * size * 4] bytes, together with [size] as
    its width and its height. *)
Theorem generateQRCode_png_buffer libs params bytes :
  format params ≠ lit "svg" →
  (∀ level data qr, qrcode libs level data = Some qr → 0 < getModuleCount qr) →
  0 ≤ qzone params →
  generateQRCode libs params = Some bytes →
  ∃ qr png,
    qrcode libs (getErrorCorrectionLevel (ecc params)) (qrData params)
      = Some qr ∧
    generatePNG qr params = Some png ∧
    Z.of_nat (List.length (imageData png))
      = width (size params) * width (size params) * 4 ∧
    bytes = upngEncode libs (imageData png) (width (size params))
              (width (size params)).
Proof.
  intros Hf Hlib Hq. rewrite generateQRCode_eq.
  destruct (qrcode libs _ _) as [qr|] eqn:Eqr; [|done].
  rewrite bool_decide_eq_false_2 by done.
  destruct (renderers_defined qr params (Hlib _ _ _ Eqr) Hq)
    as [_ (png & Hpng & Hlen)].
  rewrite Hpng. intros [= <-]. by exists qr, png.
Qed.

Lemma generateQRCode_svg_bytes_witness :
  ∃ bytes,
    generateQRCode (constantLibraries twoByTwo)
      (mkParams (lit "hi") (mkSize 3 3) UTF8 UTF8 (lit "L") (mkColor 1 2 3)
         (mkColor 255 255 255) 0 0 (lit "svg")) = Some bytes ∧
    Forall (λ b, 0 ≤ b < 128) bytes.
Proof.
  destruct (generateQRCode _ _) as [bytes|] eqn:E;
    [|vm_compute in E; discriminate E].
  exists bytes. split; [reflexivity|].
  destruct (generateQRCode_svg_bytes _ _ bytes
              (eq_refl : format (mkParams (lit "hi") (mkSize 3 3) UTF8 UTF8
                           (lit "L") (mkColor 1 2 3) (mkColor 255 255 255)
                           0 0 (lit "svg")) = lit "svg") E)
    as (qr & svg & _ & _ & _ & H).
  exact H.
Defined.

Lemma generateQRCode_png_buffer_witness :
  ∃ png,
    generatePNG twoByTwo threePixels = Some png ∧
    generateQRCode (constantLibraries twoByTwo) threePixels
      = Some (imageData png) ∧
    Z.of_nat (List.length (imageData png)) = 36.
Proof.
  destruct (generateQRCode (constantLibraries twoByTwo) threePixels)
    as [bytes|] eqn:E; [|vm_compute in E; discriminate E].
  destruct (generateQRCode_png_buffer (constantLibraries twoByTwo)
              threePixels bytes) as (qr & png & Hqr & Hpng & Hlen & ->).
  - discriminate.
  - intros level data qr [= <-]. reflexivity.
  - discriminate.
  - exact E.
  - injection Hqr as <-. exists png. split; [exact Hpng|].
    split; [reflexivity|exact Hlen].
Defined.

(** The loop of the ETag computes the 32-bit FNV-1a hash of the code units
    of its input, read as a signed number: modulo [2 ^ 32] it is the
    unsigned hash, and for a non-empty input it is the hash wrapped into
    the range of [ToInt32] (so the tag can carry a minus sign). *)
Theorem fnv1a_signed_fnv1a32 s :
  fnv1a s `mod` 2 ^ 32 = fnv1a32 s ∧
  (s ≠ [] → fnv1a s = toInt32 (fnv1a32 s) ∧ - 2 ^ 31 ≤ fnv1a s < 2 ^ 31).
Proof.
  split; [apply fnv1a_mod|]. intros Hs.
  rewrite (fnv1a_int32 s Hs). split; [done|apply toInt32_range].
Qed.

(** A request answered with 200 and an ETag is answered, when it is sent
    again with [If-None-Match], with 304, no body and the same ETag if
    the header is that ETag, and as before if it is anything else. *)
Theorem etag_revalidation libs req etag v :
  status (handleQRCodeRequest libs (withIfNoneMatch None req)) = 200 →
  headerGet "ETag"
    (headers (handleQRCodeRequest libs (withIfNoneMatch None req)))
    = Some etag →
  handleQRCodeRequest libs (withIfNoneMatch (Some v) req)
  = if bool_decide (v = etag) then notModified etag
    else handleQRCodeRequest libs (withIfNoneMatch None req).
Proof.
  intros Hst Het.
  destruct (handleQRCodeRequest_cases libs (withIfNoneMatch None req))
    as [[_ E]|[(params & e & _ & Ev & E)|[(params & parsed & _ & _ & _ & E)
       |(params & parsed & bytes & Em & Ev & Eg & E)]]];
    try (rewrite E in Hst; discriminate Hst).
  { rewrite E, (paramErrorResponse_status _ _ Ev) in Hst. discriminate Hst. }
  rewrite bool_decide_eq_false_2 in E by discriminate.
  rewrite E in Het |- *.
  destruct (rendered_facts (getMimeType (format parsed)) parsed bytes)
    as (_ & _ & _ & _ & Hetag & _).
  rewrite Hetag in Het. injection Het as <-.
  destruct (handleQRCodeRequest_cases libs (withIfNoneMatch (Some v) req))
    as [[E' _]|[(params' & e' & Em' & Ev' & _)
       |[(params' & parsed' & Em' & Ev' & Eg' & _)
       |(params' & parsed' & bytes' & Em' & Ev' & Eg' & E')]]];
    cbn [withIfNoneMatch request ifNoneMatch] in *; try congruence.
  assert (params' = params) as -> by congruence.
  assert (parsed' = parsed) as -> by congruence.
  assert (bytes' = bytes) as -> by congruence.
  rewrite E'. destruct (decide (v = etagOf parsed)) as [->|Hne].
  - by rewrite !bool_decide_eq_true_2.
  - rewrite !bool_decide_eq_false_2; [done..|congruence].
Qed.

Lemma etag_revalidation_witness :
  handleQRCodeRequest (constantLibraries twoByTwo)
    (withIfNoneMatch (Some (etagOf tenPixels)) tenPixelsRequest)
  = notModified (etagOf tenPixels).
Proof.
  pose proof (etag_revalidation (constantLibraries twoByTwo) tenPixelsRequest
                (etagOf tenPixels) (etagOf tenPixels)) as H.
  rewrite bool_decide_eq_true_2 in H by reflexivity.
  apply H; vm_compute; reflexivity.
Defined.

(** The answer is 400 exactly when the merged parameters fail validation,
    and it then carries the message of the validator as plain text. *)
Theorem bad_request_iff libs req :
  status (handleQRCodeRequest libs req) = 400 ↔
  ∃ params e,
    mergeParams (request req) = Some params ∧
    validateAndParseParams (asQRCodeParams params) = Throw e ∧
    handleQRCodeRequest libs req =
      {| status := 400;
         headers := [("Content-Type"%string, lit "text/plain");
                     ("Access-Control-Allow-Origin"%string, lit "*")];
         body := TextBody (lit (message e)) |}.
Proof.
  split.
  - intros Hst.
    destruct (handleQRCodeRequest_cases libs req)
      as [[_ E]|[(params & e & Em & Ev & E)|[(params & parsed & _ & _ & _ & E)
         |(params & parsed & bytes & _ & _ & _ & E)]]];
      rewrite E in Hst; try discriminate Hst.
    + exists params, e. do 2 (split; [done|]). rewrite E.
      unfold paramErrorResponse.
      by rewrite (proj1 (validate_Throw _ _ Ev)).
    + rewrite served_status in Hst. by destruct (bool_decide _).
  - intros (params & e & _ & _ & ->). reflexivity.
Qed.



(** A request that validates and is rendered, and carries no
    [If-None-Match], is answered with 200, the bytes of the image, the
    media type of the format, the number of bytes in decimal as
    [Content-Length], the ETag of the configuration, and the headers that
    allow caching for an hour and any origin. *)
Theorem rendered_response libs req params parsed bytes :
  mergeParams (request req) = Some params →
  validateAndParseParams (asQRCodeParams params) = Return parsed →
  generateQRCode libs parsed = Some bytes →
  ifNoneMatch req = None →
  let resp := handleQRCodeRequest libs req in
  status resp = 200 ∧ body resp = BytesBody bytes ∧
  headerGet "Content-Type" (headers resp)
    = Some (if bool_decide (format parsed = lit "svg")
            then lit "image/svg+xml" else lit "image/png") ∧
  headerGet "Content-Length" (headers resp)
    = Some (toString (Z.of_nat (List.length bytes))) ∧
  headerGet "ETag" (headers resp) = Some (etagOf parsed) ∧
  headerGet "Cache-Control" (headers resp)
    = Some (lit "public, max-age=3600") ∧
  headerGet "Access-Control-Allow-Origin" (headers resp) = Some (lit "*").
Proof.
  intros Em Ev Eg Hn. unfold handleQRCodeRequest.
  rewrite Em, Ev, Eg, Hn. apply rendered_facts.
Qed.

Lemma rendered_response_witness :
  headerGet "Content-Length"
    (headers (handleQRCodeRequest (constantLibraries twoByTwo)
                tenPixelsRequest))
  = Some (lit "400").
Proof.
  destruct (generateQRCode (constantLibraries twoByTwo) tenPixels)
    as [bytes|] eqn:Eg; [|vm_compute in Eg; discriminate Eg].
  assert (Hlen : List.length bytes = 400%nat).
  { vm_compute in Eg. injection Eg as <-. reflexivity. }
  destruct (rendered_response (constantLibraries twoByTwo) tenPixelsRequest
              _ tenPixels bytes eq_refl)
    as (_ & _ & _ & Hcl & _); [vm_compute; reflexivity|exact Eg|reflexivity|].
  rewrite Hcl, Hlen. reflexivity.
Defined.

(** Every answer of the worker, on every route and for every outcome,
    allows any origin, and its status is one of 200, 204, 304, 400, 404
    and 500. *)
Theorem fetch_cors libs req :
  headerGet "Access-Control-Allow-Origin" (headers (fetch libs req))
    = Some (lit "*") ∧
  status (fetch libs req) ∈ [200; 204; 304; 400; 404; 500].
Proof.
  unfold fetch.
  destruct (bool_decide (method _ = _)); [split; [done|set_solver]|].
  destruct (bool_decide (pathname _ = lit "/info"));
    [split; [done|set_solver]|].
  destruct (_ || _); [|split; [done|set_solver]].
  destruct (handleQRCodeRequest_cases libs req)
    as [[_ E]|[(params & e & _ & Ev & E)|[(params & parsed & _ & _ & _ & E)
       |(params & parsed & bytes & _ & _ & _ & E)]]]; rewrite E.
  - split; [done|set_solver].
  - rewrite (paramErrorResponse_status _ _ Ev). split; [done|set_solver].
  - split; [done|set_solver].
  - destruct (bool_decide _); [split; [done|set_solver]|].
    destruct (rendered_facts (getMimeType (format parsed)) parsed bytes)
      as (-> & _ & _ & _ & _ & _ & ->).
    split; [done|set_solver].
Qed.

(** A request whose method is neither [OPTIONS] nor [POST] is answered as
    the [GET] request with the same path, query and [If-None-Match]: its
    body and its content type are not looked at, and no method is turned
    down. *)
Theorem fetch_other_methods libs req :
  method (request req) ≠ lit "OPTIONS" →
  method (request req) ≠ lit "POST" →
  fetch libs req
  = fetch libs
      {| request := request (getRequest (searchParams (request req)));
         pathname := pathname req;
         ifNoneMatch := ifNoneMatch req |}.
Proof.
  intros Ho Hp. unfold fetch.
  cbn [request pathname getRequest method].
  rewrite (bool_decide_eq_false_2 _ Ho).
  rewrite (bool_decide_eq_false_2 (lit "GET" = lit "OPTIONS")) by discriminate.
  destruct (bool_decide (pathname req = lit "/info")); [done|].
  destruct (_ || _); [|done].
  unfold handleQRCodeRequest, mergeParams.
  cbn [request ifNoneMatch method searchParams].
  rewrite (bool_decide_eq_false_2 _ Hp).
  by rewrite (bool_decide_eq_false_2 (lit "GET" = lit "POST")) by discriminate.
Qed.

Lemma fetch_other_methods_witness :
  fetch (constantLibraries twoByTwo)
    {| request :=
         {| searchParams := [(lit "data", lit "hi"); (lit "size", lit "10x10")];
            method := lit "DELETE";
            contentType := Some (lit "application/json");
            formData := None;
            json := None |};
       pathname := lit "/";
       ifNoneMatch := None |}
  = fetch (constantLibraries twoByTwo) tenPixelsRequest.
Proof.
  refine (fetch_other_methods (constantLibraries twoByTwo)
            {| request :=
                 {| searchParams :=
                      [(lit "data", lit "hi"); (lit "size", lit "10x10")];
                    method := lit "DELETE";
                    contentType := Some (lit "application/json");
                    formData := None;
                    json := None |};
               pathname := lit "/";
               ifNoneMatch := None |} _ _); discriminate.
Defined.

Lemma property_single (key text : jsstring) (name : string) :
  key ≠ lit "__proto__" →
  bool_decide (lit name ∈ objectPrototype) = false →
  property (mergeGet [(key, text)] ∅) name
  = if bool_decide (lit name = key) then Some text else None.
Proof.
  intros Hk Hn. unfold property, mergeGet, get. cbn [foldl fst snd].
  unfold set. rewrite (bool_decide_eq_false_2 _ Hk).
  destruct (decide (lit name = key)) as [E|E].
  - rewrite (bool_decide_eq_true_2 _ E). subst key.
    by rewrite lookup_insert_eq.
  - rewrite (bool_decide_eq_false_2 _ E).
    rewrite lookup_insert_ne by done. by rewrite lookup_empty, Hn.
Qed.

(** End to end: a [GET] request for the root path that gives only data, of
    1 to 900 code units, for which the QR library returns a symbol with at
    least one module, is answered with the 200 by 200 PNG of the default
    configuration: the library is asked for level L with the data as a
    string, and the encoder receives the bitmap the renderer draws. *)
Theorem default_request_served libs text qr :
  1 ≤ length text ≤ 900 →
  qrcode libs LevelL (Text text) = Some qr →
  0 < getModuleCount qr →
  ∃ png,
    generatePNG qr (defaults text) = Some png ∧
    fetch libs (getRequest [(lit "data", text)])
    = rendered (lit "image/png") (etagOf (defaults text))
        (upngEncode libs (imageData png) 200 200).
Proof.
  intros Hlen Hqr Hmc.
  destruct (renderers_defined qr (defaults text) Hmc ltac:(done))
    as [_ (png & Hpng & _)].
  exists png. split; [done|].
  unfold fetch. cbn [getRequest request method pathname].
  rewrite (bool_decide_eq_false_2 (lit "GET" = lit "OPTIONS")) by discriminate.
  rewrite (bool_decide_eq_false_2 (lit "/" = lit "/info")) by discriminate.
  rewrite (bool_decide_eq_true_2 (lit "/" = lit "/")) by done.
  cbn [orb]. unfold handleQRCodeRequest, mergeParams.
  cbn [getRequest request method searchParams ifNoneMatch].
  rewrite (bool_decide_eq_false_2 (lit "GET" = lit "POST")) by discriminate.
  assert (Hp : asQRCodeParams (mergeGet [(lit "data", text)] ∅)
               = dataOnly text).
  { unfold asQRCodeParams, dataOnly.
    rewrite !property_single by (discriminate || reflexivity).
    reflexivity. }
  rewrite Hp, (validate_dataOnly_aux text Hlen).
  rewrite generateQRCode_eq.
  assert (Hd : qrData (defaults text) = Text text).
  { unfold qrData, defaults.
    cbn [charsetTarget charsetSource Validators.data].
    rewrite bool_decide_eq_false_2 by discriminate.
    unfold convertCharset. by rewrite bool_decide_eq_true_2. }
  rewrite Hd.
  change (getErrorCorrectionLevel (ecc (defaults text))) with LevelL.
  rewrite Hqr.
  change (bool_decide (format (defaults text) = lit "svg")) with false.
  cbv iota. rewrite Hpng. reflexivity.
Qed.

Lemma default_request_served_witness :
  ∃ png,
    generatePNG twoByTwo (defaults (lit "hi")) = Some png ∧
    fetch (constantLibraries twoByTwo) (getRequest [(lit "data", lit "hi")])
    = rendered (lit "image/png") (etagOf (defaults (lit "hi")))
        (upngEncode (constantLibraries twoByTwo) (imageData png) 200 200).
Proof.
  apply (default_request_served (constantLibraries twoByTwo) (lit "hi")
           twoByTwo); [split; discriminate|reflexivity|reflexivity].
Defined.

(** ** Repeated keys *)

Lemma mergeGet_snoc (entries : list (jsstring * jsstring))
    (kv : jsstring * jsstring)
    (params : gmap (list N) (list N)) :
  mergeGet (entries ++ [kv]) params = set (mergeGet entries params) kv.1 kv.2.
Proof. unfold mergeGet. by rewrite foldl_app. Qed.

Lemma valuesOf_snoc key (entries : list (jsstring * jsstring))
    (kv : jsstring * jsstring) :
  valuesOf key (entries ++ [kv])
  = valuesOf key entries ++ (if decide (kv.1 = key) then [kv.2] else []).
Proof.
  unfold valuesOf. rewrite list.filter_app, fmap_app. f_equal.
  rewrite filter_cons, filter_nil. by destruct (decide (kv.1 = key)).
Qed.

Lemma mergeGet_lookup (entries : list (jsstring * jsstring))
    (params : gmap (list N) (list N)) key :
  key ≠ lit "__proto__" →
  mergeGet entries params !! key
  = match list.last (valuesOf key entries) with
    | Some v => Some v
    | None => params !! key
    end.
Proof.
  intros Hk. induction entries as [|kv entries IH] using rev_ind; [done|].
  rewrite mergeGet_snoc, valuesOf_snoc.
  destruct (decide (kv.1 = key)) as [E|E].
  - rewrite last_snoc. rewrite E. unfold set.
    rewrite (bool_decide_eq_false_2 _ Hk). apply lookup_insert_eq.
  - rewrite List.app_nil_r, set_lookup_ne by done. exact IH.
Qed.

(** When the query gives a key more than once, its last value is the one
    kept (the key [__proto__] apart, which is never stored). *)
Theorem query_last_wins req key :
  key ≠ lit "__proto__" →
  getMapping req !! key = list.last (valuesOf key (searchParams req)).
Proof.
  intros Hk. unfold getMapping. rewrite (mergeGet_lookup _ _ _ Hk).
  by destruct (list.last _).
Qed.

Lemma query_last_wins_witness :
  getMapping
    (request (getRequest [(lit "size", lit "10x10"); (lit "data", lit "hi");
                          (lit "size", lit "20x20")]))
    !! lit "size"
  = Some (lit "20x20").
Proof.
  rewrite (query_last_wins
             (request (getRequest [(lit "size", lit "10x10");
                                   (lit "data", lit "hi");
                                   (lit "size", lit "20x20")]))
             (lit "size")) by discriminate.
  vm_compute. reflexivity.
Defined.

Lemma mergeForm_lookup (entries : list (jsstring * jsstring))
    (params : gmap (list N) (list N)) key :
  key ∉ objectPrototype →
  mergeForm entries params !! key
  = match params !! key with
    | Some (c :: v) => Some (c :: v)
    | cur =>
        match list.head (filter (λ v, v ≠ []) (valuesOf key entries)) with
        | Some v => Some v
        | None =>
            match list.last (valuesOf key entries) with
            | Some v => Some v
            | None => cur
            end
        end
    end.
Proof.
  intros Hk.
  assert (Hp : key ≠ lit "__proto__").
  { intros ->. apply Hk. unfold objectPrototype. set_solver. }
  revert params. induction entries as [|[k v0] entries IH]; intros params.
  { cbn. by destruct (params !! key) as [[|]|]. }
  rewrite mergeForm_cons, IH. clear IH. cbn [fst snd]. unfold valuesOf.
  rewrite filter_cons. cbn [fst].
  destruct (decide (k = key)) as [->|Hne].
  - rewrite fmap_cons. cbn [snd]. fold (valuesOf key entries).
    unfold get. destruct (params !! key) as [[|c v]|] eqn:Ecur.
    + cbn [truthy is_empty negb]. unfold set.
      rewrite (bool_decide_eq_false_2 _ Hp), lookup_insert_eq.
      rewrite filter_cons. destruct v0 as [|c0 v0].
      * destruct (decide _) as [?|_]; [done|].
        rewrite last_cons. destruct (list.head _); [done|].
        by destruct (list.last _).
      * destruct (decide _) as [_|Hn]; [done|by destruct Hn].
    + cbn [truthy is_empty negb]. by rewrite Ecur.
    + rewrite (bool_decide_eq_false_2 _ Hk). cbn [truthy negb]. unfold set.
      rewrite (bool_decide_eq_false_2 _ Hp), lookup_insert_eq.
      rewrite filter_cons. destruct v0 as [|c0 v0].
      * destruct (decide _) as [?|_]; [done|].
        rewrite last_cons. destruct (list.head _); [done|].
        by destruct (list.last _).
      * destruct (decide _) as [_|Hn]; [done|by destruct Hn].
  - fold (valuesOf key entries).
    destruct (negb _); [by rewrite set_lookup_ne|done].
Qed.

(** When a form body gives more than once a key that the query does not
    give (or gives empty), its first non-empty value is the one kept; and
    if all its values are empty, the key is kept empty. *)
Theorem form_first_nonempty (entries : list (jsstring * jsstring))
    (params : gmap (list N) (list N)) key :
  key ∉ objectPrototype →
  params !! key = None ∨ params !! key = Some [] →
  mergeForm entries params !! key
  = match list.head (filter (λ v, v ≠ []) (valuesOf key entries)) with
    | Some v => Some v
    | None => if decide (valuesOf key entries = []) then params !! key
              else Some []
    end.
Proof.
  intros Hk Hcur. rewrite (mergeForm_lookup _ _ _ Hk).
  assert (Hlast : list.head (filter (λ v, v ≠ []) (valuesOf key entries)) = None →
                  list.last (valuesOf key entries)
                  = if decide (valuesOf key entries = []) then None
                    else Some []).
  { intros Hh. apply head_None in Hh.
    induction (valuesOf key entries) as [|v vs IHv]; [done|].
    rewrite filter_cons in Hh. destruct (decide (v ≠ [])) as [?|Hv]; [done|].
    assert (v = []) as -> by (destruct v; [done|by destruct Hv]).
    rewrite last_cons, (IHv Hh). destruct (decide (vs = [])); by subst. }
  destruct (list.head _) as [v|].
  - by destruct Hcur as [-> | ->].
  - rewrite (Hlast eq_refl).
    destruct (decide _); by destruct Hcur as [-> | ->].
Qed.

Lemma form_first_nonempty_witness :
  mergeForm [(lit "color", []); (lit "color", lit "f00");
             (lit "color", lit "00f")] ∅ !! lit "color"
  = Some (lit "f00").
Proof.
  rewrite (form_first_nonempty
             [(lit "color", []); (lit "color", lit "f00");
              (lit "color", lit "00f")] ∅ (lit "color")).
  - vm_compute. reflexivity.
  - apply (bool_decide_eq_false_1 (lit "color" ∈ objectPrototype)).
    vm_compute. reflexivity.
  - left. apply lookup_empty.
Defined.
